(** * cabase: retrieval fusion, rerank and diversification of the search routes

    A shallow embedding of the search route handlers of the repository
    (the keyword-boost route, the AI-rerank route, the multi-query route and
    the first embedding-only route) together with the properties the
    specification states about them.

    Conventions of the embedding:
    - a JavaScript [number] holding a score is an exact rational ([Q]); the
      arithmetic of the handlers ([*], [+], [Math.min], the sign of a
      comparator) is the arithmetic of [Q]: rounding is not modelled.  Row
      identifiers are integers;
    - a JavaScript string is a [string] of one-byte characters, with
      [toLowerCase] and the class [\s] read on ASCII;
    - every [await fetch(...)] is answered by an oracle of the [World] the
      handler runs in: the call either throws, answers with a non-ok status,
      or answers ok with a body; within one request a call repeated with
      the same arguments gets the same answer;
    - the rows a store answers with have the columns of its table; the JSON
      a chat model answers with is free: what it holds in a field need not
      be an array ([Field]), the elements of an array being strings;
    - a handler is modelled on the requests whose body is a JSON value
      other than [null] (on the others reading the body throws, and the
      handler answers with status 500);
    - [Array.prototype.sort] with a comparator is the stable sort. *)

From Stdlib Require Import Ascii String QArith Qminmax Lqa.
From stdpp Require Import gmap strings list sorting.

Local Open Scope string_scope.

(* ===================================================================== *)
(** ** JavaScript strings *)
(* ===================================================================== *)

Module JsString.

Definition code (c : ascii) : nat := nat_of_ascii c.

(** [c] is matched by [\s] (ASCII part of the class): tab, line feed,
    vertical tab, form feed, carriage return, space. *)
Definition is_space (c : ascii) : bool :=
  let n := code c in
  ((9 <=? n)%nat && (n <=? 13)%nat) || (n =? 32)%nat.

(** [c] is matched by [\d]. *)
Definition is_digit (c : ascii) : bool :=
  let n := code c in (48 <=? n)%nat && (n <=? 57)%nat.

Definition lower_char (c : ascii) : ascii :=
  let n := code c in
  if (65 <=? n)%nat && (n <=? 90)%nat then ascii_of_nat (n + 32) else c.

(** [s.toLowerCase()] *)
Fixpoint toLowerCase (s : string) : string :=
  match s with
  | EmptyString => EmptyString
  | String c s' => String (lower_char c) (toLowerCase s')
  end.

Definition starts_with_space (s : string) : bool :=
  match s with
  | String c _ => is_space c
  | EmptyString => false
  end.

(** Put [c] in front of the first piece of a split. *)
Definition cons_head (c : ascii) (ps : list string) : list string :=
  match ps with
  | p :: ps' => String c p :: ps'
  | [] => [String c EmptyString]
  end.

(** [s.split(/\s+/)]: the pieces between maximal runs of white space; a
    run at either end leaves an empty piece there, and the empty string
    splits into one empty piece. *)
Fixpoint split_ws (s : string) : list string :=
  match s with
  | EmptyString => [EmptyString]
  | String c s' =>
      if is_space c then
        if starts_with_space s' then split_ws s'
        else EmptyString :: split_ws s'
      else cons_head c (split_ws s')
  end.

(** [s.split(' ')]: the pieces between single spaces. *)
Fixpoint split_space (s : string) : list string :=
  match s with
  | EmptyString => [EmptyString]
  | String c s' =>
      if (code c =? 32)%nat then EmptyString :: split_space s'
      else cons_head c (split_space s')
  end.

(** [s.startsWith(p)] *)
Fixpoint startsWith (p s : string) : bool :=
  match p, s with
  | EmptyString, _ => true
  | String a p', String b s' => bool_decide (a = b) && startsWith p' s'
  | String _ _, EmptyString => false
  end.

(** [s.includes(kw)] *)
Fixpoint includes (s kw : string) : bool :=
  startsWith kw s ||
  match s with
  | EmptyString => false
  | String _ s' => includes s' kw
  end.

(** [l.includes(w)] on an array of strings *)
Definition mem (w : string) (l : list string) : bool :=
  bool_decide (w ∈ l).

(** [l.join(sep)] *)
Fixpoint join (sep : string) (l : list string) : string :=
  match l with
  | [] => EmptyString
  | [x] => x
  | x :: l' => x ++ sep ++ join sep l'
  end.

End JsString.

(* ===================================================================== *)
(** ** JavaScript arrays *)
(* ===================================================================== *)

Module JsArray.
Section Sort.
Context {A : Type}.
(** A comparator [(a, b) => ...]: [a] goes before [b] when the result is
    negative, after it when positive. *)
Variable cmp : A -> A -> Q.

(** [x] enters a sorted array before the first element it does not have
    to follow; elements that compare equal keep their order. *)
Fixpoint insert_sorted (x : A) (l : list A) : list A :=
  match l with
  | [] => [x]
  | y :: l' =>
      if Qle_bool (cmp x y) 0 then x :: y :: l'
      else y :: insert_sorted x l'
  end.

(** [l.sort(cmp)] *)
Fixpoint sort (l : list A) : list A :=
  match l with
  | [] => []
  | x :: l' => insert_sorted x (sort l')
  end.
End Sort.

(** [l.slice(0, n)] *)
Definition slice0 {A} (n : nat) (l : list A) : list A := take n l.

(** [l.find(p)] together with the index of the element found, so that a
    write through the reference found can be replayed on the array. *)
Definition find_index {A} (p : A -> bool) (l : list A) : option (nat * A) :=
  list_find (fun x => p x = true) l.
End JsArray.

(* ===================================================================== *)
(** ** Data model *)
(* ===================================================================== *)

(** A row of the [case_chunks] table, as the text search returns it. *)
Record Chunk := mkChunk {
  id : Z;
  case_id : Z;
  case_name : string;
  neutral_citation : string;
  court : string;
  decision_date : string;
  chunk_text : option string;   (* [None]: null or undefined *)
  section_type : string;
  hklii_id : string
}.

(** [interface SearchResult] of the routes: the row, its score and the
    optional fields the different routes attach ([None]: field absent). *)
Record SearchResult := mkResult {
  row : Chunk;
  similarity : Q;
  source : option string;
  matchedQueries : option (list string);
  relevanceScore : option N;
  keywordMatches : option nat
}.

Definition rid (r : SearchResult) : Z := id (row r).

(** [{ ...c, similarity: s, source: src }] *)
Definition of_chunk (c : Chunk) (s : Q) (src : option string) : SearchResult :=
  mkResult c s src None None None.

(** [{ ...r, similarity: s }] and [r.similarity = s] *)
Definition set_similarity (s : Q) (r : SearchResult) : SearchResult :=
  mkResult (row r) s (source r) (matchedQueries r) (relevanceScore r)
           (keywordMatches r).

(** [{ ...r, source: src }] *)
Definition set_source (src : string) (r : SearchResult) : SearchResult :=
  mkResult (row r) (similarity r) (Some src) (matchedQueries r)
           (relevanceScore r) (keywordMatches r).

(** [{ ...r, matchedQueries: qs }] *)
Definition set_matchedQueries (qs : option (list string)) (r : SearchResult)
  : SearchResult :=
  mkResult (row r) (similarity r) (source r) qs (relevanceScore r)
           (keywordMatches r).

(** [{ ...r, relevanceScore: n }] *)
Definition set_relevanceScore (n : N) (r : SearchResult) : SearchResult :=
  mkResult (row r) (similarity r) (source r) (matchedQueries r) (Some n)
           (keywordMatches r).

(** [{ ...r, keywordMatches: n }] *)
Definition set_keywordMatches (n : nat) (r : SearchResult) : SearchResult :=
  mkResult (row r) (similarity r) (source r) (matchedQueries r)
           (relevanceScore r) (Some n).

(** [b.similarity - a.similarity]: the comparator of every descending sort
    by similarity. *)
Definition by_similarity_desc (a b : SearchResult) : Q :=
  (similarity b - similarity a)%Q.

(* ===================================================================== *)
(** ** The services a handler calls *)
(* ===================================================================== *)

(** What one [await fetch(...)] followed by reading the body comes to. *)
Inductive Reply (A : Type) : Type :=
| Rejected              (* the call, or decoding its body, throws *)
| HttpError             (* [response.ok] is false *)
| HttpOk (body : A).    (* [response.ok] is true and the body decodes *)
Arguments Rejected {A}.
Arguments HttpError {A}.
Arguments HttpOk {A} body.

(** Shape of the JSON value the embedding service answers with. *)
Inductive EmbeddingJson : Type :=
| FlatArray (len : nat)                (* an array of [len] numbers *)
| NestedArray (len inner : nat)        (* an array of [len] elements, the
                                          first one an array of [inner] *)
| NullJson                             (* [null] *)
| OtherJson.                           (* any other value *)

(** What a field of the JSON of a chat model holds, as far as the code that
    reads it tells values apart. *)
Inductive Field : Type :=
| Items (items : list string)       (* an array, here of strings *)
| Text (s : string)                 (* a string *)
| Scalar                            (* [true], or a number other than 0 *)
| Object (length_positive : bool).  (* an object that is no array;
                                       whether [length > 0] holds of it *)

(** What the model's answer to the query-analysis prompt contains
    ([None]: the field is absent, [null], [false] or 0).  Of [queryType],
    which the route only echoes, the string is kept. *)
Record ParsedAnalysis := mkParsed {
  p_subQueries : option Field;
  p_keywords : option Field;
  p_legalConcepts : option Field;
  p_queryType : option string
}.

Inductive AnalyzerContent : Type :=
| NoObject                          (* no [{...}] in the content *)
| Malformed                         (* [JSON.parse] of the match throws *)
| Parsed (p : ParsedAnalysis).      (* the object parsed *)

(** The world of one request: each field answers one kind of call.  Calls
    are indexed by what the request sent depends on; the text of a prompt
    is not built, the oracle takes what the prompt is built from. *)
Record World := mkWorld {
  (* HuggingFace feature extraction, by input text *)
  hf_embedding : string -> Reply EmbeddingJson;
  (* iFlow [/embeddings], by input text; the body tells whether
     [data[0].embedding] can be read *)
  iflow_embedding : string -> Reply bool;
  (* Supabase [rpc/match_legal_chunks], by the text embedded, the threshold
     and the count *)
  match_legal_chunks : string -> Q -> nat -> Reply (list SearchResult);
  (* Qdrant [points/query], by the text embedded and the court filter *)
  qdrant_query : string -> option string -> Reply (list SearchResult);
  (* Supabase [case_chunks?chunk_text=ilike.*kw*], by keyword and limit *)
  case_chunks : string -> nat -> Reply (list Chunk);
  (* Supabase [case_chunks?or=(...)], by the keywords and the court *)
  case_chunks_any : list string -> option string -> Reply (list Chunk);
  (* chat completion answering the query-analysis prompt *)
  analyzer_chat : string -> Reply AnalyzerContent;
  (* chat completion answering the relevance-scoring prompt: the content *)
  rerank_chat : string -> list SearchResult -> Reply (option string);
  (* chat completion answering the analysis prompt: the content *)
  analysis_chat : string -> list SearchResult -> Reply (option string);
  (* the same for the prompt that also lists the legal concepts *)
  legal_analysis_chat :
    string -> list string -> list SearchResult -> Reply (option string)
}.

(** What [analyzeQuery] returns: the three lists are declared as arrays
    of strings, and hold whatever the JSON of the model held there. *)
Record QueryAnalysis := mkAnalysis {
  originalQuery : string;
  subQueries : Field;
  keywords : Field;
  legalConcepts : Field;
  queryType : string
}.

(** The rows of an answer; none when the call failed. *)
Definition rows_of {A} (reply : Reply (list A)) : list A :=
  match reply with
  | HttpOk rows => rows
  | HttpError | Rejected => []
  end.

(** The JSON a handler answers with ([timeTaken] and debug counters left
    out; [queryAnalysis] is [None] in the routes that have none). *)
Inductive Body : Type :=
| ErrorBody (error : string)
| SearchBody (query : string) (queryAnalysis : option QueryAnalysis)
             (results : list SearchResult) (aiAnswer : option string).

Record Response := mkResponse { status : nat; body : Body }.

Definition quote : string := String (ascii_of_nat 34) EmptyString.
Definition newline : string := String (ascii_of_nat 10) EmptyString.

(** Deduplicate by id: [const seen = new Set(); l.filter(r => { if
    (seen.has(r.id)) return false; seen.add(r.id); return true })]. *)
Fixpoint dedup_by_id (seen : gset Z) (l : list SearchResult)
  : list SearchResult :=
  match l with
  | [] => []
  | r :: l' =>
      if decide (rid r ∈ seen) then dedup_by_id seen l'
      else r :: dedup_by_id ({[rid r]} ∪ seen) l'
  end.

(* ===================================================================== *)
(** ** The keyword-boost route: semantic search, one text search per
       keyword, keyword boost, sort, deduplication *)
(* ===================================================================== *)

Module KeywordBoost.
Import JsString JsArray.

Definition stopwords : list string :=
  ["from"; "with"; "that"; "this"; "have"; "been"; "were"; "what"; "when";
   "where"].

(** [query.toLowerCase().split(/\s+/).filter(w => w.length > 3)
      .filter(w => !stopwords.includes(w))] *)
Definition extract_keywords (query : string) : list string :=
  filter (fun w => mem w stopwords = false)
    (filter (fun w => 3 < String.length w) (split_ws (toLowerCase query))).

(** The embedding can be sent to the vector store: a flat array of 384
    numbers, or a nested one whose first element has 384. *)
Definition usable_embedding (e : EmbeddingJson) : bool :=
  match e with
  | FlatArray len => (len =? 384)%nat
  | NestedArray len inner => (len =? 384)%nat || (inner =? 384)%nat
  | NullJson | OtherJson => false
  end.

(** STEP 1: the semantic results pushed on [allResults]. *)
Definition semantic_results (w : World) (query : string)
  : list SearchResult :=
  match hf_embedding w query with
  | HttpOk e =>
      if usable_embedding e then
        match match_legal_chunks w query 0.30%Q 20 with
        | HttpOk results => map (set_source "semantic") results
        | HttpError | Rejected => []
        end
      else []
  | HttpError | Rejected => []
  end.

(** One row of a keyword answer: pushed when its id is new; when the id is
    already there and came from a keyword, that entry is updated in place. *)
Definition merge_keyword_row (allResults : list SearchResult) (c : Chunk)
  : list SearchResult :=
  match find_index (fun r => (rid r =? id c)%Z) allResults with
  | None => allResults ++ [of_chunk c 0.6%Q (Some "keyword")]
  | Some (i, existing) =>
      if bool_decide (source existing = Some "keyword") then
        <[i := set_similarity (Qmin 0.9 (similarity existing + 0.1))%Q
                 existing]> allResults
      else allResults
  end.

(** STEP 2: one text search per keyword; a failed one is skipped. *)
Definition keyword_step (w : World) (allResults : list SearchResult)
    (keyword : string) : list SearchResult :=
  match case_chunks w keyword 10 with
  | HttpOk keywordResults => foldl merge_keyword_row allResults keywordResults
  | HttpError | Rejected => allResults
  end.

(** Number of keywords the lower-cased text includes. *)
Definition count_matches (keywords : list string) (textLower : string)
  : nat :=
  length (filter (fun kw => includes textLower kw = true) keywords).

Definition boost_of (keywordMatches : nat) : Q :=
  if (0 <? keywordMatches)%nat
  then (1 + inject_Z (Z.of_nat keywordMatches) * 0.15)%Q
  else 1%Q.

(** STEP 3, the [map]: the keyword boost of one result. *)
Definition boost_result (keywords : list string) (result : SearchResult)
  : SearchResult :=
  let textLower :=
    match chunk_text (row result) with
    | Some t => toLowerCase t
    | None => EmptyString
    end in
  let keywordMatches := count_matches keywords textLower in
  let boost := boost_of keywordMatches in
  set_keywordMatches keywordMatches
    (set_similarity (Qmin 0.99 (similarity result * boost))%Q result).

(** [allResults] after the boost and the sort, before deduplication. *)
Definition sorted_candidates (w : World) (query : string)
  : list SearchResult :=
  let keywords := extract_keywords query in
  let allResults :=
    foldl (keyword_step w) (semantic_results w query)
          (slice0 5 keywords) in
  sort by_similarity_desc (map (boost_result keywords) allResults).

(** [finalResults] *)
Definition final_results (w : World) (query : string) : list SearchResult :=
  slice0 10 (dedup_by_id ∅ (sorted_candidates w query)).

Definition no_results_text (query : string) : string :=
  "No relevant cases found for " ++ quote ++ query ++ quote ++ "."
  ++ newline ++ newline ++ "This could mean:"
  ++ newline ++ "1. The database doesn't contain cases on this topic yet"
  ++ newline ++ "2. Try different search terms (e.g., " ++ quote
  ++ "personal injury" ++ quote ++ " instead of specific injuries)"
  ++ newline ++ "3. Try broader legal concepts (e.g., " ++ quote
  ++ "negligence" ++ quote ++ ", " ++ quote ++ "damages" ++ quote ++ ", "
  ++ quote ++ "compensation" ++ quote ++ ")".

Definition generateAnalysis (w : World) (query : string)
    (results : list SearchResult) : string :=
  match analysis_chat w query (slice0 6 results) with
  | HttpOk (Some content) =>
      if bool_decide (content = EmptyString) then "Analysis unavailable."
      else content
  | HttpOk None => "Analysis unavailable."
  | HttpError | Rejected => "Unable to generate analysis."
  end.

(** [POST] on a body that is a JSON value other than [null]: [query] is
    [None] when the body has no string at [query]. *)
Definition POST (w : World) (query : option string) : Response :=
  match query with
  | None => mkResponse 400 (ErrorBody "Query is required")
  | Some q =>
      if bool_decide (q = EmptyString) then
        mkResponse 400 (ErrorBody "Query is required")
      else
        let finalResults := final_results w q in
        let aiAnswer :=
          if (0 <? length finalResults)%nat
          then generateAnalysis w q finalResults
          else no_results_text q in
        mkResponse 200 (SearchBody q None finalResults (Some aiAnswer))
  end.

End KeywordBoost.

(* ===================================================================== *)
(** ** The AI-rerank route: semantic search, text search, deduplication,
       relevance scores from a chat model *)
(* ===================================================================== *)

Module Rerank.
Import JsString JsArray.

Definition stopwords : list string :=
  ["from"; "with"; "that"; "this"; "have"; "been"; "were"; "what"; "when";
   "where"; "cases"].

Definition extract_keywords (query : string) : list string :=
  filter (fun w => mem w stopwords = false)
    (filter (fun w => 3 < String.length w) (split_ws (toLowerCase query))).

(** [Array.isArray(e) && e.length === 384 ? e
      : (Array.isArray(e[0]) ? e[0] : null)] is truthy.  On [null] the
    index throws, which the enclosing [try] catches: no results either. *)
Definition usable_embedding (e : EmbeddingJson) : bool :=
  match e with
  | FlatArray len => (len =? 384)%nat
  | NestedArray _ _ => true
  | NullJson | OtherJson => false
  end.

(** The result made of a point of the vector store: the fields of its
    payload ([chunk_text] being [''] when absent), its score, the source
    ['semantic']. *)
Definition of_point (r : SearchResult) : SearchResult :=
  of_chunk
    (mkChunk (id (row r)) (case_id (row r)) (case_name (row r))
       (neutral_citation (row r)) (court (row r)) (decision_date (row r))
       (Some (default EmptyString (chunk_text (row r)))) (section_type (row r))
       (hklii_id (row r)))
    (similarity r) (Some "semantic").

(** STEP 1 *)
Definition semantic_results (w : World) (query : string)
    (req_court : option string) : list SearchResult :=
  match hf_embedding w query with
  | HttpOk e =>
      if usable_embedding e then
        let filter_court :=
          match req_court with
          | Some c => if bool_decide (c = EmptyString) then None
                      else Some (toLowerCase c)
          | None => None
          end in
        match qdrant_query w query filter_court with
        | HttpOk points => map of_point points
        | HttpError | Rejected => []
        end
      else []
  | HttpError | Rejected => []
  end.

Definition merge_keyword_row (allResults : list SearchResult) (c : Chunk)
  : list SearchResult :=
  match find_index (fun r => (rid r =? id c)%Z) allResults with
  | None => allResults ++ [of_chunk c 0.5%Q (Some "keyword")]
  | Some _ => allResults
  end.

(** STEP 2 *)
Definition keyword_step (w : World) (allResults : list SearchResult)
    (keyword : string) : list SearchResult :=
  match case_chunks w keyword 8 with
  | HttpOk keywordResults => foldl merge_keyword_row allResults keywordResults
  | HttpError | Rejected => allResults
  end.

(** *** Reading the scores out of the model's answer *)

Definition in_class (c : ascii) : bool :=
  is_digit c || (code c =? 44)%nat || is_space c.

(** The longest prefix made of digits, commas and white space, and what
    follows it. *)
Fixpoint span_class (s : string) : string * string :=
  match s with
  | EmptyString => (EmptyString, EmptyString)
  | String c s' =>
      if in_class c then
        let '(run, rest) := span_class s' in (String c run, rest)
      else (EmptyString, s)
  end.

(** [content.match(/\[[\d,\s]+\]/)]: the text between the brackets of the
    first match. *)
Fixpoint first_array (content : string) : option string :=
  match content with
  | EmptyString => None
  | String c s' =>
      if (code c =? 91)%nat then
        let '(run, rest) := span_class s' in
        match run, rest with
        | String _ _, String d _ =>
            if (code d =? 93)%nat then Some run else first_array s'
        | _, _ => first_array s'
        end
      else first_array s'
  end.

(** Where [JSON.parse] stands inside the brackets. *)
Inductive ParseState : Type :=
| AtStart                            (* nothing read: a value or the end *)
| InNumber (zero : bool) (v : N)     (* reading a number; [zero]: it is "0" *)
| AfterValue                         (* a comma or the end *)
| AfterComma.                        (* a value *)

Definition is_json_space (c : ascii) : bool :=
  let n := code c in
  (n =? 32)%nat || (n =? 9)%nat || (n =? 10)%nat || (n =? 13)%nat.

Definition digit_value (c : ascii) : N := N.of_nat (code c - 48).

(** [JSON.parse("[" + run + "]")] for a run of digits, commas and white
    space; [None] when it throws (a number with a leading zero, a missing
    or dangling comma, two numbers in a row, a vertical tab or form feed). *)
Fixpoint parse_elements (st : ParseState) (acc : list N) (run : string)
  : option (list N) :=
  match run with
  | EmptyString =>
      match st with
      | AtStart => Some acc
      | InNumber _ v => Some (acc ++ [v])%list
      | AfterValue => Some acc
      | AfterComma => None
      end
  | String c run' =>
      if is_digit c then
        match st with
        | AtStart | AfterComma =>
            parse_elements
              (InNumber (N.eqb (digit_value c) 0) (digit_value c)) acc run'
        | InNumber true _ => None
        | InNumber false v =>
            parse_elements (InNumber false (10 * v + digit_value c)%N) acc
                           run'
        | AfterValue => None
        end
      else if (code c =? 44)%nat then
        match st with
        | InNumber _ v => parse_elements AfterComma (acc ++ [v])%list run'
        | AfterValue => parse_elements AfterComma acc run'
        | AtStart | AfterComma => None
        end
      else if is_json_space c then
        match st with
        | InNumber _ v => parse_elements AfterValue (acc ++ [v])%list run'
        | _ => parse_elements st acc run'
        end
      else None
  end.

Definition json_parse_array (run : string) : option (list N) :=
  parse_elements AtStart [] run.

(** The scores read from the content, when there are any. *)
Definition parse_scores (content : string) : option (list N) :=
  match first_array content with
  | Some run => json_parse_array run
  | None => None
  end.

(** *** Scoring, filtering, sorting *)

(** [scores[i] ?? 5] *)
Definition score_at (scores : list N) (i : nat) : N :=
  default 5%N (scores !! i).

Definition Q_of_N (n : N) : Q := inject_Z (Z.of_N n).

(** [{ ...r, relevanceScore: scores[i] ?? 5,
       similarity: r.similarity * (1 + (scores[i] ?? 5) / 20) }] *)
Definition apply_score (scores : list N) (i : nat) (r : SearchResult)
  : SearchResult :=
  set_relevanceScore (score_at scores i)
    (set_similarity
       (similarity r * (1 + Q_of_N (score_at scores i) / 20))%Q r).

(** [r.relevanceScore ?? 5] *)
Definition relevance (r : SearchResult) : N :=
  default 5%N (relevanceScore r).

Definition combined_score (r : SearchResult) : Q :=
  (Q_of_N (relevance r) * 0.7 + similarity r * 10 * 0.3)%Q.

Definition by_combined_desc (a b : SearchResult) : Q :=
  (combined_score b - combined_score a)%Q.

(** The branch taken once the scores are parsed. *)
Definition rerank_with_scores (scores : list N) (results : list SearchResult)
  : list SearchResult :=
  let scoredResults := imap (apply_score scores) results in
  let filtered := filter (fun r => (4 <= relevance r)%N) scoredResults in
  sort by_combined_desc filtered.

(** The last line of [rerankWithAI], reached when the call fails, answers
    with a non-ok status, or no score array is read. *)
Definition rerank_fallback (results : list SearchResult)
  : list SearchResult :=
  sort by_similarity_desc results.

(** What the call for scores comes to: [Some scores] when the answer is ok
    and a bracketed array is found and parsed. *)
Definition scores_of_reply (reply : Reply (option string))
  : option (list N) :=
  match reply with
  | HttpOk content => parse_scores (default EmptyString content)
  | HttpError | Rejected => None
  end.

Definition rerankWithAI (w : World) (query : string)
    (results : list SearchResult) : list SearchResult :=
  match scores_of_reply (rerank_chat w query results) with
  | Some scores => rerank_with_scores scores results
  | None => rerank_fallback results
  end.

Definition generateAnalysis (w : World) (query : string)
    (results : list SearchResult) : string :=
  match analysis_chat w query (slice0 6 results) with
  | HttpOk (Some content) =>
      if bool_decide (content = EmptyString) then "Analysis unavailable."
      else content
  | HttpOk None => "Analysis unavailable."
  | HttpError | Rejected => "Unable to generate analysis."
  end.

(** [allResults] after STEP 2 and the deduplication. *)
Definition candidates (w : World) (query : string)
    (req_court : option string) : list SearchResult :=
  dedup_by_id ∅
    (foldl (keyword_step w) (semantic_results w query req_court)
           (slice0 4 (extract_keywords query))).

Definition final_results (w : World) (query : string)
    (req_court : option string) : list SearchResult :=
  let allResults := candidates w query req_court in
  let allResults :=
    if (0 <? length allResults)%nat
    then rerankWithAI w query (slice0 15 allResults)
    else allResults in
  slice0 10 allResults.

Definition POST (w : World) (query : option string)
    (req_court : option string) : Response :=
  match query with
  | None => mkResponse 400 (ErrorBody "Query is required")
  | Some q =>
      if bool_decide (q = EmptyString) then
        mkResponse 400 (ErrorBody "Query is required")
      else
        let finalResults := final_results w q req_court in
        let aiAnswer :=
          if (0 <? length finalResults)%nat
          then generateAnalysis w q finalResults
          else "No relevant cases found for " ++ quote ++ q ++ quote ++ "."
        in
        mkResponse 200 (SearchBody q None finalResults (Some aiAnswer))
  end.

End Rerank.

(* ===================================================================== *)
(** ** The multi-query route: query analysis, one semantic search per
       sub-query, text search, agreement boost, diversification *)
(* ===================================================================== *)

Module MultiQuery.
Import JsString JsArray.

Definition legal_vocabulary : list string :=
  ["negligence"; "liability"; "damages"; "breach"; "duty"; "care";
   "defendant"; "plaintiff"; "injury"; "compensation"; "contract"; "tort";
   "defense"].

(** The code after the [try] of [analyzeQuery]: simple extraction. *)
Definition analyzeQuery_fallback (query : string) : QueryAnalysis :=
  let words := split_ws (toLowerCase query) in
  let legalTerms := filter (fun w => mem w legal_vocabulary = true) words in
  mkAnalysis query (Items [query])
    (Items (slice0 5 (filter (fun w => 4 < String.length w) words)))
    (Items legalTerms)
    (if (8 <? length (split_space query))%nat then "complex" else "simple").

(** [x || d] on a string *)
Definition or_string (x : option string) (d : string) : string :=
  match x with
  | Some s => if bool_decide (s = EmptyString) then d else s
  | None => d
  end.

(** [x || []] on a field of the parsed object: the field itself, whatever
    it holds, unless it is absent or falsy. *)
Definition or_empty (x : option Field) : Field :=
  match x with
  | Some (Text s) => if bool_decide (s = EmptyString) then Items [] else Text s
  | Some v => v
  | None => Items []
  end.

(** The fields of the parsed object are passed on unchecked. *)
Definition analyzeQuery (w : World) (query : string) : QueryAnalysis :=
  match analyzer_chat w query with
  | HttpOk (Parsed parsed) =>
      mkAnalysis query
        (or_empty (p_subQueries parsed))
        (or_empty (p_keywords parsed))
        (or_empty (p_legalConcepts parsed))
        (or_string (p_queryType parsed) "complex")
  | HttpOk NoObject | HttpOk Malformed | HttpError | Rejected =>
      analyzeQuery_fallback query
  end.

(** [for (const x of v)]: the values the loop runs over, the characters
    of a string among them; [None] when [v] is not iterable and the loop
    throws. *)
Definition iterate (v : Field) : option (list string) :=
  match v with
  | Items items => Some items
  | Text s => Some (map (fun c => String c EmptyString) (list_ascii_of_string s))
  | Scalar | Object _ => None
  end.

(** The turns of a loop over [v] that does not throw. *)
Definition iterated (v : Field) : list string := default [] (iterate v).

(** [v.length > 0] *)
Definition has_length (v : Field) : bool :=
  match v with
  | Items items => (0 <? length items)%nat
  | Text s => (0 <? String.length s)%nat
  | Scalar => false
  | Object length_positive => length_positive
  end.

(** The strings that [v.length > 0 ? v.join(', ') : ''] joins; [None]
    when the length is positive and [v] has no [join], so that the call
    throws. *)
Definition joined (v : Field) : option (list string) :=
  match v with
  | Items items => Some items
  | Text _ | Scalar | Object _ => if has_length v then None else Some []
  end.

Definition usable_embedding (e : EmbeddingJson) : bool :=
  match e with
  | FlatArray len => (len =? 384)%nat
  | NestedArray _ _ => true
  | NullJson | OtherJson => false
  end.

(** [court && court !== 'all'] *)
Definition court_filter (req_court : option string) : option string :=
  match req_court with
  | Some c =>
      if bool_decide (c = EmptyString) || bool_decide (c = "all") then None
      else Some c
  | None => None
  end.

Definition semanticSearch (w : World) (query : string)
    (req_court : option string) (threshold : Q) : list SearchResult :=
  match hf_embedding w query with
  | HttpOk e =>
      if usable_embedding e then
        match match_legal_chunks w query threshold 15 with
        | HttpOk results =>
            match court_filter req_court with
            | Some c => filter (fun r => court (row r) = c) results
            | None => results
            end
        | HttpError | Rejected => []
        end
      else []
  | HttpError | Rejected => []
  end.

(** The whole body is in a [try]: on what is no array either the length
    is 0 or [keywords.slice(0, 4).map] throws, and [[]] is returned. *)
Definition keywordSearch (w : World) (keywords : Field)
    (req_court : option string) : list SearchResult :=
  match keywords with
  | Items [] => []
  | Items items =>
      match case_chunks_any w (slice0 4 items) (court_filter req_court) with
      | HttpOk results => map (fun c => of_chunk c 0.45%Q None) results
      | HttpError | Rejected => []
      end
  | Text _ | Scalar | Object _ => []
  end.

(** [existing.matchedQueries?.push(label)] *)
Definition push_query (label : string) (r : SearchResult) : SearchResult :=
  set_matchedQueries ((fun l => l ++ [label])%list <$> matchedQueries r) r.

(** One row of a later search: when its id is already in [allResults] the
    entry found is updated in place ([label] pushed, similarity times
    [factor], at most 1); otherwise the row is pushed with [label] alone. *)
Definition merge_row (label : string) (factor : Q)
    (allResults : list SearchResult) (result : SearchResult)
  : list SearchResult :=
  match find_index (fun r => (rid r =? rid result)%Z) allResults with
  | Some (i, existing) =>
      <[i := set_similarity (Qmin 1 (similarity existing * factor))%Q
               (push_query label existing)]> allResults
  | None => allResults ++ [set_matchedQueries (Some [label]) result]
  end.

(** STEP 2, one turn of the loop over the sub-queries. *)
Definition subquery_step (w : World) (req_court : option string)
    (allResults : list SearchResult) (subQuery : string)
  : list SearchResult :=
  foldl (merge_row subQuery 1.15%Q) allResults
        (semanticSearch w subQuery req_court 0.45%Q).

(** STEP 3 *)
Definition keyword_stage (w : World) (req_court : option string)
    (kws : Field) (allResults : list SearchResult)
  : list SearchResult :=
  if has_length kws then
    foldl (merge_row "keyword" 1.1%Q) allResults
          (keywordSearch w kws req_court)
  else allResults.

(** [allResults] when STEP 3 ends (the loop over the sub-queries not
    throwing). *)
Definition merged_results (w : World) (query : string)
    (req_court : option string) (queryAnalysis : QueryAnalysis)
  : list SearchResult :=
  let mainResults := semanticSearch w query req_court 0.40%Q in
  let allResults :=
    map (set_matchedQueries (Some ["main"])) mainResults in
  let allResults :=
    foldl (subquery_step w req_court) allResults
          (iterated (subQueries queryAnalysis)) in
  keyword_stage w req_court (keywords queryAnalysis) allResults.

(** [r.matchedQueries?.length || 1] *)
Definition match_count (r : SearchResult) : nat :=
  match matchedQueries r with
  | Some l => if (length l =? 0)%nat then 1%nat else length l
  | None => 1%nat
  end.

(** STEP 4, the [map]: score boost for matching several queries. *)
Definition boost_result (r : SearchResult) : SearchResult :=
  set_similarity
    (similarity r * (1 + inject_Z (Z.of_nat (match_count r)) * 0.05))%Q r.

Definition maxPerCase : nat := 3.

(** The [for] loop of [diversifyResults], from the state it is in
    ([seenCases], [diversified]) over what is left of [results]. *)
Fixpoint diversify_loop (maxResults : nat) (seenCases : gmap Z nat)
    (diversified : list SearchResult) (results : list SearchResult)
  : list SearchResult :=
  match results with
  | [] => diversified
  | result :: rest =>
      let caseCount := default 0%nat (seenCases !! case_id (row result)) in
      let '(diversified', seenCases') :=
        if (caseCount <? maxPerCase)%nat
        then ((diversified ++ [result])%list,
              <[case_id (row result) := (caseCount + 1)%nat]> seenCases)
        else (diversified, seenCases) in
      if (maxResults <=? length diversified')%nat then diversified'
      else diversify_loop maxResults seenCases' diversified' rest
  end.

Definition diversifyResults (results : list SearchResult) (maxResults : nat)
  : list SearchResult :=
  diversify_loop maxResults ∅ [] results.

(** [allResults] after STEP 4's boost and sort. *)
Definition ranked_results (w : World) (query : string)
    (req_court : option string) (queryAnalysis : QueryAnalysis)
  : list SearchResult :=
  sort by_similarity_desc
    (map boost_result (merged_results w query req_court queryAnalysis)).

Definition final_results (w : World) (query : string)
    (req_court : option string) (queryAnalysis : QueryAnalysis)
  : list SearchResult :=
  diversifyResults (ranked_results w query req_court queryAnalysis) 10.

(** The prompt is built inside the [try]: when joining the legal concepts
    throws, no call is made and the last line is reached. *)
Definition generateLegalAnalysis (w : World) (query : string)
    (analysis : QueryAnalysis) (results : list SearchResult) : string :=
  match joined (legalConcepts analysis) with
  | Some concepts =>
      match legal_analysis_chat w query concepts (slice0 8 results) with
      | HttpOk content => or_string content "Analysis generation failed."
      | HttpError | Rejected =>
          "Unable to generate analysis. Please review the case excerpts directly."
      end
  | None =>
      "Unable to generate analysis. Please review the case excerpts directly."
  end.

(** The text of [generateNoResultsGuidance] for the legal concepts
    [concepts]. *)
Definition guidance_text (query : string) (concepts : list string) : string :=
  join newline
    ["## No Directly Relevant Cases Found";
     EmptyString;
     "Your query: " ++ quote ++ query ++ quote;
     EmptyString;
     "### Suggestions:";
     "1. **Try broader terms**: Instead of specific fact patterns, search for legal concepts like:";
     "   - " ++ quote ++ "liability defense" ++ quote;
     "   - " ++ quote ++ "personal injury damages" ++ quote;
     "   - " ++ quote ++ "contributory negligence" ++ quote;
     EmptyString;
     "2. **Break down your query**: ";
     "   - Search: " ++ quote ++ "defendant escapes liability" ++ quote;
     "   - Then: " ++ quote ++ "skull fracture personal injury" ++ quote;
     EmptyString;
     "3. **Check your terminology**: Hong Kong courts may use different terms:";
     "   - " ++ quote ++ "no liability" ++ quote ++ " → " ++ quote
       ++ "defense succeeded" ++ quote;
     "   - " ++ quote ++ "get out of" ++ quote ++ " → " ++ quote
       ++ "avoid liability" ++ quote ++ " or " ++ quote
       ++ "establish defense" ++ quote;
     EmptyString;
     (if (0 <? length concepts)%nat then
        newline ++ "4. **Related concepts detected**: "
        ++ join ", " concepts ++ newline
        ++ "   Try searching these terms individually."
      else EmptyString);
     EmptyString;
     "### Database Coverage";
     "The current database contains cases from HKCA and HKCFI. If you need cases from specific courts or time periods, please let us know."].

(** [None] when joining the legal concepts throws: nothing catches it
    here. *)
Definition generateNoResultsGuidance (query : string)
    (analysis : QueryAnalysis) : option string :=
  guidance_text query <$> joined (legalConcepts analysis).

(** The answer of the [catch] of [POST]. *)
Definition failed : Response :=
  mkResponse 500 (ErrorBody "Search failed. Please try again.").

(** [POST] on a body that is a JSON value other than [null].  Two places
    can throw into the [catch]: the loop over the sub-queries, when what
    the analysis holds there is not iterable, and the guidance text. *)
Definition POST (w : World) (query : option string)
    (req_court : option string) : Response :=
  match query with
  | None => mkResponse 400 (ErrorBody "Query is required")
  | Some q =>
      if bool_decide (q = EmptyString) then
        mkResponse 400 (ErrorBody "Query is required")
      else
        let queryAnalysis := analyzeQuery w q in
        match iterate (subQueries queryAnalysis) with
        | None => failed
        | Some _ =>
            let finalResults := final_results w q req_court queryAnalysis in
            if (0 <? length finalResults)%nat then
              mkResponse 200
                (SearchBody q (Some queryAnalysis) finalResults
                   (Some (generateLegalAnalysis w q queryAnalysis
                            finalResults)))
            else
              match generateNoResultsGuidance q queryAnalysis with
              | Some guidance =>
                  mkResponse 200
                    (SearchBody q (Some queryAnalysis) finalResults
                       (Some guidance))
              | None => failed
              end
        end
  end.

End MultiQuery.

(* ===================================================================== *)
(** ** The first route: one embedding, one vector search *)
(* ===================================================================== *)

Module Basic.
Import JsString JsArray.

(** [query.split(' ')[0]] *)
Definition first_word (query : string) : string :=
  default EmptyString (head (split_space query)).

(** The fallback taken when the embedding call answers with a non-ok
    status.  Its answer is not checked: on a non-ok answer the body is no
    array and [results.map] throws, which the [catch] of [POST] turns into
    the 500 answer. *)
Definition keywordSearch (w : World) (query : string) : Response :=
  match case_chunks w (first_word query) 5 with
  | HttpOk results =>
      mkResponse 200
        (SearchBody query None (map (fun c => of_chunk c 0.5%Q None) results)
                    None)
  | HttpError | Rejected => mkResponse 500 (ErrorBody "Internal server error")
  end.

(** [null] when the call fails or the content is empty. *)
Definition generateAIAnswer (w : World) (query : string)
    (results : list SearchResult) : option string :=
  match analysis_chat w query (slice0 5 results) with
  | HttpOk (Some content) =>
      if bool_decide (content = EmptyString) then None else Some content
  | HttpOk None | HttpError | Rejected => None
  end.

Definition POST (w : World) (query : option string) : Response :=
  match query with
  | None => mkResponse 400 (ErrorBody "Query is required")
  | Some q =>
      if bool_decide (q = EmptyString) then
        mkResponse 400 (ErrorBody "Query is required")
      else
        match iflow_embedding w q with
        | Rejected => mkResponse 500 (ErrorBody "Internal server error")
        | HttpError => keywordSearch w q
        | HttpOk false =>
            (* [embeddingData.data[0].embedding] throws *)
            mkResponse 500 (ErrorBody "Internal server error")
        | HttpOk true =>
            match match_legal_chunks w q 0.4%Q 8 with
            | Rejected => mkResponse 500 (ErrorBody "Internal server error")
            | HttpError => mkResponse 500 (ErrorBody "Search failed")
            | HttpOk results =>
                let aiAnswer :=
                  if (0 <? length results)%nat
                  then generateAIAnswer w q results
                  else None in
                mkResponse 200 (SearchBody q None results aiAnswer)
            end
        end
  end.

End Basic.

(* ===================================================================== *)
(** ** Notions of the specification *)
(* ===================================================================== *)

Module Spec.

(** How many of [emitted] belong to case [cid]. *)
Definition emitted_of (cid : Z) (emitted : list SearchResult) : nat :=
  length (filter (fun r => case_id (row r) = cid) emitted).

(** "Walk the sorted list, emit a candidate only if fewer than [m]
    candidates sharing its parent document have already been emitted":
    what is emitted from [l] once [emitted] has been. *)
Fixpoint capped_walk (m : nat) (emitted l : list SearchResult)
  : list SearchResult :=
  match l with
  | [] => []
  | r :: l' =>
      if (emitted_of (case_id (row r)) emitted <? m)%nat
      then r :: capped_walk m (emitted ++ [r]) l'
      else capped_walk m emitted l'
  end.

(** "All query words > 4 chars minus stopwords (cap 5)", the stop-words
    being those the other routes remove. *)
Definition fallback_keywords (query : string) : list string :=
  take 5
    (filter (fun w => JsString.mem w KeywordBoost.stopwords = false)
       (filter (fun w => 4 < String.length w)
          (JsString.split_ws (JsString.toLowerCase query)))).

(** Every character of [run] is a digit, a comma or white space. *)
Fixpoint all_in_class (run : string) : bool :=
  match run with
  | EmptyString => true
  | String c run' => Rerank.in_class c && all_in_class run'
  end.

(** [s] starts with a digit, a comma or white space. *)
Definition starts_in_class (s : string) : bool :=
  match s with
  | String c _ => Rerank.in_class c
  | EmptyString => false
  end.

(** The content holds a bracketed array of numbers as the expression
    [/\[[\d,\s]+\]/] understands it: an opening bracket, one or more
    digits, commas and white space, a closing bracket. *)
Definition has_bracketed_array (content : string) : Prop :=
  exists pre run post,
    run <> EmptyString /\ all_in_class run = true
    /\ content = pre ++ "[" ++ run ++ "]" ++ post.

(** Number of space characters of a string. *)
Fixpoint count_spaces (s : string) : nat :=
  match s with
  | EmptyString => 0
  | String c s' =>
      if (JsString.code c =? 32)%nat then S (count_spaces s')
      else count_spaces s'
  end.

(** A retrieval call that fails or yields no row. *)
Definition no_rows {A} (reply : Reply (list A)) : Prop :=
  reply = Rejected \/ reply = HttpError \/ reply = HttpOk [].

(** The embedding of [text] cannot be had. *)
Definition embedding_down (w : World) (text : string) : Prop :=
  hf_embedding w text = Rejected \/ hf_embedding w text = HttpError.

(** Every retrieval signal fails or yields zero candidates: for each text,
    the embedding fails or the vector stores give nothing for it, and the
    text searches give nothing. *)
Definition signals_silent (w : World) : Prop :=
  (forall text,
      embedding_down w text
      \/ ((forall threshold count,
              no_rows (match_legal_chunks w text threshold count))
          /\ (forall filter_court, no_rows (qdrant_query w text filter_court))))
  /\ (forall keyword limit, no_rows (case_chunks w keyword limit))
  /\ (forall kws filter_court, no_rows (case_chunks_any w kws filter_court)).

(** The call throws or answers with a non-ok status. *)
Definition fails {A} (reply : Reply A) : Prop :=
  reply = Rejected \/ reply = HttpError.

(** Every retrieval signal of a request to the keyword-boost route fails
    or yields no candidate: the semantic search pushes nothing, and each
    text search that is made fails or answers without a row. *)
Definition keyword_boost_silent (w : World) (query : string) : Prop :=
  KeywordBoost.semantic_results w query = []
  /\ Forall (fun kw => no_rows (case_chunks w kw 10))
       (JsArray.slice0 5 (KeywordBoost.extract_keywords query)).

(** The same for a request to the AI-rerank route. *)
Definition rerank_silent (w : World) (query : string)
    (req_court : option string) : Prop :=
  Rerank.semantic_results w query req_court = []
  /\ Forall (fun kw => no_rows (case_chunks w kw 8))
       (JsArray.slice0 4 (Rerank.extract_keywords query)).

(** The same for a request to the multi-query route, whose analysis is
    [analysis]: the searches for the query and for each sub-query return
    nothing, and so does the keyword search. *)
Definition multi_query_silent (w : World) (query : string)
    (req_court : option string) (analysis : QueryAnalysis) : Prop :=
  MultiQuery.semanticSearch w query req_court 0.40%Q = []
  /\ Forall (fun sub => MultiQuery.semanticSearch w sub req_court 0.45%Q = [])
       (MultiQuery.iterated (subQueries analysis))
  /\ MultiQuery.keywordSearch w (keywords analysis) req_court = [].

(** The map of the loop holds, for every case, how many of its results
    have been emitted. *)
Definition counts_of (seenCases : gmap Z nat) (emitted : list SearchResult)
  : Prop :=
  forall cid, default 0%nat (seenCases !! cid) = emitted_of cid emitted.

End Spec.

(* ===================================================================== *)
(** ** Invariants of the merge loops *)
(* ===================================================================== *)

(** An entry of the multi-query merge either carries the one label it was
    pushed with, or it has been reinforced: it counts at least two matched
    queries and its score has gone through [Math.min(1, ...)]. *)
Definition single_or_capped (r : SearchResult) : Prop :=
  (exists label, matchedQueries r = Some [label])
  \/ ((2 <= MultiQuery.match_count r)%nat /\ (similarity r <= 1)%Q).

(** The common shape of the merge loops of the routes: the entry of
    [allResults] that [find] returns for the id of the row [x] is replaced
    by its [update]; when there is none, the entry made of [x] is
    pushed. *)
Section MergeWith.
Context {A : Type}.
Variable key : A -> Z.
Variable make : A -> SearchResult.
Variable update : SearchResult -> SearchResult.

Definition merge_with (allResults : list SearchResult) (x : A)
  : list SearchResult :=
  match JsArray.find_index (fun r => (rid r =? key x)%Z) allResults with
  | Some (i, existing) => <[i := update existing]> allResults
  | None => allResults ++ [make x]
  end.

(** How many times the id [z] arrives. *)
Definition arrivals (z : Z) (ids : list Z) : nat :=
  length (filter (fun y => y = z) ids).

(** The entries pushed while the rows [xs] are merged into a list of the
    ids [seen]: one for the first row of each id that is new, updated once
    for each further row of that id. *)
Fixpoint new_entries (seen : list Z) (xs : list A) : list SearchResult :=
  match xs with
  | [] => []
  | x :: xs' =>
      if decide (key x ∈ seen) then new_entries seen xs'
      else Nat.iter (arrivals (key x) (map key xs')) update (make x)
           :: new_entries (seen ++ [key x]) xs'
  end.
End MergeWith.

(** The ids of [ids] that are not in [seen], each once, in the order they
    arrive. *)
Fixpoint new_ids (seen ids : list Z) : list Z :=
  match ids with
  | [] => []
  | z :: ids' =>
      if decide (z ∈ seen) then new_ids seen ids'
      else z :: new_ids (seen ++ [z]) ids'
  end.

(** How many times the entry [existing], at place [i] of [allResults], is
    found again while rows of the ids [ids] are merged: [find] returns the
    first entry of an id, never a later one. *)
Definition found_again (allResults : list SearchResult) (i : nat)
    (existing : SearchResult) (ids : list Z) : nat :=
  if decide (rid existing ∈ map rid (take i allResults)) then 0%nat
  else arrivals (rid existing) ids.

(** The rows the text searches for the keywords [kws] answer with, in the
    order the loop over the keywords meets them. *)
Definition found_rows (w : World) (limit : nat) (kws : list string)
  : list Chunk :=
  flat_map (fun kw => rows_of (case_chunks w kw limit)) kws.

(* ===================================================================== *)
(** ** Sample rows and worlds *)
(* ===================================================================== *)

Module Examples.

Definition chunk (i cid : Z) (text : string) : Chunk :=
  mkChunk i cid EmptyString EmptyString EmptyString EmptyString (Some text)
          EmptyString EmptyString.

Definition hit (i cid : Z) (text : string) (s : Q) : SearchResult :=
  of_chunk (chunk i cid text) s None.

(** Every call throws. *)
Definition silent : World :=
  mkWorld (fun _ => Rejected) (fun _ => Rejected) (fun _ _ _ => Rejected)
          (fun _ _ => Rejected) (fun _ _ => Rejected) (fun _ _ => Rejected)
          (fun _ => Rejected) (fun _ _ => Rejected) (fun _ _ => Rejected)
          (fun _ _ _ => Rejected).

(** The embedding services answer, the vector store answers every search
    with [rows]; every other call throws. *)
Definition vector_only (rows : list SearchResult) : World :=
  mkWorld (fun _ => HttpOk (FlatArray 384)) (fun _ => HttpOk true)
          (fun _ _ _ => HttpOk rows)
          (fun _ _ => Rejected) (fun _ _ => Rejected) (fun _ _ => Rejected)
          (fun _ => Rejected) (fun _ _ => Rejected) (fun _ _ => Rejected)
          (fun _ _ _ => Rejected).

(** The embedding services answer, the vector store answers with a non-ok
    status; every other call throws. *)
Definition vector_down : World :=
  mkWorld (fun _ => HttpOk (FlatArray 384)) (fun _ => HttpOk true)
          (fun _ _ _ => HttpError)
          (fun _ _ => Rejected) (fun _ _ => Rejected) (fun _ _ => Rejected)
          (fun _ => Rejected) (fun _ _ => Rejected) (fun _ _ => Rejected)
          (fun _ _ _ => Rejected).

(** The scoring model answers [content]; every other call throws. *)
Definition scorer_says (content : string) : World :=
  mkWorld (fun _ => Rejected) (fun _ => Rejected) (fun _ _ _ => Rejected)
          (fun _ _ => Rejected) (fun _ _ => Rejected) (fun _ _ => Rejected)
          (fun _ => Rejected) (fun _ _ => HttpOk (Some content))
          (fun _ _ => Rejected) (fun _ _ _ => Rejected).

(** The analysis model answers with an object that holds a string where
    the legal concepts are expected; every other call throws. *)
Definition loose_analysis : World :=
  mkWorld (fun _ => Rejected) (fun _ => Rejected) (fun _ _ _ => Rejected)
          (fun _ _ => Rejected) (fun _ _ => Rejected) (fun _ _ => Rejected)
          (fun _ =>
             HttpOk (Parsed (mkParsed None None (Some (Text "negligence"))
                               None)))
          (fun _ _ => Rejected) (fun _ _ => Rejected)
          (fun _ _ _ => Rejected).

(** One row of score 0.9 for every vector search. *)
Definition one_hit : World := vector_only [hit 1 7 "a" 0.9%Q].

(** The vector store answers every search with the same row twice. *)
Definition twice : World :=
  vector_only [hit 1 7 "a" 0.5%Q; hit 1 7 "a" 0.5%Q].


(** Two results, of scores 0.5 and 0.8. *)
Definition two_results : list SearchResult :=
  [hit 1 7 "a" 0.5; hit 2 8 "b" 0.8]%Q.

(** Five results of two cases. *)
Definition five_results : list SearchResult :=
  [hit 1 7 "a" 0.9; hit 2 7 "b" 0.8; hit 3 7 "c" 0.7; hit 4 7 "d" 0.6;
   hit 5 8 "e" 0.5]%Q.

End Examples.

(* ===================================================================== *)
(** ** Descending orders *)
(* ===================================================================== *)

(** The comparator [(a, b) => key(b) - key(a)]. *)
Definition desc_by {A} (key : A -> Q) (a b : A) : Q := (key b - key a)%Q.

(** [l] is in descending order of [key]. *)
Definition sorted_desc {A} (key : A -> Q) (l : list A) : Prop :=
  StronglySorted (fun a b => (key b <= key a)%Q) l.

(* ===================================================================== *)
(** ** Characters of a string, numerals *)
(* ===================================================================== *)

Module Chars.
Import JsString.

(** Every character of [s] satisfies [p]. *)
Fixpoint all_chars (p : ascii -> bool) (s : string) : bool :=
  match s with
  | EmptyString => true
  | String c s' => p c && all_chars p s'
  end.

Definition is_upper (c : ascii) : bool :=
  (65 <=? code c)%nat && (code c <=? 90)%nat.

Definition not_space (c : ascii) : bool := negb (is_space c).
Definition not_upper (c : ascii) : bool := negb (is_upper c).
Definition not_open_bracket (c : ascii) : bool := negb (code c =? 91)%nat.
Definition not_blank (c : ascii) : bool := negb (code c =? 32)%nat.

(** The character of a decimal digit. *)
Definition digit_char (d : nat) : ascii := ascii_of_nat (48 + d).

(** A numeral, as the list of its decimal digits, most significant
    first. *)
Definition numeral : Type := list nat.

Fixpoint render (ds : numeral) : string :=
  match ds with
  | [] => EmptyString
  | d :: ds' => String (digit_char d) (render ds')
  end.

(** The number a numeral denotes, read from the value [v] of the digits
    before it. *)
Definition value_from (v : N) (ds : numeral) : N :=
  foldl (fun acc d => (10 * acc + N.of_nat d)%N) v ds.

Definition value (ds : numeral) : N := value_from 0 ds.

Definition digits (ds : numeral) : Prop :=
  ds <> [] /\ Forall (fun d => (d < 10)%nat) ds.

(** A numeral as JSON writes an integer: digits, and no leading zero
    unless it is the numeral 0. *)
Definition canonical (ds : numeral) : Prop :=
  digits ds /\ (head ds = Some 0%nat -> ds = [0%nat]).

End Chars.

(* ===================================================================== *)
(** ** [parseInt] *)
(* ===================================================================== *)

Module JsNumber.
Import JsString.

(** The value of [c] as a digit in base [radix], if it is one. *)
Definition digit_in (radix : N) (c : ascii) : option N :=
  let n := code c in
  let v :=
    if (48 <=? n)%nat && (n <=? 57)%nat then Some (N.of_nat (n - 48))
    else if (97 <=? n)%nat && (n <=? 122)%nat then Some (N.of_nat (n - 87))
    else if (65 <=? n)%nat && (n <=? 90)%nat then Some (N.of_nat (n - 55))
    else None in
  match v with
  | Some d => if (d <? radix)%N then Some d else None
  | None => None
  end.

(** The value of the longest prefix of [s] made of digits of the base,
    from the value [acc] of the digits read and whether one was read. *)
Fixpoint read_digits (radix : N) (acc : option N) (s : string) : option N :=
  match s with
  | EmptyString => acc
  | String c s' =>
      match digit_in radix c with
      | Some d => read_digits radix (Some (radix * default 0%N acc + d)%N) s'
      | None => acc
      end
  end.

Fixpoint skip_spaces (s : string) : string :=
  match s with
  | String c s' => if is_space c then skip_spaces s' else s
  | EmptyString => EmptyString
  end.

(** A leading [0x] or [0X] selects base 16 and is removed. *)
Definition strip_prefix (s : string) : N * string :=
  match s with
  | String z (String x s') =>
      if (code z =? 48)%nat && ((code x =? 120)%nat || (code x =? 88)%nat)
      then (16%N, s') else (10%N, s)
  | _ => (10%N, s)
  end.

(** [parseInt(s)]: white space is skipped, a sign is read, then the digits
    of the base; [None] is [NaN]. *)
Definition parseInt (s : string) : option Z :=
  let s := skip_spaces s in
  let '(negative, s) :=
    match s with
    | String c s' =>
        if (code c =? 45)%nat then (true, s')
        else if (code c =? 43)%nat then (false, s')
        else (false, s)
    | EmptyString => (false, s)
    end in
  let '(radix, s) := strip_prefix s in
  match read_digits radix None s with
  | Some n => Some (if negative then (- Z.of_N n)%Z else Z.of_N n)
  | None => None
  end.

End JsNumber.

(* ===================================================================== *)
(** ** The stores of the other routes *)
(* ===================================================================== *)

(** A row of [case_chunks] with its position in the case. *)
Record IndexedChunk := mkIndexed {
  chunk_index : Z;
  chunk : Chunk
}.

(** A row of [rpc/get_chunk_stats] ([None]: field absent). *)
Record StatsRow := mkStats {
  total_chunks : option N;
  total_cases : option N;
  avg_chunks_per_case : option Q
}.

(** The calls of the search route with the court filter, of the case route
    and of the statistics route. *)
Record Catalogue := mkCatalogue {
  (* Supabase [rpc/match_legal_chunks] with threshold 0.35 and count 10, by
     the text embedded and the [filter_court] of the body *)
  match_legal_chunks_in : string -> option string -> Reply (list SearchResult);
  (* Supabase [case_chunks?case_id=eq.<id>&order=chunk_index.asc] *)
  chunks_of_case : string -> Reply (list IndexedChunk);
  (* Supabase [rpc/get_chunk_stats] *)
  chunk_stats : Reply (list StatsRow);
  (* Supabase [case_chunks?select=court&limit=10000]: the court of each
     row ([None]: null) *)
  court_column : Reply (list (option string))
}.

(* ===================================================================== *)
(** ** The search route with the keyword fallback *)
(* ===================================================================== *)

Module SearchRoute.
Import JsString JsArray.

(** [query.split(' ').filter(w => w.length > 3).slice(0, 3)] *)
Definition fallback_keywords (query : string) : list string :=
  slice0 3 (filter (fun x => 3 < String.length x) (split_space query)).

(** Step 1: the embedding can be sent to the vector store. *)
Definition embedded (w : World) (query : string) : bool :=
  match hf_embedding w query with
  | HttpOk e => KeywordBoost.usable_embedding e
  | HttpError | Rejected => false
  end.

Definition generateAIAnswer (w : World) (query : string)
    (results : list SearchResult) : option string :=
  match analysis_chat w query (slice0 6 results) with
  | HttpOk (Some content) =>
      if bool_decide (content = EmptyString) then None else Some content
  | HttpOk None | HttpError | Rejected => None
  end.

(** Step 3 and the answer. *)
Definition respond (w : World) (query : string)
    (results : list SearchResult) : Response :=
  let aiAnswer :=
    if (0 <? length results)%nat then generateAIAnswer w query results
    else None in
  mkResponse 200 (SearchBody query None results aiAnswer).

Definition failed : Response :=
  mkResponse 500 (ErrorBody "Search failed. Please try again.").

(** Step 2b: the keyword search, made when [results] is empty. *)
Definition keyword_fallback (w : World) (query : string)
    (req_court : option string) : Response :=
  let keywords := fallback_keywords query in
  if (0 <? length keywords)%nat then
    match case_chunks_any w keywords (MultiQuery.court_filter req_court) with
    | Rejected => failed
    | HttpError => respond w query []
    | HttpOk fallbackResults =>
        respond w query
          (map (fun c => of_chunk c 0.5%Q None) fallbackResults)
    end
  else respond w query [].

Definition after_search (w : World) (query : string)
    (req_court : option string) (results : list SearchResult) : Response :=
  if (length results =? 0)%nat then keyword_fallback w query req_court
  else respond w query results.

Definition POST (w : World) (cat : Catalogue) (query : option string)
    (req_court : option string) : Response :=
  match query with
  | None => mkResponse 400 (ErrorBody "Query is required")
  | Some q =>
      if bool_decide (q = EmptyString) then
        mkResponse 400 (ErrorBody "Query is required")
      else if embedded w q then
        match match_legal_chunks_in cat q
                (MultiQuery.court_filter req_court) with
        | Rejected => failed
        | HttpError => after_search w q req_court []
        | HttpOk results => after_search w q req_court results
        end
      else after_search w q req_court []
  end.

End SearchRoute.

(* ===================================================================== *)
(** ** The case route *)
(* ===================================================================== *)

Module CaseRoute.
Import JsString JsArray.

(** An element of [chunks] in the answer. *)
Record Passage := mkPassage {
  index : Z;
  text : option string;
  section : string
}.

Inductive CaseBody : Type :=
| CaseError (error : string)
| CaseFound (caseId : option Z) (caseName neutralCitation : string)
            (caseCourt decisionDate hkliiId : string) (totalChunks : nat)
            (chunks : list Passage).

Record CaseResponse := mkCaseResponse {
  case_status : nat;
  case_body : CaseBody
}.

Definition passage_of (c : IndexedChunk) : Passage :=
  mkPassage (chunk_index c) (chunk_text (chunk c)) (section_type (chunk c)).

(** [GET]: [id_param] is [searchParams.get('id')], [None] when the
    parameter is absent. *)
Definition GET (cat : Catalogue) (id_param : option string) : CaseResponse :=
  match id_param with
  | None => mkCaseResponse 400 (CaseError "Case ID required")
  | Some caseId =>
      if bool_decide (caseId = EmptyString) then
        mkCaseResponse 400 (CaseError "Case ID required")
      else
        match chunks_of_case cat caseId with
        | Rejected | HttpError =>
            mkCaseResponse 500 (CaseError "Failed to fetch case")
        | HttpOk [] => mkCaseResponse 404 (CaseError "Case not found")
        | HttpOk ((metadata :: _) as chunks) =>
            mkCaseResponse 200
              (CaseFound (JsNumber.parseInt caseId)
                 (case_name (chunk metadata))
                 (neutral_citation (chunk metadata))
                 (court (chunk metadata))
                 (decision_date (chunk metadata))
                 (hklii_id (chunk metadata))
                 (length chunks)
                 (map passage_of chunks))
        end
  end.

End CaseRoute.

(* ===================================================================== *)
(** ** The statistics route *)
(* ===================================================================== *)

Module StatsRoute.
Import JsString JsArray.

(** The value of a property of [courtDistribution]: a count, or the text
    that [+ 1] makes of a value that is no number. *)
Inductive Tally : Type :=
| Count (n : nat)
| NotANumber.

(** The properties every object inherits: reading one of them from the
    empty [courtDistribution] gives a function, not [undefined]. *)
Definition inherited : list string :=
  ["constructor"; "hasOwnProperty"; "isPrototypeOf"; "propertyIsEnumerable";
   "toLocaleString"; "toString"; "valueOf"; "__defineGetter__";
   "__defineSetter__"; "__lookupGetter__"; "__lookupSetter__"].

(** [c.court || 'unknown'] *)
Definition court_key (c : option string) : string :=
  match c with
  | Some s => if bool_decide (s = EmptyString) then "unknown" else s
  | None => "unknown"
  end.

(** One call of the [forEach]:
    [courtDistribution[court] = (courtDistribution[court] || 0) + 1].
    Writing [__proto__] leaves the object as it is. *)
Definition count_court (courtDistribution : gmap string Tally)
    (c : option string) : gmap string Tally :=
  let key := court_key c in
  if bool_decide (key = "__proto__") then courtDistribution
  else
    match courtDistribution !! key with
    | Some (Count n) =>
        if (n =? 0)%nat then <[key := Count 1]> courtDistribution
        else <[key := Count (n + 1)]> courtDistribution
    | Some NotANumber => <[key := NotANumber]> courtDistribution
    | None =>
        if mem key inherited then <[key := NotANumber]> courtDistribution
        else <[key := Count 1]> courtDistribution
    end.

Definition distribution (courts : list (option string)) : gmap string Tally :=
  foldl count_court ∅ courts.

Inductive StatsBody : Type :=
| StatsError (error : string)
| StatsFound (totalChunks totalCases : N) (avgChunksPerCase : Q)
             (courtDistribution : gmap string Tally).

Record StatsResponse := mkStatsResponse {
  stats_status : nat;
  stats_body : StatsBody
}.

(** [GET] ([lastUpdated], the time of the answer, left out). *)
Definition GET (cat : Catalogue) : StatsResponse :=
  match chunk_stats cat with
  | Rejected | HttpError =>
      mkStatsResponse 500 (StatsError "Failed to fetch stats")
  | HttpOk stats =>
      match court_column cat with
      | Rejected => mkStatsResponse 500 (StatsError "Failed to fetch stats")
      | reply =>
          let courtDistribution :=
            match reply with
            | HttpOk courts => distribution courts
            | _ => ∅
            end in
          let first := head stats in
          mkStatsResponse 200
            (StatsFound
               (default 0%N (first ≫= total_chunks))
               (default 0%N (first ≫= total_cases))
               (default 0%Q (first ≫= avg_chunks_per_case))
               courtDistribution)
      end
  end.

End StatsRoute.

(* ===================================================================== *)
(** ** The search history of the page *)
(* ===================================================================== *)

Module History.
Import JsArray.

Record SearchHistoryItem := mkItem {
  item_query : string;
  timestamp : nat;          (* the [new Date()] of the save *)
  resultCount : nat
}.

(** [saveToHistory]: the state [searchHistory] after the save. *)
Definition saveToHistory (searchHistory : list SearchHistoryItem)
    (item : SearchHistoryItem) : list SearchHistoryItem :=
  item :: slice0 9 searchHistory.

End History.

(* ===================================================================== *)
(** ** Sample stores and histories *)
(* ===================================================================== *)

Module Samples.

(** A case of two rows; the vector store with the court filter gives no
    row; five rows of three courts, two of them without a court. *)
Definition catalogue : Catalogue :=
  mkCatalogue
    (fun _ _ => HttpOk [])
    (fun _ =>
       HttpOk [mkIndexed 0 (Examples.chunk 1 42 "first");
               mkIndexed 1 (Examples.chunk 2 42 "second")])
    (HttpOk [mkStats (Some 2%N) (Some 1%N) (Some 2%Q)])
    (HttpOk [Some "hkcfi"; Some "hkca"; None; Some "hkcfi";
             Some EmptyString]).

Definition courts : list (option string) :=
  [Some "hkcfi"; Some "hkca"; None; Some "hkcfi"; Some EmptyString].

(** Twelve searches, numbered in the order they were made. *)
Definition searches : list History.SearchHistoryItem :=
  map (fun n => History.mkItem "duty of care" n 3) (seq 1 12).

End Samples.

(* ===================================================================== *)
(** ** Facts on sorting *)
(* ===================================================================== *)

Local Open Scope list_scope.

Section SortFacts.
Context {A : Type}.
Variable key : A -> Q.

Lemma insert_sorted_perm (x : A) (l : list A) :
  JsArray.insert_sorted (desc_by key) x l ≡ₚ x :: l.
Proof.
  induction l as [|y l IH]; simpl; [done|].
  destruct (Qle_bool _ _); [done|].
  rewrite IH. apply Permutation_swap.
Qed.

Lemma sort_perm (l : list A) : JsArray.sort (desc_by key) l ≡ₚ l.
Proof.
  induction l as [|x l IH]; simpl; [done|].
  by rewrite insert_sorted_perm, IH.
Qed.

Lemma insert_sorted_desc (x : A) (l : list A) :
  sorted_desc key l ->
  sorted_desc key (JsArray.insert_sorted (desc_by key) x l).
Proof.
  unfold sorted_desc.
  induction l as [|y l IH]; intros Hs; simpl.
  - repeat constructor.
  - inversion Hs as [|? ? Hl Hy]; subst.
    destruct (Qle_bool (desc_by key x y) 0) eqn:E.
    + apply Qle_bool_iff in E. unfold desc_by in E.
      constructor; [done|]. constructor; [lra|].
      eapply Forall_impl; [exact Hy|]. simpl. intros z Hz. lra.
    + assert (key x <= key y)%Q as Hxy.
      { destruct (Qlt_le_dec (key y) (key x)) as [Hlt|Hle]; [|done].
        exfalso. assert (Qle_bool (desc_by key x y) 0 = true) as E'.
        { apply Qle_bool_iff. unfold desc_by. lra. }
        congruence. }
      constructor; [by apply IH|].
      rewrite insert_sorted_perm. by constructor.
Qed.

Lemma sort_sorted_desc (l : list A) :
  sorted_desc key (JsArray.sort (desc_by key) l).
Proof.
  induction l as [|x l IH]; simpl; [constructor|].
  by apply insert_sorted_desc.
Qed.

Lemma sort_length (l : list A) :
  length (JsArray.sort (desc_by key) l) = length l.
Proof. apply Permutation_length, sort_perm. Qed.

Lemma elem_of_sort (x : A) (l : list A) :
  x ∈ JsArray.sort (desc_by key) l <-> x ∈ l.
Proof. by rewrite sort_perm. Qed.

End SortFacts.

(* ===================================================================== *)
(** ** Diversification *)
(* ===================================================================== *)

Section Diversify.
Import MultiQuery Spec.

Lemma emitted_of_snoc cid emitted r :
  emitted_of cid (emitted ++ [r]) =
  (emitted_of cid emitted
   + (if decide (case_id (row r) = cid) then 1 else 0))%nat.
Proof.
  unfold emitted_of. rewrite filter_app, length_app, filter_cons.
  by case_decide.
Qed.

Lemma counts_of_empty : counts_of ∅ [].
Proof. intros cid. by rewrite lookup_empty. Qed.

Lemma counts_of_emit seenCases emitted r :
  counts_of seenCases emitted ->
  counts_of
    (<[case_id (row r) :=
         (default 0%nat (seenCases !! case_id (row r)) + 1)%nat]> seenCases)
    (emitted ++ [r]).
Proof.
  intros H cid. rewrite emitted_of_snoc. case_decide as E.
  - subst cid. rewrite lookup_insert_eq. simpl. by rewrite H.
  - rewrite lookup_insert_ne by done. rewrite H. lia.
Qed.

(** The loop, from a state that counts what it has emitted and is below
    the bound, emits what the walk of the specification emits, up to the
    bound. *)
Lemma diversify_loop_walk maxResults seenCases emitted rest :
  counts_of seenCases emitted ->
  (length emitted < maxResults)%nat ->
  diversify_loop maxResults seenCases emitted rest =
  emitted ++
    take (maxResults - length emitted) (capped_walk maxPerCase emitted rest).
Proof.
  revert seenCases emitted.
  induction rest as [|r rest IH]; intros seenCases emitted Hc Hlt; simpl.
  - by rewrite take_nil, app_nil_r.
  - rewrite (Hc (case_id (row r))).
    destruct (emitted_of (case_id (row r)) emitted <? maxPerCase)%nat eqn:E.
    + destruct (maxResults <=? length (emitted ++ [r]))%nat eqn:F.
      * apply Nat.leb_le in F. rewrite length_app in F. simpl in F.
        replace (maxResults - length emitted)%nat with 1%nat by lia.
        simpl. by rewrite take_0.
      * apply Nat.leb_gt in F.
        rewrite IH; [|by rewrite <- (Hc (case_id (row r)));
                        apply counts_of_emit|done].
        rewrite length_app in *. simpl in *.
        replace (maxResults - length emitted)%nat
          with (S (maxResults - (length emitted + 1)))%nat by lia.
        simpl. by rewrite <- app_assoc.
    + destruct (maxResults <=? length emitted)%nat eqn:F.
      * apply Nat.leb_le in F. lia.
      * by apply IH.
Qed.

Lemma capped_walk_sublist m emitted l :
  capped_walk m emitted l `sublist_of` l.
Proof.
  revert emitted. induction l as [|r l IH]; intros emitted; simpl; [done|].
  destruct (_ <? _)%nat; [by apply sublist_skip | by apply sublist_cons].
Qed.

(** No case goes over the cap, counting what was emitted before. *)
Lemma capped_walk_cap m emitted l cid :
  (emitted_of cid emitted <= m)%nat ->
  (emitted_of cid (emitted ++ capped_walk m emitted l) <= m)%nat.
Proof.
  revert emitted. induction l as [|r l IH]; intros emitted Hle; simpl.
  - by rewrite app_nil_r.
  - destruct (emitted_of (case_id (row r)) emitted <? m)%nat eqn:E.
    + apply Nat.ltb_lt in E.
      replace (emitted ++ r :: capped_walk m (emitted ++ [r]) l)
        with ((emitted ++ [r]) ++ capped_walk m (emitted ++ [r]) l)
        by (by rewrite <- app_assoc).
      apply IH. rewrite emitted_of_snoc. case_decide; [subst; lia | lia].
    + by apply IH.
Qed.

Lemma emitted_of_sublist cid (l1 l2 : list SearchResult) :
  l1 `sublist_of` l2 -> (emitted_of cid l1 <= emitted_of cid l2)%nat.
Proof.
  unfold emitted_of. induction 1 as [|x l1 l2 _ IH|x l1 l2 _ IH]; [done| |].
  - rewrite !filter_cons. case_decide; simpl; lia.
  - rewrite filter_cons. case_decide; simpl; lia.
Qed.

Lemma sorted_desc_sublist {A} (key : A -> Q) (l1 l2 : list A) :
  l1 `sublist_of` l2 -> sorted_desc key l2 -> sorted_desc key l1.
Proof.
  unfold sorted_desc. induction 1 as [|x l1 l2 Hsub IH|x l1 l2 _ IH];
    intros Hs; [done| |].
  - inversion Hs as [|? ? Hl Hx]; subst. constructor; [by apply IH|].
    apply Forall_forall. intros y Hy.
    eapply Forall_forall in Hx; [exact Hx|]. by eapply elem_of_sublist.
  - inversion Hs; subst. by apply IH.
Qed.

(** With a bound of at least one, [diversifyResults] emits what the walk
    of the specification emits, cut at the bound. *)
Lemma diversifyResults_walk results maxResults :
  (0 < maxResults)%nat ->
  diversifyResults results maxResults
  = take maxResults (capped_walk maxPerCase [] results).
Proof.
  intros Hpos. unfold diversifyResults.
  rewrite diversify_loop_walk; [|apply counts_of_empty|simpl; lia].
  simpl. by rewrite Nat.sub_0_r.
Qed.

Lemma diversifyResults_sublist results maxResults :
  (0 < maxResults)%nat ->
  diversifyResults results maxResults `sublist_of` results.
Proof.
  intros Hpos. rewrite diversifyResults_walk by done.
  etrans; [apply sublist_take|apply capped_walk_sublist].
Qed.

(** The bound is tested after the push: with the bound 0, which the route
    never passes, the first candidate is emitted all the same. *)
Remark diversifyResults_zero_bound :
  map rid (diversifyResults Examples.five_results 0) = [1%Z].
Proof. reflexivity. Qed.

(** C2.  For every list of candidates and every result cap [maxResults] of
    at least one (the route passes 10), [diversifyResults] emits at most
    [maxPerCase] (= 3) results of any one case and at most [maxResults]
    results in all; what it emits is what the walk of the specification
    emits, cut after [maxResults] results: the candidates are taken in the
    order of the input, each one unless three of its case have been emitted
    already, until [maxResults] are emitted or the input is exhausted; an
    input sorted by descending similarity gives a sorted output. *)
Theorem diversifyResults_capped (results : list SearchResult)
    (maxResults : nat) :
  (0 < maxResults)%nat ->
  let emitted := diversifyResults results maxResults in
  (forall cid, (emitted_of cid emitted <= maxPerCase)%nat)
  /\ (length emitted <= maxResults)%nat
  /\ emitted = take maxResults (capped_walk maxPerCase [] results)
  /\ emitted `sublist_of` results
  /\ (sorted_desc similarity results -> sorted_desc similarity emitted).
Proof.
  intros Hpos emitted.
  pose proof (diversifyResults_walk results maxResults Hpos) as Heq.
  pose proof (diversifyResults_sublist results maxResults Hpos) as Hsub.
  fold emitted in Heq, Hsub.
  repeat split; [| |done|done|].
  - intros cid. rewrite Heq.
    etrans; [apply emitted_of_sublist, sublist_take|].
    apply (capped_walk_cap maxPerCase [] results cid).
    unfold emitted_of. simpl. lia.
  - rewrite Heq, length_take. lia.
  - intros Hs. by eapply sorted_desc_sublist.
Qed.

(** The theorem on five results of two cases and the cap of the route. *)
Lemma diversifyResults_capped_witness :
  (0 < 10)%nat
  /\ map rid (diversifyResults Examples.five_results 10) = [1; 2; 3; 5]%Z
  /\ (forall cid,
        (emitted_of cid (diversifyResults Examples.five_results 10)
         <= maxPerCase)%nat).
Proof.
  split; [lia|]. split; [reflexivity|].
  apply (diversifyResults_capped Examples.five_results 10). lia.
Defined.

End Diversify.

(* ===================================================================== *)
(** ** Deduplication by id *)
(* ===================================================================== *)

Section Dedup.

Lemma dedup_by_id_sublist seen l : dedup_by_id seen l `sublist_of` l.
Proof.
  revert seen. induction l as [|r l IH]; intros seen; simpl; [done|].
  case_decide; [by apply sublist_cons | by apply sublist_skip].
Qed.

Lemma dedup_by_id_fresh seen l r :
  r ∈ dedup_by_id seen l -> rid r ∉ seen.
Proof.
  revert seen. induction l as [|x l IH]; intros seen; simpl.
  - by intros ?%elem_of_nil.
  - case_decide as E; [by apply IH|].
    intros [->|Hin]%elem_of_cons; [done|].
    apply IH in Hin. set_solver.
Qed.

Lemma dedup_by_id_NoDup seen l : NoDup (map rid (dedup_by_id seen l)).
Proof.
  revert seen. induction l as [|x l IH]; intros seen; simpl.
  - constructor.
  - case_decide as E; [by apply IH|]. simpl. constructor; [|by apply IH].
    intros (r & Hr & Hin)%list_elem_of_fmap.
    apply dedup_by_id_fresh in Hin. set_solver.
Qed.



End Dedup.

(* ===================================================================== *)
(** ** The keyword-boost route *)
(* ===================================================================== *)

Section KeywordBoostFacts.
Import JsString JsArray KeywordBoost.

(** [s.includes(kw)] holds exactly when [kw] occurs in [s]. *)
Lemma startsWith_spec p s :
  startsWith p s = true <-> exists post, s = (p ++ post)%string.
Proof.
  revert s. induction p as [|a p IH]; intros s; simpl.
  - split; [eauto|done].
  - destruct s as [|b s].
    + split; [done|]. by intros [post ?].
    + rewrite andb_true_iff, bool_decide_eq_true, IH. split.
      * intros [-> [post ->]]. by exists post.
      * intros [post Heq]. injection Heq as -> ->. eauto.
Qed.

Lemma includes_spec s kw :
  includes s kw = true <-> exists pre post, s = (pre ++ kw ++ post)%string.
Proof.
  induction s as [|c s IH].
  - simpl. rewrite orb_false_r, startsWith_spec. split.
    + intros [post ->]. by exists EmptyString, post.
    + intros (pre & post & Heq). destruct pre; simpl in Heq; [eauto|done].
  - cbn [includes]. rewrite orb_true_iff, startsWith_spec, IH. split.
    + intros [[post ->]|(pre & post & ->)].
      * by exists EmptyString, post.
      * by exists (String c pre), post.
    + intros (pre & post & Heq). destruct pre as [|d pre]; simpl in Heq.
      * left. eauto.
      * right. injection Heq as -> ->. eauto.
Qed.

Lemma count_matches_zero keywords textLower :
  count_matches keywords textLower = 0%nat <->
  forall kw, kw ∈ keywords ->
    ~ exists pre post, textLower = (pre ++ kw ++ post)%string.
Proof.
  unfold count_matches. rewrite length_zero_iff_nil. split.
  - intros Hnil kw Hkw Hsub%includes_spec.
    assert (kw ∈ filter (fun kw => includes textLower kw = true) keywords)
      as Hin by (by apply list_elem_of_filter).
    rewrite Hnil in Hin. by apply elem_of_nil in Hin.
  - intros H. apply elem_of_nil_inv. intros kw [Hinc Hkw]%list_elem_of_filter.
    apply (H kw Hkw). by apply includes_spec.
Qed.

Lemma boost_of_eq n :
  (boost_of n == 1 + inject_Z (Z.of_nat n) * 0.15)%Q.
Proof.
  unfold boost_of. destruct (0 <? n)%nat eqn:E; [reflexivity|].
  apply Nat.ltb_ge in E. replace n with 0%nat by lia. reflexivity.
Qed.

End KeywordBoostFacts.

Section KeywordBoostClaims.
Import JsString JsArray KeywordBoost.

Lemma boost_result_capped keywords result :
  (similarity (boost_result keywords result) <= 0.99)%Q.
Proof. unfold boost_result. simpl. apply Q.le_min_l. Qed.

Lemma final_results_boosted w query r :
  r ∈ final_results w query ->
  exists r0, r = boost_result (extract_keywords query) r0.
Proof.
  unfold final_results, slice0, sorted_candidates. intros Hin.
  assert (r ∈ sort by_similarity_desc
                (map (boost_result (extract_keywords query))
                   (foldl (keyword_step w) (semantic_results w query)
                      (take 5 (extract_keywords query))))) as Hs.
  { eapply elem_of_sublist; [exact Hin|].
    etrans; [apply sublist_take|apply dedup_by_id_sublist]. }
  change by_similarity_desc with (desc_by similarity) in Hs.
  rewrite elem_of_sort in Hs.
  apply list_elem_of_fmap in Hs as (r0 & -> & _). eauto.
Qed.

(** C5 (as amended).  The keyword boost of one candidate: [keywordMatches]
    is the number [n] of keywords of the query that the lower-cased text
    includes; it is zero exactly when no keyword occurs in that text; the
    new score is [min(0.99, score * (1 + 0.15 * n))] whatever [n] is, so at
    most 0.99 always.  A candidate containing no keyword ends with
    [min(0.99, score)]: its score is unchanged when it is at most 0.99 and
    lowered to 0.99 otherwise. *)
Theorem keyword_boost_score (keywords : list string)
    (result : SearchResult) :
  let textLower :=
    toLowerCase (default EmptyString (chunk_text (row result))) in
  let n := count_matches keywords textLower in
  let boosted := boost_result keywords result in
  keywordMatches boosted = Some n
  /\ row boosted = row result
  /\ (n = 0%nat <->
      forall kw, kw ∈ keywords ->
        ~ exists pre post, textLower = (pre ++ kw ++ post)%string)
  /\ (similarity boosted ==
      Qmin 0.99 (similarity result * (1 + 0.15 * inject_Z (Z.of_nat n))))%Q
  /\ (similarity boosted <= 0.99)%Q
  /\ (n = 0%nat -> (similarity boosted == Qmin 0.99 (similarity result))%Q)
  /\ (n = 0%nat -> (similarity result <= 0.99)%Q ->
      (similarity boosted == similarity result)%Q).
Proof.
  intros textLower n boosted.
  assert (keywordMatches boosted = Some n
          /\ (similarity boosted ==
              Qmin 0.99 (similarity result * boost_of n))%Q) as [Hn Hs].
  { unfold boosted, boost_result, n, textLower.
    destruct (chunk_text (row result)); simpl; split; reflexivity. }
  assert (similarity boosted ==
          Qmin 0.99 (similarity result
                     * (1 + 0.15 * inject_Z (Z.of_nat n))))%Q as Hs'.
  { rewrite Hs. apply Q.min_compat; [reflexivity|].
    rewrite boost_of_eq. ring. }
  repeat split; try done.
  - by apply count_matches_zero.
  - by apply count_matches_zero.
  - apply boost_result_capped.
  - intros Hz. rewrite Hs', Hz. apply Q.min_compat; [reflexivity|].
    simpl. ring.
  - intros Hz Hle. rewrite Hs', Hz.
    assert (similarity result * (1 + 0.15 * inject_Z (Z.of_nat 0))
            == similarity result)%Q as E by (simpl; ring).
    rewrite E. by apply Q.min_r.
Qed.

(** The boost on a text that contains one of two keywords. *)
Lemma keyword_boost_score_witness :
  count_matches ["negligence"; "damages"]%string "the negligence test"
  = 1%nat
  /\ (similarity
        (boost_result ["negligence"; "damages"]%string
           (Examples.hit 1 7 "The Negligence test" 0.5))
      == Qmin 0.99 (0.5 * (1 + 0.15 * 1)))%Q.
Proof.
  split; [reflexivity|].
  apply (keyword_boost_score ["negligence"; "damages"]%string
           (Examples.hit 1 7 "The Negligence test" 0.5)).
Defined.

(** C5, the claim as stated fails: a candidate that contains no keyword
    and scores 1 does not keep its score, it leaves the boost with 0.99. *)
Lemma keyword_boost_unchanged_counterexample :
  ~ (forall keywords result,
        count_matches keywords
          (toLowerCase (default EmptyString (chunk_text (row result))))
        = 0%nat ->
        (similarity (boost_result keywords result) == similarity result)%Q).
Proof.
  intros H.
  specialize (H [] (Examples.hit 1 7 "the cat sat" 1) eq_refl).
  vm_compute in H. discriminate H.
Qed.



End KeywordBoostClaims.

(* ===================================================================== *)
(** ** The multi-query route: merge by identity *)
(* ===================================================================== *)

Section MergeFacts.
Import JsString JsArray MultiQuery.

Lemma find_index_Some {A} (p : A -> bool) (l : list A) i x :
  find_index p l = Some (i, x) ->
  l !! i = Some x /\ p x = true
  /\ forall j y, l !! j = Some y -> (j < i)%nat -> p y <> true.
Proof. unfold find_index. by intros ?%list_find_Some. Qed.

Lemma find_index_None {A} (p : A -> bool) (l : list A) :
  find_index p l = None -> Forall (fun x => p x <> true) l.
Proof. unfold find_index. by intros ?%list_find_None. Qed.

Lemma elem_of_ids_take (l : list SearchResult) i z :
  z ∈ map rid (take i l)
  <-> exists j y, (j < i)%nat /\ l !! j = Some y /\ rid y = z.
Proof.
  split.
  - intros (y & -> & Hy)%list_elem_of_fmap.
    apply elem_of_take in Hy as (j & Hj & Hlt). by exists j, y.
  - intros (j & y & Hlt & Hj & <-). apply list_elem_of_fmap. exists y.
    split; [done|]. apply elem_of_take. by exists j.
Qed.

Lemma arrivals_cons z y ids :
  arrivals z (y :: ids)
  = (if decide (y = z) then S (arrivals z ids) else arrivals z ids).
Proof.
  unfold arrivals. case_decide.
  - by rewrite filter_cons_True.
  - by rewrite filter_cons_False.
Qed.

Lemma elem_of_new_ids seen ids z :
  z ∈ seen ++ new_ids seen ids <-> z ∈ seen \/ z ∈ ids.
Proof.
  revert seen. induction ids as [|y ids IH]; intros seen; cbn [new_ids].
  - rewrite app_nil_r, elem_of_nil. tauto.
  - case_decide as Hy.
    + rewrite IH, elem_of_cons. split; [tauto|].
      intros [?|[->|?]]; tauto.
    + replace (seen ++ y :: new_ids (seen ++ [y]) ids)
        with ((seen ++ [y]) ++ new_ids (seen ++ [y]) ids)
        by (by rewrite <- app_assoc).
      rewrite IH, elem_of_app, list_elem_of_singleton, elem_of_cons. tauto.
Qed.

Lemma new_ids_fresh seen ids :
  NoDup (new_ids seen ids) /\ forall z, z ∈ new_ids seen ids -> z ∉ seen.
Proof.
  revert seen. induction ids as [|y ids IH]; intros seen; cbn [new_ids].
  - split; [constructor|]. by intros z ?%elem_of_nil.
  - case_decide as Hy; [apply IH|].
    destruct (IH (seen ++ [y])) as [Hnd Hfresh]. split.
    + constructor; [|done]. intros Hin. apply (Hfresh y Hin).
      apply elem_of_app. right. by left.
    + intros z [->|Hz]%elem_of_cons; [done|].
      intros Hs. apply (Hfresh z Hz). apply elem_of_app. by left.
Qed.

(** *** The common shape of the merge loops *)

Section MergeWithFacts.
Context {A : Type} (key : A -> Z) (make : A -> SearchResult)
        (update : SearchResult -> SearchResult).
Hypothesis make_rid : forall x, rid (make x) = key x.
Hypothesis update_rid : forall e, rid (update e) = rid e.

Local Abbreviation merge := (merge_with key make update).

Lemma merge_with_ids allResults x :
  map rid (merge allResults x)
  = map rid allResults
    ++ (if decide (key x ∈ map rid allResults) then [] else [key x]).
Proof.
  unfold merge_with.
  destruct (find_index _ allResults) as [[i existing]|] eqn:E.
  - apply find_index_Some in E as (Hi & Hp & _). apply Z.eqb_eq in Hp.
    rewrite decide_True.
    + rewrite app_nil_r.
      change (rid <$> <[i := update existing]> allResults
              = rid <$> allResults).
      rewrite list_fmap_insert, list_insert_id; [done|].
      by rewrite list_lookup_fmap, Hi, update_rid.
    + rewrite <- Hp. apply list_elem_of_fmap. exists existing.
      split; [done|]. by eapply list_elem_of_lookup_2.
  - apply find_index_None in E. rewrite decide_False.
    + change (rid <$> allResults ++ [make x]
              = (rid <$> allResults) ++ [key x]).
      rewrite fmap_app. simpl. by rewrite make_rid.
    + intros (r & Hr & Hin)%list_elem_of_fmap.
      eapply Forall_forall in E; [|exact Hin]. apply E. by apply Z.eqb_eq.
Qed.

(** No entry is pushed for an id that is there: the ids after the loop are
    those before it followed by the new ones. *)
Lemma merge_all_ids xs allResults :
  map rid (foldl merge allResults xs)
  = map rid allResults ++ new_ids (map rid allResults) (map key xs).
Proof.
  revert allResults. induction xs as [|x xs IH]; intros allResults;
    cbn [foldl map new_ids].
  - by rewrite app_nil_r.
  - rewrite IH, merge_with_ids. case_decide.
    + by rewrite app_nil_r.
    + by rewrite <- app_assoc.
Qed.

Lemma found_again_nil allResults i existing :
  found_again allResults i existing [] = 0%nat.
Proof. unfold found_again. by case_decide. Qed.

(** An entry that is there when the loop starts is updated once for each
    row of its id, when it is the first entry of that id, and is left as it
    is otherwise. *)
Lemma merge_all_entry xs allResults i existing :
  allResults !! i = Some existing ->
  foldl merge allResults xs !! i
  = Some (Nat.iter (found_again allResults i existing (map key xs))
            update existing).
Proof.
  revert allResults existing.
  induction xs as [|x xs IH]; intros allResults existing Hi;
    cbn [foldl map].
  - by rewrite found_again_nil.
  - assert (i < length allResults)%nat as Hlt by (by eapply lookup_lt_Some).
    unfold merge_with at 2.
    destruct (find_index _ allResults) as [[k ek]|] eqn:E.
    + apply find_index_Some in E as (Hk & Hp & Hfirst).
      apply Z.eqb_eq in Hp.
      destruct (decide (k = i)) as [->|Hki].
      * assert (ek = existing) as -> by congruence.
        rewrite (IH _ (update existing))
          by (by apply list_lookup_insert_eq).
        f_equal. unfold found_again.
        rewrite update_rid, take_insert_ge by lia.
        case_decide as Hin.
        { apply elem_of_ids_take in Hin as (j & y & Hj & Hy & Heq).
          exfalso. apply (Hfirst j y Hy Hj). apply Z.eqb_eq. congruence. }
        rewrite arrivals_cons, decide_True by done.
        by rewrite Nat.iter_succ_r.
      * rewrite (IH _ existing)
          by (by rewrite list_lookup_insert_ne).
        f_equal. f_equal. unfold found_again.
        assert (map rid (take i (<[k:=update ek]> allResults))
                = map rid (take i allResults)) as ->.
        { change (rid <$> take i (<[k:=update ek]> allResults)
                  = rid <$> take i allResults).
          rewrite !fmap_take, list_fmap_insert, list_insert_id; [done|].
          by rewrite list_lookup_fmap, Hk, update_rid. }
        case_decide as Hin; [done|].
        rewrite arrivals_cons, decide_False; [done|].
        intros Heq. apply Hin. apply elem_of_ids_take.
        exists k, ek. split; [|split; [done|congruence]].
        destruct (decide (k < i)%nat); [done|].
        exfalso. apply (Hfirst i existing Hi); [lia|].
        apply Z.eqb_eq. congruence.
    + apply find_index_None in E.
      rewrite (IH _ existing) by (by apply lookup_app_l_Some).
      f_equal. f_equal. unfold found_again.
      rewrite take_app_le by lia.
      case_decide; [done|].
      rewrite arrivals_cons, decide_False; [done|].
      intros Heq. eapply Forall_lookup_1 in E; [|exact Hi].
      apply E. apply Z.eqb_eq. congruence.
Qed.

(** The entries pushed by the loop. *)
Lemma merge_all_pushed xs allResults :
  drop (length allResults) (foldl merge allResults xs)
  = new_entries key make update (map rid allResults) xs.
Proof.
  revert allResults. induction xs as [|x xs IH]; intros allResults;
    cbn [foldl new_entries].
  - by rewrite drop_all.
  - pose proof (merge_with_ids allResults x) as Hids.
    case_decide as Hin.
    + rewrite app_nil_r in Hids. rewrite <- Hids. rewrite <- IH.
      f_equal. by rewrite <- (length_map rid allResults), <- Hids, length_map.
    + assert (merge allResults x = allResults ++ [make x]) as Hpush.
      { unfold merge_with.
        destruct (find_index _ allResults) as [[k ek]|] eqn:E; [|done].
        apply find_index_Some in E as (Hk & Hp & _). apply Z.eqb_eq in Hp.
        exfalso. apply Hin. rewrite <- Hp. apply list_elem_of_fmap.
        exists ek. split; [done|]. by eapply list_elem_of_lookup_2. }
      rewrite Hpush.
      assert ((allResults ++ [make x]) !! length allResults = Some (make x))
        as Hlast.
      { rewrite lookup_app_r by lia. by rewrite Nat.sub_diag. }
      pose proof (merge_all_entry xs _ _ _ Hlast) as Hentry.
      rewrite (drop_S _ _ _ Hentry). f_equal.
      * unfold found_again. rewrite take_app_length, make_rid.
        by rewrite decide_False.
      * specialize (IH (allResults ++ [make x])).
        rewrite length_app in IH. cbn [length] in IH.
        rewrite Nat.add_1_r in IH. rewrite IH. f_equal.
        change (rid <$> allResults ++ [make x]
                = (rid <$> allResults) ++ [key x]).
        rewrite fmap_app. simpl. by rewrite make_rid.
Qed.

(** The loop as a whole: every entry that was there, updated as many times
    as it is found again, then the entries pushed. *)
Lemma merge_all_closed xs allResults :
  foldl merge allResults xs
  = imap (fun i existing =>
            Nat.iter (found_again allResults i existing (map key xs))
              update existing) allResults
    ++ new_entries key make update (map rid allResults) xs.
Proof.
  rewrite <- merge_all_pushed.
  rewrite <- (take_drop (length allResults) (foldl merge allResults xs)) at 1.
  f_equal. apply list_eq. intros i.
  rewrite list_lookup_imap.
  destruct (allResults !! i) as [existing|] eqn:Hi.
  - rewrite lookup_take_lt by (by eapply lookup_lt_Some).
    by rewrite (merge_all_entry xs _ _ _ Hi).
  - apply lookup_ge_None in Hi. by rewrite lookup_take_ge.
Qed.

(** The loop run on a list whose entries the update leaves as they are:
    the list, followed by the entries pushed. *)
Lemma merge_all_fixed xs allResults :
  Forall (fun e => update e = e) allResults ->
  foldl merge allResults xs
  = allResults ++ new_entries key make update (map rid allResults) xs.
Proof.
  intros Hfix. rewrite merge_all_closed. f_equal.
  apply list_eq. intros i. rewrite list_lookup_imap.
  destruct (allResults !! i) as [e|] eqn:Hi; [|done]. simpl. f_equal.
  eapply Forall_lookup_1 in Hfix; [|exact Hi].
  induction (found_again _ _ _ _) as [|n IHn]; [done|].
  simpl. by rewrite IHn.
Qed.

Lemma merge_all_nil xs allResults :
  foldl merge allResults xs = [] <-> allResults = [] /\ xs = [].
Proof.
  split; [|by intros [-> ->]].
  intros H. apply (f_equal (map rid)) in H. rewrite merge_all_ids in H.
  apply app_eq_nil in H as [Ha Hn].
  apply fmap_nil_inv in Ha. subst allResults. split; [done|].
  destruct xs as [|x xs]; [done|]. by cbn [map new_ids] in Hn.
Qed.

End MergeWithFacts.

(** *** The merge loops of the routes have that shape *)

Lemma merge_row_shape label factor rows allResults :
  foldl (merge_row label factor) allResults rows
  = foldl (merge_with rid (set_matchedQueries (Some [label]))
             (fun e => set_similarity (Qmin 1 (similarity e * factor))
                         (push_query label e)))
      allResults rows.
Proof. reflexivity. Qed.

Lemma boost_merge_keyword_row_shape rows allResults :
  foldl KeywordBoost.merge_keyword_row allResults rows
  = foldl (merge_with id (fun c => of_chunk c 0.6 (Some "keyword"%string))
             (fun e => if bool_decide (source e = Some "keyword"%string)
                       then set_similarity
                              (Qmin 0.9 (similarity e + 0.1)) e
                       else e))
      allResults rows.
Proof.
  revert allResults. induction rows as [|c rows IH]; intros allResults;
    [done|].
  cbn [foldl]. rewrite <- IH. f_equal.
  unfold KeywordBoost.merge_keyword_row, merge_with.
  destruct (find_index _ allResults) as [[i existing]|] eqn:E; [|done].
  apply find_index_Some in E as (Hi & _ & _).
  case_bool_decide; [done|]. by rewrite list_insert_id.
Qed.

Lemma keywordSearch_no_length w kws req_court :
  has_length kws = false -> keywordSearch w kws req_court = [].
Proof. by destruct kws as [[|k kws]|s| |b]. Qed.

Lemma keyword_stage_fold w req_court kws allResults :
  keyword_stage w req_court kws allResults
  = foldl (merge_row "keyword" 1.1) allResults
      (keywordSearch w kws req_court).
Proof.
  unfold keyword_stage. destruct (has_length kws) eqn:E; [done|].
  by rewrite keywordSearch_no_length.
Qed.

Lemma boost_keyword_step_fold w allResults keyword :
  KeywordBoost.keyword_step w allResults keyword
  = foldl KeywordBoost.merge_keyword_row allResults
      (rows_of (case_chunks w keyword 10)).
Proof.
  unfold KeywordBoost.keyword_step.
  by destruct (case_chunks w keyword 10).
Qed.

Lemma boost_keyword_steps_fold w kws allResults :
  foldl (KeywordBoost.keyword_step w) allResults kws
  = foldl KeywordBoost.merge_keyword_row allResults (found_rows w 10 kws).
Proof.
  revert allResults. induction kws as [|kw kws IH]; intros allResults;
    [done|].
  cbn [foldl]. unfold found_rows. cbn [flat_map].
  by rewrite foldl_app, IH, boost_keyword_step_fold.
Qed.

Lemma rerank_keyword_step_fold w allResults keyword :
  Rerank.keyword_step w allResults keyword
  = foldl Rerank.merge_keyword_row allResults
      (rows_of (case_chunks w keyword 8)).
Proof.
  unfold Rerank.keyword_step.
  by destruct (case_chunks w keyword 8).
Qed.

Lemma rerank_keyword_steps_fold w kws allResults :
  foldl (Rerank.keyword_step w) allResults kws
  = foldl Rerank.merge_keyword_row allResults (found_rows w 8 kws).
Proof.
  revert allResults. induction kws as [|kw kws IH]; intros allResults;
    [done|].
  cbn [foldl]. unfold found_rows. cbn [flat_map].
  by rewrite foldl_app, IH, rerank_keyword_step_fold.
Qed.

(** *** What the updates come to *)

Lemma reinforced_fields label factor n existing :
  let updated :=
    Nat.iter n (fun e => set_similarity (Qmin 1 (similarity e * factor))
                           (push_query label e)) existing in
  row updated = row existing
  /\ matchedQueries updated
     = (fun l => l ++ replicate n label) <$> matchedQueries existing
  /\ similarity updated
     = Nat.iter n (fun s => Qmin 1 (s * factor))%Q (similarity existing)
  /\ ((0 < n)%nat -> (similarity updated <= 1)%Q).
Proof.
  cbv zeta. induction n as [|n IH]; [|rewrite !Nat.iter_succ].
  - cbn [Nat.iter nat_rect]. split; [done|]. split; [|split; [done|lia]].
    destruct (matchedQueries existing) as [l|]; simpl; [|done].
    by rewrite app_nil_r.
  - destruct IH as (Hrow & Hmq & Hsim & _).
    cbn [row set_similarity push_query set_matchedQueries matchedQueries
         similarity].
    split; [done|]. split; [|split].
    + rewrite Hmq. destruct (matchedQueries existing) as [l|]; simpl; [|done].
      by rewrite replicate_cons_app, app_assoc.
    + by rewrite Hsim.
    + intros _. apply Q.le_min_l.
Qed.

Lemma keyword_bumped_fields n existing :
  let updated :=
    Nat.iter n (fun e => if bool_decide (source e = Some "keyword"%string)
                         then set_similarity
                                (Qmin 0.9 (similarity e + 0.1)) e
                         else e) existing in
  row updated = row existing
  /\ source updated = source existing
  /\ similarity updated
     = (if bool_decide (source existing = Some "keyword"%string)
        then Nat.iter n (fun s => Qmin 0.9 (s + 0.1))%Q (similarity existing)
        else similarity existing)
  /\ ((0 < n)%nat -> source existing = Some "keyword"%string ->
      (similarity updated <= 0.9)%Q).
Proof.
  cbv zeta. induction n as [|n IH]; [|rewrite !Nat.iter_succ].
  - cbn [Nat.iter nat_rect].
    split; [done|]. split; [done|]. split; [by case_bool_decide|lia].
  - destruct IH as (Hrow & Hsrc & Hsim & _). rewrite Hsrc.
    case_bool_decide as Hk.
    + cbn [row source similarity set_similarity].
      split; [done|]. split; [done|]. split; [by rewrite Hsim|].
      intros _ _. apply Q.le_min_l.
    + by repeat split.
Qed.

(** *** The invariant of the multi-query merge *)

Lemma match_count_pushed label r :
  single_or_capped r -> (2 <= match_count (push_query label r))%nat.
Proof.
  unfold match_count, push_query. simpl.
  intros [[l0 ->]|[Hc _]]; simpl; [lia|].
  unfold match_count in Hc.
  destruct (matchedQueries r) as [l|]; simpl; [|lia].
  rewrite length_app. simpl.
  destruct (length l =? 0)%nat eqn:E; [lia|].
  destruct (length l + 1 =? 0)%nat eqn:F; [apply Nat.eqb_eq in F|]; lia.
Qed.

Lemma merge_row_invariant label factor allResults result :
  Forall single_or_capped allResults ->
  Forall single_or_capped (merge_row label factor allResults result).
Proof.
  intros Hall. unfold merge_row.
  destruct (find_index _ allResults) as [[i existing]|] eqn:E.
  - apply find_index_Some in E as (Hi & _ & _).
    apply Forall_insert; [done|]. right. split.
    + apply (match_count_pushed label existing).
      eapply Forall_lookup_1; [exact Hall|exact Hi].
    + simpl. apply Q.le_min_l.
  - apply Forall_app. split; [done|]. constructor; [|constructor].
    left. by exists label.
Qed.

Lemma merge_rows_invariant label factor rows allResults :
  Forall single_or_capped allResults ->
  Forall single_or_capped (foldl (merge_row label factor) allResults rows).
Proof.
  revert allResults. induction rows as [|r rows IH]; intros allResults H;
    simpl; [done|].
  by apply IH, merge_row_invariant.
Qed.

Lemma merged_results_invariant w query req_court queryAnalysis :
  Forall single_or_capped (merged_results w query req_court queryAnalysis).
Proof.
  unfold merged_results. rewrite keyword_stage_fold.
  apply merge_rows_invariant.
  assert (forall subs allResults,
            Forall single_or_capped allResults ->
            Forall single_or_capped
              (foldl (subquery_step w req_court) allResults subs)) as Hsubs.
  { induction subs as [|s subs IH]; intros allResults H; simpl; [done|].
    apply IH. by apply merge_rows_invariant. }
  apply Hsubs, Forall_fmap, Forall_forall. intros r _. left. by eexists.
Qed.

(** C1 (as amended).  The merge loops, each as a whole, on any list
    [allResults] they start from and any entry [existing] of it, at place
    [i].  In the multi-query route, the rows of a sub-query (and likewise
    those of the keyword search) add an entry only for an id that is not
    there, one for each such id; the entry [existing] keeps its place and,
    being the first of its id, gets for every row of its id the label
    pushed on its [matchedQueries] (an append: the label is there once for
    each row) and the score [min(1, score * 1.15)] (for the keyword search:
    the label "keyword" and [min(1, score * 1.1)]); an entry that is not
    the first of its id, or whose id no row has, is left as it is.  So a
    reinforced entry scores at most 1, and when merging ends every entry
    either carries the single label it arrived with or counts two matched
    queries or more and scores at most 1.  In the keyword-boost route the
    rows of a keyword are merged the same way, the entry found getting
    [min(0.9, score + 0.1)] when it came from a keyword and nothing
    otherwise; every final score of that route is at most 0.99, so
    strictly below 1. *)
Theorem merge_by_identity (w : World) (query : string)
    (req_court : option string) (queryAnalysis : QueryAnalysis)
    (allResults : list SearchResult) (text : string) (i : nat)
    (existing : SearchResult) :
  allResults !! i = Some existing ->
  (let ids := map rid (semanticSearch w text req_court 0.45) in
   let merged := subquery_step w req_court allResults text in
   map rid merged = map rid allResults ++ new_ids (map rid allResults) ids
   /\ merged !! i
      = Some (Nat.iter (found_again allResults i existing ids)
                (fun e => set_similarity (Qmin 1 (similarity e * 1.15))
                            (push_query text e)) existing))
  /\ (let ids :=
        map rid (keywordSearch w (keywords queryAnalysis) req_court) in
      let merged :=
        keyword_stage w req_court (keywords queryAnalysis) allResults in
      map rid merged = map rid allResults ++ new_ids (map rid allResults) ids
      /\ merged !! i
         = Some (Nat.iter (found_again allResults i existing ids)
                   (fun e => set_similarity (Qmin 1 (similarity e * 1.1))
                               (push_query "keyword" e)) existing))
  /\ (forall label factor n,
         let updated :=
           Nat.iter n (fun e => set_similarity
                                  (Qmin 1 (similarity e * factor))
                                  (push_query label e)) existing in
         row updated = row existing
         /\ matchedQueries updated
            = (fun l => l ++ replicate n label) <$> matchedQueries existing
         /\ similarity updated
            = Nat.iter n (fun s => Qmin 1 (s * factor))%Q
                (similarity existing)
         /\ ((0 < n)%nat -> (similarity updated <= 1)%Q))
  /\ Forall single_or_capped (merged_results w query req_court queryAnalysis)
  /\ (let ids := map id (rows_of (case_chunks w text 10)) in
      let merged := KeywordBoost.keyword_step w allResults text in
      map rid merged = map rid allResults ++ new_ids (map rid allResults) ids
      /\ merged !! i
         = Some (Nat.iter (found_again allResults i existing ids)
                   (fun e => if bool_decide (source e = Some "keyword"%string)
                             then set_similarity
                                    (Qmin 0.9 (similarity e + 0.1)) e
                             else e) existing))
  /\ (forall n,
         let updated :=
           Nat.iter n
             (fun e => if bool_decide (source e = Some "keyword"%string)
                       then set_similarity
                              (Qmin 0.9 (similarity e + 0.1)) e
                       else e) existing in
         row updated = row existing
         /\ source updated = source existing
         /\ similarity updated
            = (if bool_decide (source existing = Some "keyword"%string)
               then Nat.iter n (fun s => Qmin 0.9 (s + 0.1))%Q
                      (similarity existing)
               else similarity existing)
         /\ ((0 < n)%nat -> source existing = Some "keyword"%string ->
             (similarity updated <= 0.9)%Q))
  /\ Forall (fun r => (similarity r <= 0.99)%Q /\ (similarity r < 1)%Q)
       (KeywordBoost.final_results w query).
Proof.
  intros Hi. split; [|split; [|split; [|split; [|split; [|split]]]]].
  - unfold subquery_step. rewrite merge_row_shape. split.
    + by apply merge_all_ids.
    + by apply merge_all_entry.
  - rewrite keyword_stage_fold, merge_row_shape. split.
    + by apply merge_all_ids.
    + by apply merge_all_entry.
  - intros label factor n. apply reinforced_fields.
  - apply merged_results_invariant.
  - rewrite boost_keyword_step_fold, boost_merge_keyword_row_shape. split.
    + apply (merge_all_ids id); [done|]. intros e. by case_bool_decide.
    + apply (merge_all_entry id); try done. intros e. by case_bool_decide.
  - intros n. apply keyword_bumped_fields.
  - apply Forall_forall. intros r Hr.
    apply final_results_boosted in Hr as [r0 ->].
    pose proof (boost_result_capped (KeywordBoost.extract_keywords query) r0).
    split; [done|]. lra.
Qed.

(** The theorem on a row found by the main search and again by one
    sub-query: one entry, with the two labels and the score
    [min(1, 0.5 * 1.15)]. *)
Lemma merge_by_identity_witness :
  [set_matchedQueries (Some ["main"%string]) (Examples.hit 1 7 "a" 0.5)]
    !! 0%nat
  = Some (set_matchedQueries (Some ["main"%string])
            (Examples.hit 1 7 "a" 0.5))
  /\ map (fun r => (rid r, matchedQueries r, similarity r))
       (subquery_step Examples.one_hit None
          [set_matchedQueries (Some ["main"%string])
             (Examples.hit 1 7 "a" 0.5)] "duty of care")
     = [(1%Z, Some ["main"; "duty of care"]%string, Qmin 1 (0.5 * 1.15))]
  /\ map rid
       (subquery_step Examples.one_hit None
          [set_matchedQueries (Some ["main"%string])
             (Examples.hit 1 7 "a" 0.5)] "duty of care")
     = [1%Z] ++ new_ids [1%Z]
                  (map rid (semanticSearch Examples.one_hit "duty of care"
                              None 0.45)).
Proof.
  split; [reflexivity|]. split; [reflexivity|].
  destruct (merge_by_identity Examples.one_hit "tort"%string None
              (analyzeQuery Examples.one_hit "tort")
              [set_matchedQueries (Some ["main"%string])
                 (Examples.hit 1 7 "a" 0.5)]
              "duty of care"%string 0%nat
              (set_matchedQueries (Some ["main"%string])
                 (Examples.hit 1 7 "a" 0.5)) eq_refl)
    as ((Hids & _) & _).
  exact Hids.
Defined.

(** C1, the claim as stated fails in the multi-query route.  One row of
    score 0.9 found by the main search and again by the sub-query: the
    merge leaves it with the score 1, above the cap 0.99 of the claim, and
    the boost that follows, which has no cap, with 1.1: the final score is
    not below 1. *)
Lemma agreement_boost_counterexample :
  subQueries (analyzeQuery Examples.one_hit "tort") = Items ["tort"%string]
  /\ map (fun r => (matchedQueries r, similarity r))
       (merged_results Examples.one_hit "tort" None
          (analyzeQuery Examples.one_hit "tort"))
     = [(Some ["main"; "tort"]%string, 1%Q)]
  /\ exists r,
       final_results Examples.one_hit "tort" None
         (analyzeQuery Examples.one_hit "tort") = [r]
       /\ (similarity r == 1.1)%Q
       /\ ~ (similarity r < 1)%Q.
Proof.
  split; [reflexivity|]. split; [reflexivity|].
  eexists. split; [vm_compute; reflexivity|].
  split; [reflexivity|]. intros H. discriminate H.
Qed.

End MergeFacts.

(* ===================================================================== *)
(** ** The AI-rerank route *)
(* ===================================================================== *)

Section RerankFacts.
Import JsString JsArray Rerank Spec.

Example parse_scores_plain :
  parse_scores "Scores: [8, 2, 9]" = Some [8; 2; 9]%N.
Proof. reflexivity. Qed.

Example parse_scores_second_bracket :
  parse_scores "[a] then [8,2 ,10 ] and [3]" = Some [8; 2; 10]%N.
Proof. reflexivity. Qed.

Example parse_scores_blank : parse_scores "[ ]" = Some [].
Proof. reflexivity. Qed.

Example parse_scores_rejected :
  map parse_scores
    ["no array"; "[]"; "[8.5, 2]"; "[01]"; "[1,,2]"; "[1,]"; "[1 2]"]%string
  = [None; None; None; None; None; None; None].
Proof. reflexivity. Qed.

Lemma span_class_spec s run rest :
  span_class s = (run, rest) ->
  s = (run ++ rest)%string /\ all_in_class run = true
  /\ starts_in_class rest = false.
Proof.
  revert run rest. induction s as [|c s IH]; intros run rest; simpl.
  - by intros [= <- <-].
  - destruct (in_class c) eqn:E.
    + destruct (span_class s) as [run' rest']. intros [= <- <-].
      destruct (IH run' rest' eq_refl) as (-> & ? & ?).
      simpl. by rewrite E.
    + intros [= <- <-]. simpl. by rewrite E.
Qed.

Lemma span_class_unique run rest :
  all_in_class run = true -> starts_in_class rest = false ->
  span_class (run ++ rest) = (run, rest).
Proof.
  induction run as [|c run IH]; simpl; intros Hrun Hrest.
  - destruct rest as [|d rest]; [done|]. simpl in *. by rewrite Hrest.
  - apply andb_true_iff in Hrun as [-> Hrun]. by rewrite IH.
Qed.

Lemma code_eq c n : (n < 256)%nat -> code c = n -> c = ascii_of_nat n.
Proof. intros _ <-. unfold code. by rewrite ascii_nat_embedding. Qed.

(** What [first_array] finds is a bracketed array of the content. *)
Lemma first_array_Some content run :
  first_array content = Some run ->
  exists pre post,
    content = (pre ++ "[" ++ run ++ "]" ++ post)%string
    /\ run <> EmptyString /\ all_in_class run = true.
Proof.
  induction content as [|c s IH]; simpl; [done|].
  assert (first_array s = Some run ->
          exists pre post,
            String c s = (pre ++ "[" ++ run ++ "]" ++ post)%string
            /\ run <> EmptyString /\ all_in_class run = true) as Hskip.
  { intros (pre & post & -> & ? & ?)%IH. by exists (String c pre), post. }
  destruct (code c =? 91)%nat eqn:E; [|done].
  apply Nat.eqb_eq, code_eq in E as ->; [|lia].
  destruct (span_class s) as [r rest] eqn:Hspan.
  apply span_class_spec in Hspan as (-> & Hr & _).
  destruct r as [|a r]; [done|]. destruct rest as [|d rest]; [done|].
  destruct (code d =? 93)%nat eqn:F; [|done].
  apply Nat.eqb_eq, code_eq in F as ->; [|lia].
  intros [= <-]. by exists EmptyString, rest.
Qed.

(** A content that holds a bracketed array has one found. *)
Lemma first_array_complete content :
  has_bracketed_array content -> is_Some (first_array content).
Proof.
  intros (pre & run & post & Hne & Hrun & ->).
  induction pre as [|c pre IH].
  - change (is_Some (first_array (String "[" (run ++ String "]" post)))).
    simpl. rewrite (span_class_unique run (String "]" post)) by done.
    destruct run as [|a run]; [done|]. by eexists.
  - change (is_Some
              (first_array
                 (String c (pre ++ "[" ++ run ++ "]" ++ post)%string))).
    simpl. destruct (code c =? 91)%nat; [|done].
    destruct (span_class _) as [r rest].
    destruct r as [|a r]; [done|]. destruct rest as [|d rest]; [done|].
    by destruct (code d =? 93)%nat.
Qed.

Lemma first_array_None content :
  first_array content = None <-> ~ has_bracketed_array content.
Proof.
  split.
  - intros E [run' H]%first_array_complete. congruence.
  - intros H. destruct (first_array content) as [run|] eqn:E; [|done].
    exfalso. apply H.
    apply first_array_Some in E as (pre & post & -> & ? & ?).
    by exists pre, run, post.
Qed.

(** No scores are read exactly when the content holds no bracketed array
    or [JSON.parse] throws on the first one. *)
Lemma parse_scores_None content :
  parse_scores content = None <->
  ~ has_bracketed_array content
  \/ exists run, first_array content = Some run
                 /\ json_parse_array run = None.
Proof.
  unfold parse_scores. rewrite <- first_array_None.
  destruct (first_array content) as [run|]; split.
  - intros H. right. by exists run.
  - by intros [?|(run' & [= <-] & ?)].
  - by left.
  - done.
Qed.

Lemma relevance_apply_score scores i r :
  relevance (apply_score scores i r) = score_at scores i.
Proof. reflexivity. Qed.

Lemma score_at_missing scores i :
  (length scores <= i)%nat -> score_at scores i = 5%N.
Proof. intros H. unfold score_at. by rewrite lookup_ge_None_2. Qed.

(** What the branch with scores returns: the scored candidates of
    relevance 4 or more, in some order. *)
Lemma rerank_with_scores_perm scores results :
  rerank_with_scores scores results ≡ₚ
  filter (fun r => (4 <= relevance r)%N) (imap (apply_score scores) results).
Proof. apply (sort_perm combined_score). Qed.

Lemma elem_of_rerank_with_scores scores results r' :
  r' ∈ rerank_with_scores scores results <->
  exists i r, results !! i = Some r /\ r' = apply_score scores i r
              /\ (4 <= score_at scores i)%N.
Proof.
  rewrite rerank_with_scores_perm, list_elem_of_filter, elem_of_lookup_imap.
  split.
  - intros [Hrel (i & r & -> & Hi)]. exists i, r.
    split; [done|]. split; [done|]. exact Hrel.
  - intros (i & r & Hi & -> & Hs). split; [exact Hs|]. by exists i, r.
Qed.

Lemma rerank_with_scores_nil scores results :
  rerank_with_scores scores results = [] <->
  forall i r, results !! i = Some r -> (score_at scores i < 4)%N.
Proof.
  split.
  - intros Hnil i r Hi.
    destruct (N.lt_ge_cases (score_at scores i) 4) as [|Hge]; [done|].
    assert (apply_score scores i r ∈ rerank_with_scores scores results)
      as Hin.
    { apply elem_of_rerank_with_scores. by exists i, r. }
    rewrite Hnil in Hin. by apply elem_of_nil in Hin.
  - intros H. apply elem_of_nil_inv. intros r'.
    rewrite elem_of_rerank_with_scores. intros (i & r & Hi & _ & Hs).
    specialize (H i r Hi). lia.
Qed.

Lemma rerank_fallback_nil results :
  rerank_fallback results = [] <-> results = [].
Proof.
  unfold rerank_fallback. split; [|by intros ->].
  intros H. apply length_zero_iff_nil.
  rewrite <- (sort_length similarity). change (desc_by similarity)
    with by_similarity_desc. by rewrite H.
Qed.

(** C3 (as amended).  The rerank stage has no fallback for the cutoff: with
    scores read from the model's answer it returns exactly the scored
    candidates of relevance 4 or more (5 standing for a missing score), so
    it returns the empty list when every candidate scores below 4; without
    scores it returns as many candidates as it was given.  Its output is
    therefore empty exactly when its input is empty or scores were read and
    every candidate scores below 4. *)
Theorem rerank_empty_iff (w : World) (query : string)
    (results : list SearchResult) :
  (rerankWithAI w query results = [] <->
   results = [] \/
   exists scores,
     scores_of_reply (rerank_chat w query results) = Some scores
     /\ forall i r, results !! i = Some r -> (score_at scores i < 4)%N)
  /\ (forall scores,
        scores_of_reply (rerank_chat w query results) = Some scores ->
        rerankWithAI w query results ≡ₚ
        filter (fun r => (4 <= relevance r)%N)
               (imap (apply_score scores) results))
  /\ (scores_of_reply (rerank_chat w query results) = None ->
      length (rerankWithAI w query results) = length results).
Proof.
  unfold rerankWithAI.
  destruct (scores_of_reply (rerank_chat w query results)) as [scores|].
  - split; [|split; [|done]].
    + rewrite rerank_with_scores_nil. split.
      * intros H. right. by exists scores.
      * intros [->|(scores' & [= <-] & H)]; [|done].
        intros i r Hi. by rewrite lookup_nil in Hi.
    + intros scores' [= <-]. apply rerank_with_scores_perm.
  - split; [|split; [done|]].
    + rewrite rerank_fallback_nil. split; [by left|].
      by intros [->|(scores' & [=] & _)].
    + intros _. apply (sort_length similarity).
Qed.

(** The theorem on two candidates scored 9 and 1: the first is returned,
    the second is not. *)
Lemma rerank_empty_iff_witness :
  scores_of_reply
    (rerank_chat (Examples.scorer_says "[9, 1]") "duty of care"
       Examples.two_results) = Some [9; 1]%N
  /\ map rid
       (rerankWithAI (Examples.scorer_says "[9, 1]") "duty of care"
          Examples.two_results) = [1%Z]
  /\ rerankWithAI (Examples.scorer_says "[9, 1]") "duty of care"
       Examples.two_results
     ≡ₚ filter (fun r => (4 <= relevance r)%N)
          (imap (apply_score [9; 1]%N) Examples.two_results).
Proof.
  split; [reflexivity|]. split; [reflexivity|].
  apply (proj1 (proj2 (rerank_empty_iff (Examples.scorer_says "[9, 1]")
                         "duty of care"%string Examples.two_results))).
  reflexivity.
Defined.

(** C3, the claim as stated fails: two candidates, both scored below 4 by
    the model; the stage returns the empty list, not the ranking it was
    given. *)
Lemma rerank_empty_counterexample :
  ~ (forall w query results,
        results <> [] -> rerankWithAI w query results <> []).
Proof.
  intros H.
  apply (H (Examples.scorer_says "[2, 1]") "duty of care"%string
           Examples.two_results); [discriminate|reflexivity].
Qed.

(** C6.  When the call for scores throws, answers with a non-ok status, or
    its content holds no bracketed array of numbers, or holds one that
    [JSON.parse] rejects, the stage returns its input sorted by descending
    similarity: the same candidates (none dropped, none added, none
    changed), in descending order of similarity.  The route then returns
    the first ten of them, as it does of any ranking. *)
Theorem rerank_skipped (w : World) (query : string)
    (results : list SearchResult) :
  (rerank_chat w query results = Rejected
   \/ rerank_chat w query results = HttpError
   \/ exists content,
        rerank_chat w query results = HttpOk content
        /\ (~ has_bracketed_array (default EmptyString content)
            \/ exists run,
                 first_array (default EmptyString content) = Some run
                 /\ json_parse_array run = None)) ->
  rerankWithAI w query results = sort by_similarity_desc results
  /\ rerankWithAI w query results ≡ₚ results
  /\ sorted_desc similarity (rerankWithAI w query results)
  /\ length (rerankWithAI w query results) = length results
  /\ (forall req_court,
        results = slice0 15 (candidates w query req_court) ->
        final_results w query req_court
        = slice0 10 (sort by_similarity_desc results)).
Proof.
  intros H.
  assert (scores_of_reply (rerank_chat w query results) = None) as E.
  { destruct H as [->|[->|(content & -> & Hp)]]; [done|done|].
    by apply parse_scores_None. }
  assert (rerankWithAI w query results = sort by_similarity_desc results)
    as Hsort.
  { unfold rerankWithAI. by rewrite E. }
  split; [done|]. rewrite Hsort.
  change by_similarity_desc with (desc_by similarity).
  split; [apply sort_perm|]. split; [apply sort_sorted_desc|].
  split; [apply sort_length|].
  intros req_court Hres. unfold final_results.
  destruct (0 <? length (candidates w query req_court))%nat eqn:F.
  - by rewrite <- Hres, Hsort.
  - apply Nat.ltb_ge in F.
    assert (candidates w query req_court = []) as Hnil
      by (apply length_zero_iff_nil; lia).
    rewrite Hres, Hnil. reflexivity.
Qed.

(** The theorem on an answer that holds no array. *)
Lemma rerank_skipped_witness :
  rerank_chat (Examples.scorer_says "I cannot score these.")
    "duty of care" Examples.two_results
  = HttpOk (Some "I cannot score these."%string)
  /\ first_array "I cannot score these." = None
  /\ map rid
       (rerankWithAI (Examples.scorer_says "I cannot score these.")
          "duty of care" Examples.two_results)
     = [2; 1]%Z
  /\ rerankWithAI (Examples.scorer_says "I cannot score these.")
       "duty of care" Examples.two_results ≡ₚ Examples.two_results.
Proof.
  split; [reflexivity|]. split; [reflexivity|]. split; [reflexivity|].
  apply (rerank_skipped (Examples.scorer_says "I cannot score these.")
           "duty of care"%string Examples.two_results).
  right. right. eexists. split; [reflexivity|].
  left. by apply first_array_None.
Defined.

(** C9.  When the array of scores read is shorter than the list of
    candidates, a candidate past its end gets the relevance 5; as 5 is not
    below the cutoff 4 it is in what the stage returns, with its similarity
    multiplied by [1 + 5/20]. *)
Theorem missing_score_defaults (w : World) (query : string)
    (results : list SearchResult) (scores : list N) (i : nat)
    (r : SearchResult) :
  scores_of_reply (rerank_chat w query results) = Some scores ->
  results !! i = Some r ->
  (length scores <= i)%nat ->
  exists kept,
    kept ∈ rerankWithAI w query results
    /\ row kept = row r
    /\ relevanceScore kept = Some 5%N
    /\ (4 <= 5)%N
    /\ similarity kept = (similarity r * (1 + Q_of_N 5 / 20))%Q
    /\ (similarity kept == similarity r * 1.25)%Q.
Proof.
  intros E Hi Hlen. exists (apply_score scores i r).
  unfold rerankWithAI. rewrite E.
  pose proof (score_at_missing scores i Hlen) as H5.
  split.
  - apply elem_of_rerank_with_scores. exists i, r. rewrite H5.
    repeat split; [done|lia].
  - unfold apply_score. rewrite H5. simpl.
    repeat split; [lia|]. unfold Q_of_N. simpl. field.
Qed.

(** The theorem on two candidates and an answer with one score. *)
Lemma missing_score_defaults_witness :
  scores_of_reply
    (rerank_chat (Examples.scorer_says "[8]") "duty of care"
       Examples.two_results) = Some [8%N]
  /\ Examples.two_results !! 1%nat = Some (Examples.hit 2 8 "b" 0.8)
  /\ (length [8%N] <= 1)%nat
  /\ exists kept,
       kept ∈ rerankWithAI (Examples.scorer_says "[8]") "duty of care"
                Examples.two_results
       /\ row kept = row (Examples.hit 2 8 "b" 0.8)
       /\ relevanceScore kept = Some 5%N
       /\ (4 <= 5)%N
       /\ similarity kept
          = (similarity (Examples.hit 2 8 "b" 0.8) * (1 + Q_of_N 5 / 20))%Q
       /\ (similarity kept == similarity (Examples.hit 2 8 "b" 0.8) * 1.25)%Q.
Proof.
  split; [reflexivity|]. split; [reflexivity|]. split; [simpl; lia|].
  apply (missing_score_defaults (Examples.scorer_says "[8]")
           "duty of care"%string Examples.two_results [8%N] 1%nat
           (Examples.hit 2 8 "b" 0.8)); [reflexivity|reflexivity|simpl; lia].
Defined.

End RerankFacts.

(* ===================================================================== *)
(** ** The multi-query route: the fallback of the query analysis *)
(* ===================================================================== *)

Section AnalyzerFacts.
Import JsString JsArray MultiQuery Spec.

Lemma cons_head_length c ps :
  ps <> [] -> length (cons_head c ps) = length ps.
Proof. by destruct ps. Qed.

Lemma split_space_nonempty s : split_space s <> [].
Proof.
  induction s as [|c s IH]; simpl; [done|].
  destruct (code c =? 32)%nat; [done|]. by destruct (split_space s).
Qed.

(** [s.split(' ')] has one piece more than [s] has spaces. *)
Lemma split_space_length s : length (split_space s) = S (count_spaces s).
Proof.
  induction s as [|c s IH]; simpl; [done|].
  destruct (code c =? 32)%nat; simpl; [by rewrite IH|].
  rewrite cons_head_length; [done|apply split_space_nonempty].
Qed.

Lemma analyzeQuery_unavailable w query :
  (analyzer_chat w query = Rejected
   \/ analyzer_chat w query = HttpError
   \/ analyzer_chat w query = HttpOk NoObject
   \/ analyzer_chat w query = HttpOk Malformed) ->
  analyzeQuery w query = analyzeQuery_fallback query.
Proof. unfold analyzeQuery. by intros [->|[->|[->| ->]]]. Qed.

(** C7 (as amended).  When the call to the analysis model throws, answers
    with a non-ok status, or its content holds no object that parses, the
    analysis returned has: the query itself as [originalQuery] and as only
    sub-query; as keywords the first five of the white-space separated
    words of the lower-cased query that are longer than 4 characters, with
    no stop-word removed; as legal concepts the words that belong to the
    fixed vocabulary; and the type "complex" exactly when splitting the
    query at single spaces gives more than 8 pieces, that is when the query
    has 8 space characters or more, and "simple" otherwise. *)
Theorem fallback_analysis (w : World) (query : string) :
  (analyzer_chat w query = Rejected
   \/ analyzer_chat w query = HttpError
   \/ analyzer_chat w query = HttpOk NoObject
   \/ analyzer_chat w query = HttpOk Malformed) ->
  let analysis := analyzeQuery w query in
  let words := split_ws (toLowerCase query) in
  let kws := take 5 (filter (fun x => 4 < String.length x) words) in
  originalQuery analysis = query
  /\ subQueries analysis = Items [query]
  /\ keywords analysis = Items kws
  /\ (length kws <= 5)%nat
  /\ Forall (fun k => (4 < String.length k)%nat /\ k ∈ words) kws
  /\ legalConcepts analysis
     = Items (filter (fun x => x ∈ legal_vocabulary) words)
  /\ (queryType analysis = "complex"%string
      <-> (8 < length (split_space query))%nat)
  /\ (queryType analysis = "complex"%string <-> (8 <= count_spaces query)%nat)
  /\ (queryType analysis = "simple"%string <-> (count_spaces query < 8)%nat).
Proof.
  intros H analysis words kws. unfold analysis.
  rewrite (analyzeQuery_unavailable w query H).
  unfold analyzeQuery_fallback, slice0.
  cbn [originalQuery subQueries keywords legalConcepts queryType].
  fold words. fold kws.
  split; [done|]. split; [done|]. split; [done|].
  split; [unfold kws; rewrite length_take; lia|].
  split.
  { apply Forall_forall. intros k Hk.
    assert (k ∈ filter (fun x => 4 < String.length x) words) as Hf.
    { eapply elem_of_sublist; [exact Hk|apply sublist_take]. }
    by apply list_elem_of_filter in Hf. }
  split.
  { f_equal. unfold mem. apply list_filter_iff. intros x.
    by rewrite bool_decide_eq_true. }
  rewrite split_space_length.
  destruct (8 <? S (count_spaces query))%nat eqn:E.
  - apply Nat.ltb_lt in E. repeat split; try done; lia.
  - apply Nat.ltb_ge in E. repeat split; try done; lia.
Qed.

(** The theorem on a query with a stop-word and two legal terms, when no
    call succeeds. *)
Lemma fallback_analysis_witness :
  analyzer_chat Examples.silent "Where is  the Negligence liability"
  = Rejected
  /\ keywords
       (analyzeQuery Examples.silent "Where is  the Negligence liability")
     = Items ["where"; "negligence"; "liability"]%string
  /\ legalConcepts
       (analyzeQuery Examples.silent "Where is  the Negligence liability")
     = Items ["negligence"; "liability"]%string
  /\ (queryType
        (analyzeQuery Examples.silent "Where is  the Negligence liability")
      = "simple"%string
      <-> (count_spaces "Where is  the Negligence liability" < 8)%nat).
Proof.
  split; [reflexivity|]. split; [reflexivity|]. split; [reflexivity|].
  apply (fallback_analysis Examples.silent
           "Where is  the Negligence liability"%string).
  by left.
Defined.

(** C7, the claim as stated fails: the fallback removes no stop-word.  For
    the query "where" it returns the keyword "where", a stop-word of the
    other routes, which the words "minus stopwords" exclude. *)
Lemma fallback_keywords_counterexample :
  keywords (analyzeQuery_fallback "where") = Items ["where"%string]
  /\ "where"%string ∈ KeywordBoost.stopwords
  /\ fallback_keywords "where" = []
  /\ ~ (forall query,
          keywords (analyzeQuery_fallback query)
          = Items (fallback_keywords query)).
Proof.
  split; [reflexivity|].
  split; [apply list_elem_of_In; simpl; tauto|].
  split; [reflexivity|].
  intros H. specialize (H "where"%string). discriminate H.
Qed.

End AnalyzerFacts.

(* ===================================================================== *)
(** ** Uniqueness of ids in the results *)
(* ===================================================================== *)

Section Uniqueness.
Import JsString JsArray Spec.

Lemma NoDup_ids_sublist (l1 l2 : list SearchResult) :
  l1 `sublist_of` l2 -> NoDup (map rid l2) -> NoDup (map rid l1).
Proof.
  intros Hsub Hnd. eapply sublist_NoDup; [exact Hnd|]. by apply fmap_sublist.
Qed.

Lemma NoDup_ids_sort (key : SearchResult -> Q) (l : list SearchResult) :
  NoDup (map rid l) -> NoDup (map rid (sort (desc_by key) l)).
Proof. intros H. by rewrite (sort_perm key l). Qed.

(** The keyword-boost route returns pairwise distinct ids. *)
Lemma keyword_boost_unique w query :
  NoDup (map rid (KeywordBoost.final_results w query)).
Proof.
  unfold KeywordBoost.final_results, slice0.
  eapply NoDup_ids_sublist; [apply sublist_take|apply dedup_by_id_NoDup].
Qed.

Lemma rid_imap (f : nat -> SearchResult -> SearchResult) l :
  (forall i r, rid (f i r) = rid r) -> map rid (imap f l) = map rid l.
Proof.
  revert f. induction l as [|x l IH]; intros f Hf; [done|].
  rewrite imap_cons. simpl. rewrite Hf. f_equal. apply IH.
  intros i r. apply Hf.
Qed.

Lemma rid_apply_score scores l :
  map rid (imap (Rerank.apply_score scores) l) = map rid l.
Proof. by apply rid_imap. Qed.

Lemma rerankWithAI_unique w query l :
  NoDup (map rid l) -> NoDup (map rid (Rerank.rerankWithAI w query l)).
Proof.
  intros H. unfold Rerank.rerankWithAI.
  destruct (Rerank.scores_of_reply _) as [scores|].
  - unfold Rerank.rerank_with_scores.
    apply (NoDup_ids_sort Rerank.combined_score).
    eapply NoDup_ids_sublist; [apply sublist_filter|].
    by rewrite rid_apply_score.
  - by apply (NoDup_ids_sort similarity).
Qed.

(** The AI-rerank route returns pairwise distinct ids. *)
Lemma rerank_unique w query req_court :
  NoDup (map rid (Rerank.final_results w query req_court)).
Proof.
  unfold Rerank.final_results, slice0.
  eapply NoDup_ids_sublist; [apply sublist_take|].
  assert (NoDup (map rid (Rerank.candidates w query req_court))) as H
    by apply dedup_by_id_NoDup.
  destruct (0 <? _)%nat; [|done].
  apply rerankWithAI_unique.
  eapply NoDup_ids_sublist; [apply sublist_take|done].
Qed.

Lemma merge_row_unique label factor allResults result :
  NoDup (map rid allResults) ->
  NoDup (map rid (MultiQuery.merge_row label factor allResults result)).
Proof.
  intros H. unfold MultiQuery.merge_row.
  destruct (find_index _ allResults) as [[i existing]|] eqn:E.
  - apply find_index_Some in E as (Hi & _ & _).
    change (NoDup (rid <$> <[i := set_similarity
                      (Qmin 1 (similarity existing * factor))
                      (MultiQuery.push_query label existing)]> allResults)).
    rewrite list_fmap_insert, list_insert_id; [done|].
    by rewrite list_lookup_fmap, Hi.
  - apply find_index_None in E.
    change (NoDup (rid <$> allResults
                     ++ [set_matchedQueries (Some [label]) result])).
    rewrite fmap_app. apply NoDup_app. split; [done|]. split.
    + intros x (r & -> & Hr)%list_elem_of_fmap [Hx|?%elem_of_nil]%elem_of_cons;
        [|done].
      eapply Forall_forall in E; [|exact Hr]. apply E. by apply Z.eqb_eq.
    + apply NoDup_singleton.
Qed.

Lemma merge_rows_unique label factor rows allResults :
  NoDup (map rid allResults) ->
  NoDup (map rid (foldl (MultiQuery.merge_row label factor) allResults rows)).
Proof.
  revert allResults. induction rows as [|r rows IH]; intros allResults H;
    simpl; [done|].
  by apply IH, merge_row_unique.
Qed.

(** The multi-query route returns pairwise distinct ids when the main
    search does: the merge never adds an entry for an id it holds, and
    nothing else in the route removes a duplicate. *)
Lemma multi_query_unique_from_main w query req_court queryAnalysis :
  NoDup (map rid (MultiQuery.semanticSearch w query req_court 0.40)) ->
  NoDup (map rid (MultiQuery.final_results w query req_court queryAnalysis)).
Proof.
  intros Hmain.
  unfold MultiQuery.final_results.
  eapply NoDup_ids_sublist; [apply diversifyResults_sublist; lia|].
  unfold MultiQuery.ranked_results. apply (NoDup_ids_sort similarity).
  rewrite map_map. simpl.
  unfold MultiQuery.merged_results. rewrite keyword_stage_fold.
  apply merge_rows_unique.
  assert (forall subs allResults,
            NoDup (map rid allResults) ->
            NoDup (map rid
                     (foldl (MultiQuery.subquery_step w req_court)
                            allResults subs))) as Hsubs.
  { induction subs as [|s subs IH]; intros allResults H; simpl; [done|].
    apply IH. by apply merge_rows_unique. }
  apply Hsubs. by rewrite map_map.
Qed.

(** C4, where the code departs from it.  In the multi-query route, a main
    search that answers with the same row twice leaves two results of one
    id in the final list: the merge looks up the ids of the later searches
    only, and the step headed "Re-rank and Deduplicate" removes nothing. *)
Theorem multi_query_duplicate_ids :
  map rid
    (MultiQuery.semanticSearch Examples.twice "tort" None 0.40) = [1; 1]%Z
  /\ map rid
       (MultiQuery.final_results Examples.twice "tort" None
          (MultiQuery.analyzeQuery Examples.twice "tort")) = [1; 1]%Z
  /\ ~ NoDup
         (map rid
            (MultiQuery.final_results Examples.twice "tort" None
               (MultiQuery.analyzeQuery Examples.twice "tort"))).
Proof.
  split; [reflexivity|].
  assert (map rid
            (MultiQuery.final_results Examples.twice "tort" None
               (MultiQuery.analyzeQuery Examples.twice "tort")) = [1; 1]%Z)
    as E by (vm_compute; reflexivity).
  split; [exact E|]. rewrite E.
  intros H. apply NoDup_cons in H as [Hin _]. apply Hin. by left.
Qed.

End Uniqueness.

(* ===================================================================== *)
(** ** When the retrieval signals fail *)
(* ===================================================================== *)

Section Degradation.
Import JsString JsArray Spec.

Lemma rows_of_nil {A} (reply : Reply (list A)) :
  rows_of reply = [] <-> no_rows reply.
Proof.
  unfold no_rows. destruct reply as [| |rows]; simpl.
  - split; [by left|done].
  - split; [by right; left|done].
  - split; [intros ->; by right; right|].
    intros [?|[?|?]]; congruence.
Qed.

Lemma found_rows_nil w limit kws :
  found_rows w limit kws = []
  <-> Forall (fun kw => no_rows (case_chunks w kw limit)) kws.
Proof.
  unfold found_rows. induction kws as [|kw kws IH]; cbn [flat_map].
  - split; [constructor|done].
  - rewrite Forall_cons, <- IH, <- rows_of_nil. split.
    + by intros [? ?]%app_eq_nil.
    + by intros [-> ->].
Qed.

Lemma take_nil_iff {A} n (l : list A) :
  (0 < n)%nat -> take n l = [] <-> l = [].
Proof.
  intros Hn. split; [|intros ->; by destruct n].
  destruct n; [lia|]. destruct l; [done|]. simpl. discriminate.
Qed.

Lemma dedup_by_id_nil l : dedup_by_id ∅ l = [] <-> l = [].
Proof.
  split; [|by intros ->]. destruct l as [|r l]; [done|].
  cbn [dedup_by_id]. by rewrite decide_False by apply not_elem_of_empty.
Qed.

Lemma sort_nil_iff {A} (key : A -> Q) (l : list A) :
  sort (desc_by key) l = [] <-> l = [].
Proof.
  split; [|by intros ->]. intros H.
  apply length_zero_iff_nil. rewrite <- (sort_length key), H. done.
Qed.

Lemma diversifyResults_nil l :
  MultiQuery.diversifyResults l 10 = [] <-> l = [].
Proof.
  split; [|by intros ->]. rewrite diversifyResults_walk by lia.
  by destruct l.
Qed.

(** *** The keyword-boost route *)

Lemma boost_candidates_nil w q :
  foldl (KeywordBoost.keyword_step w) (KeywordBoost.semantic_results w q)
        (slice0 5 (KeywordBoost.extract_keywords q)) = []
  <-> keyword_boost_silent w q.
Proof.
  unfold keyword_boost_silent.
  rewrite boost_keyword_steps_fold, boost_merge_keyword_row_shape.
  rewrite (merge_all_nil id), found_rows_nil; [done|done|].
  intros e. by case_bool_decide.
Qed.

Lemma boost_final_nil w q :
  KeywordBoost.final_results w q = [] <-> keyword_boost_silent w q.
Proof.
  unfold KeywordBoost.final_results, KeywordBoost.sorted_candidates.
  cbv zeta. unfold slice0 at 1.
  rewrite take_nil_iff by lia. rewrite dedup_by_id_nil.
  change by_similarity_desc with (desc_by similarity).
  rewrite sort_nil_iff. rewrite <- boost_candidates_nil.
  split; [apply fmap_nil_inv|by intros ->].
Qed.

Lemma boost_semantic_fails w q :
  fails (match_legal_chunks w q 0.30 20) ->
  KeywordBoost.semantic_results w q = [].
Proof.
  intros H. unfold KeywordBoost.semantic_results.
  destruct (hf_embedding w q) as [| |e]; [done|done|].
  destruct (KeywordBoost.usable_embedding e); [|done].
  by destruct H as [-> | ->].
Qed.

(** *** The AI-rerank route *)

Lemma dedup_by_id_skip seen l x rest :
  rid x ∈ seen \/ rid x ∈ map rid l ->
  dedup_by_id seen (l ++ x :: rest) = dedup_by_id seen (l ++ rest).
Proof.
  revert seen. induction l as [|y l IH]; intros seen H.
  - destruct H as [H|H%elem_of_nil]; [|done].
    cbn [app dedup_by_id]. by rewrite decide_True.
  - cbn [app dedup_by_id]. case_decide as Hy.
    + apply IH. destruct H as [?|[->|?]%elem_of_cons]; auto.
    + f_equal. apply IH. destruct H as [?|[Heq|?]%elem_of_cons]; auto.
      * left. apply elem_of_union. by right.
      * left. apply elem_of_union. left. apply elem_of_singleton. done.
Qed.

(** The look-up of the merge does what the deduplication does: the
    candidates are what deduplication leaves of the list followed by all
    the rows found. *)
Lemma rerank_dedup_merge rows allResults :
  dedup_by_id ∅ (foldl Rerank.merge_keyword_row allResults rows)
  = dedup_by_id ∅
      (allResults
       ++ map (fun c => of_chunk c 0.5 (Some "keyword"%string)) rows).
Proof.
  revert allResults. induction rows as [|c rows IH]; intros allResults.
  - by rewrite app_nil_r.
  - cbn [foldl map]. rewrite IH. unfold Rerank.merge_keyword_row.
    destruct (find_index _ allResults) as [[i existing]|] eqn:E.
    + apply find_index_Some in E as (Hi & Hp & _). apply Z.eqb_eq in Hp.
      symmetry. apply dedup_by_id_skip. right.
      change (rid (of_chunk c 0.5 (Some "keyword"%string))) with (id c).
      rewrite <- Hp. apply list_elem_of_fmap. exists existing.
      split; [done|]. by eapply list_elem_of_lookup_2.
    + by rewrite <- app_assoc.
Qed.

Lemma rerank_candidates_rows w q req_court :
  Rerank.candidates w q req_court
  = dedup_by_id ∅
      (Rerank.semantic_results w q req_court
       ++ map (fun c => of_chunk c 0.5 (Some "keyword"%string))
            (found_rows w 8 (slice0 4 (Rerank.extract_keywords q)))).
Proof.
  unfold Rerank.candidates.
  by rewrite rerank_keyword_steps_fold, rerank_dedup_merge.
Qed.

Lemma rerank_candidates_nil w q req_court :
  Rerank.candidates w q req_court = [] <-> rerank_silent w q req_court.
Proof.
  unfold rerank_silent.
  rewrite rerank_candidates_rows, dedup_by_id_nil, <- found_rows_nil.
  split.
  - intros [-> H]%app_eq_nil. by apply fmap_nil_inv in H.
  - by intros [-> ->].
Qed.

Lemma rerank_semantic_fails w q req_court :
  (forall filter_court, fails (qdrant_query w q filter_court)) ->
  Rerank.semantic_results w q req_court = [].
Proof.
  intros H. unfold Rerank.semantic_results.
  destruct (hf_embedding w q) as [| |e]; [done|done|].
  destruct (Rerank.usable_embedding e); [|done].
  match goal with |- context [qdrant_query w q ?c] =>
    by destruct (H c) as [-> | ->] end.
Qed.

(** *** The multi-query route *)

Lemma subqueries_nil w req_court subs allResults :
  foldl (MultiQuery.subquery_step w req_court) allResults subs = []
  <-> allResults = []
      /\ Forall (fun sub => MultiQuery.semanticSearch w sub req_court 0.45 = [])
           subs.
Proof.
  revert allResults. induction subs as [|s subs IH]; intros allResults;
    cbn [foldl].
  - split; [by intros ->|by intros [-> _]].
  - rewrite IH, Forall_cons. unfold MultiQuery.subquery_step.
    rewrite merge_row_shape, (merge_all_nil rid); [tauto|done..].
Qed.

Lemma merged_results_nil w q req_court analysis :
  MultiQuery.merged_results w q req_court analysis = []
  <-> multi_query_silent w q req_court analysis.
Proof.
  unfold MultiQuery.merged_results, multi_query_silent.
  rewrite keyword_stage_fold, merge_row_shape, (merge_all_nil rid) by done.
  rewrite subqueries_nil. split.
  - intros [[H ?] ?]. by apply fmap_nil_inv in H.
  - by intros (-> & ? & ?).
Qed.

Lemma multi_query_final_nil w q req_court analysis :
  MultiQuery.final_results w q req_court analysis = []
  <-> multi_query_silent w q req_court analysis.
Proof.
  unfold MultiQuery.final_results, MultiQuery.ranked_results.
  rewrite diversifyResults_nil.
  change by_similarity_desc with (desc_by similarity).
  rewrite sort_nil_iff, <- merged_results_nil.
  split; [apply fmap_nil_inv|by intros ->].
Qed.

Lemma semanticSearch_fails w text req_court threshold :
  fails (match_legal_chunks w text threshold 15) ->
  MultiQuery.semanticSearch w text req_court threshold = [].
Proof.
  intros H. unfold MultiQuery.semanticSearch.
  destruct (hf_embedding w text) as [| |e]; [done|done|].
  destruct (MultiQuery.usable_embedding e); [|done].
  by destruct H as [-> | ->].
Qed.

(** C8 (as amended).  A request with a query, in each of the three routes
    that fuse signals.  When every retrieval signal of the request fails
    or yields no candidate, the keyword-boost and the AI-rerank route
    answer with status 200, no result and their fixed text for the query
    (the keyword-boost route in that case only; in the AI-rerank route no
    candidate reaches the rerank stage in that case only); the multi-query
    route has no result in that case only, and then answers with status
    200 and its guidance text, unless the analysis holds, where the
    sub-queries are expected, a value that cannot be iterated, or where
    the legal concepts are expected, a value of positive length that is
    no array: then it answers with status 500.  A vector store that
    throws or answers with a non-ok status leaves the request going on
    with the keyword rows: the candidates are then made of the rows of
    the text searches alone, one entry for each id.  The first route is
    different: once the embedding is had, a non-ok answer of the vector
    store ends the request with status 500. *)
Theorem silent_signals_give_guidance (w : World) (q : string)
    (req_court : option string) :
  q <> EmptyString ->
  let analysis := MultiQuery.analyzeQuery w q in
  (keyword_boost_silent w q
   <-> KeywordBoost.POST w (Some q)
       = mkResponse 200
           (SearchBody q None [] (Some (KeywordBoost.no_results_text q))))
  /\ (rerank_silent w q req_court
      <-> Rerank.candidates w q req_court = [])
  /\ (rerank_silent w q req_court ->
      Rerank.POST w (Some q) req_court
      = mkResponse 200
          (SearchBody q None []
             (Some ("No relevant cases found for " ++ quote ++ q ++ quote
                    ++ ".")%string)))
  /\ (multi_query_silent w q req_court analysis
      <-> MultiQuery.final_results w q req_court analysis = [])
  /\ (multi_query_silent w q req_court analysis ->
      MultiQuery.POST w (Some q) req_court
      = match MultiQuery.iterate (subQueries analysis),
              MultiQuery.joined (legalConcepts analysis) with
        | Some _, Some concepts =>
            mkResponse 200
              (SearchBody q (Some analysis) []
                 (Some (MultiQuery.guidance_text q concepts)))
        | _, _ => MultiQuery.failed
        end)
  /\ (fails (match_legal_chunks w q 0.30 20) ->
      KeywordBoost.sorted_candidates w q
      = sort by_similarity_desc
          (map (KeywordBoost.boost_result (KeywordBoost.extract_keywords q))
             (new_entries id
                (fun c => of_chunk c 0.6 (Some "keyword"%string))
                (fun e => if bool_decide (source e = Some "keyword"%string)
                          then set_similarity
                                 (Qmin 0.9 (similarity e + 0.1)) e
                          else e)
                []
                (found_rows w 10
                   (slice0 5 (KeywordBoost.extract_keywords q))))))
  /\ ((forall filter_court, fails (qdrant_query w q filter_court)) ->
      Rerank.candidates w q req_court
      = dedup_by_id ∅
          (map (fun c => of_chunk c 0.5 (Some "keyword"%string))
             (found_rows w 8 (slice0 4 (Rerank.extract_keywords q)))))
  /\ ((forall text threshold,
          fails (match_legal_chunks w text threshold 15)) ->
      MultiQuery.merged_results w q req_court analysis
      = new_entries rid (set_matchedQueries (Some ["keyword"%string]))
          (fun e => set_similarity (Qmin 1 (similarity e * 1.1))
                      (MultiQuery.push_query "keyword" e))
          []
          (MultiQuery.keywordSearch w (keywords analysis) req_court))
  /\ (iflow_embedding w q = HttpOk true ->
      match_legal_chunks w q 0.4 8 = HttpError ->
      Basic.POST w (Some q) = mkResponse 500 (ErrorBody "Search failed")).
Proof.
  intros Hq analysis.
  split; [|split; [|split; [|split; [|split; [|split; [|split; [|split]]]]]]].
  - rewrite <- boost_final_nil. unfold KeywordBoost.POST.
    rewrite bool_decide_eq_false_2 by done. split.
    + by intros ->.
    + intros H. by injection H as H _.
  - by rewrite rerank_candidates_nil.
  - intros H%rerank_candidates_nil. unfold Rerank.POST, Rerank.final_results.
    rewrite bool_decide_eq_false_2 by done. by rewrite H.
  - by rewrite multi_query_final_nil.
  - intros H%multi_query_final_nil. unfold MultiQuery.POST.
    rewrite bool_decide_eq_false_2 by done. fold analysis. rewrite H.
    unfold MultiQuery.generateNoResultsGuidance.
    destruct (MultiQuery.iterate _); [|done].
    by destruct (MultiQuery.joined _).
  - intros H. unfold KeywordBoost.sorted_candidates.
    rewrite (boost_semantic_fails w q H).
    rewrite boost_keyword_steps_fold, boost_merge_keyword_row_shape.
    rewrite (merge_all_fixed id); [done|done| |done].
    intros e. by case_bool_decide.
  - intros H. rewrite rerank_candidates_rows.
    by rewrite (rerank_semantic_fails w q req_court H).
  - intros H. unfold MultiQuery.merged_results.
    rewrite keyword_stage_fold, merge_row_shape.
    rewrite (semanticSearch_fails w q req_court _ (H q _)). cbn [map].
    assert (foldl (MultiQuery.subquery_step w req_court) []
              (MultiQuery.iterated (subQueries analysis)) = []) as ->.
    { apply subqueries_nil. split; [done|]. apply Forall_forall.
      intros sub _. apply semanticSearch_fails, H. }
    by rewrite (merge_all_fixed rid).
  - intros He Hs. unfold Basic.POST.
    rewrite bool_decide_eq_false_2 by done. by rewrite He, Hs.
Qed.

(** The theorem when every call throws. *)
Lemma silent_signals_give_guidance_witness :
  "tort"%string <> EmptyString
  /\ keyword_boost_silent Examples.silent "tort"
  /\ KeywordBoost.POST Examples.silent (Some "tort"%string)
     = mkResponse 200
         (SearchBody "tort" None []
            (Some (KeywordBoost.no_results_text "tort"))).
Proof.
  assert (keyword_boost_silent Examples.silent "tort") as H.
  { split; [reflexivity|]. apply Forall_forall. intros kw _. by left. }
  split; [discriminate|]. split; [exact H|].
  destruct (silent_signals_give_guidance Examples.silent "tort"%string None)
    as (Hboost & _); [discriminate|].
  apply Hboost. exact H.
Defined.

(** C8, the claim as stated fails in the first route: the embedding is
    had, the vector store answers with a non-ok status and every other
    call throws, so every retrieval signal fails; the request ends with
    status 500. *)
Lemma vector_failure_counterexample :
  signals_silent Examples.vector_down
  /\ match_legal_chunks Examples.vector_down "tort" 0.4%Q 8%nat = HttpError
  /\ Basic.POST Examples.vector_down (Some "tort"%string)
     = mkResponse 500 (ErrorBody "Search failed")
  /\ status (Basic.POST Examples.vector_down (Some "tort"%string)) <> 200%nat.
Proof.
  split.
  { split; [|split]; intros; [right; split; intros| |].
    - right. by left.
    - by left.
    - by left.
    - by left. }
  split; [reflexivity|]. split; [reflexivity|]. discriminate.
Qed.

(** The multi-query route on an analysis that holds a string where the
    legal concepts are expected, when nothing is found: the guidance text
    throws on it, and the request ends with status 500. *)
Lemma loose_analysis_fails :
  MultiQuery.analyzeQuery Examples.loose_analysis "tort"
  = mkAnalysis "tort" (Items []) (Items []) (Text "negligence") "complex"
  /\ multi_query_silent Examples.loose_analysis "tort" None
       (MultiQuery.analyzeQuery Examples.loose_analysis "tort")
  /\ MultiQuery.POST Examples.loose_analysis (Some "tort"%string) None
     = mkResponse 500 (ErrorBody "Search failed. Please try again.").
Proof.
  split; [reflexivity|]. split; [|reflexivity].
  split; [reflexivity|]. split; [constructor|reflexivity].
Qed.

End Degradation.

(* ===================================================================== *)
(** ** Further facts: order, bounds and shape of what the routes return *)
(* ===================================================================== *)

Section Ranking.
Import JsString JsArray Spec.

Lemma sorted_desc_take {A} (key : A -> Q) n (l : list A) :
  sorted_desc key l -> sorted_desc key (take n l).
Proof. apply sorted_desc_sublist, sublist_take. Qed.

(** What the keyword-boost route returns: at most ten results, of pairwise
    distinct ids, in descending order of score. *)
Theorem keyword_boost_final_shape (w : World) (query : string) :
  (length (KeywordBoost.final_results w query) <= 10)%nat
  /\ NoDup (map rid (KeywordBoost.final_results w query))
  /\ sorted_desc similarity (KeywordBoost.final_results w query).
Proof.
  split; [|split].
  - unfold KeywordBoost.final_results, slice0. rewrite length_take. lia.
  - apply keyword_boost_unique.
  - unfold KeywordBoost.final_results, slice0.
    apply sorted_desc_take.
    eapply sorted_desc_sublist; [apply dedup_by_id_sublist|].
    apply (sort_sorted_desc similarity).
Qed.

(** What the multi-query route returns: at most ten results, at most three
    of one case, in descending order of score. *)
Theorem multi_query_final_shape (w : World) (query : string)
    (req_court : option string) (queryAnalysis : QueryAnalysis) :
  let final := MultiQuery.final_results w query req_court queryAnalysis in
  (length final <= 10)%nat
  /\ (forall cid, (emitted_of cid final <= 3)%nat)
  /\ sorted_desc similarity final.
Proof.
  intros final. unfold final, MultiQuery.final_results.
  rewrite diversifyResults_walk by lia.
  split; [rewrite length_take; lia|]. split.
  - intros cid.
    etrans; [apply emitted_of_sublist, sublist_take|].
    apply (capped_walk_cap MultiQuery.maxPerCase [] _ cid).
    unfold emitted_of. simpl. lia.
  - apply sorted_desc_take.
    eapply sorted_desc_sublist; [apply capped_walk_sublist|].
    apply (sort_sorted_desc similarity).
Qed.

End Ranking.

Section DiversifyMore.
Import JsString JsArray MultiQuery Spec.

Lemma emitted_of_le_length cid (l : list SearchResult) :
  (emitted_of cid l <= length l)%nat.
Proof. apply length_filter. Qed.

Lemma emitted_of_app cid (l1 l2 : list SearchResult) :
  emitted_of cid (l1 ++ l2) = (emitted_of cid l1 + emitted_of cid l2)%nat.
Proof. unfold emitted_of. by rewrite filter_app, length_app. Qed.

Lemma capped_walk_all m emitted l :
  (forall cid, (emitted_of cid (emitted ++ l) <= m)%nat) ->
  capped_walk m emitted l = l.
Proof.
  revert emitted. induction l as [|r l IH]; intros emitted H; [done|].
  cbn [capped_walk].
  assert (emitted_of (case_id (row r)) emitted < m)%nat as Hlt.
  { specialize (H (case_id (row r))).
    rewrite emitted_of_app in H.
    assert (1 <= emitted_of (case_id (row r)) (r :: l))%nat; [|lia].
    unfold emitted_of. rewrite filter_cons_True by done. simpl. lia. }
  apply Nat.ltb_lt in Hlt. rewrite Hlt. f_equal. apply IH.
  intros cid. by rewrite <- app_assoc.
Qed.

Lemma capped_walk_take m emitted l n :
  (length emitted + n <= m)%nat ->
  take n (capped_walk m emitted l) = take n l.
Proof.
  revert emitted n. induction l as [|r l IH]; intros emitted n H; [done|].
  destruct n as [|n]; [done|]. cbn [capped_walk].
  assert (emitted_of (case_id (row r)) emitted < m)%nat as Hlt.
  { pose proof (emitted_of_le_length (case_id (row r)) emitted). lia. }
  apply Nat.ltb_lt in Hlt. rewrite Hlt. cbn [take]. f_equal.
  apply IH. rewrite length_app. simpl. lia.
Qed.

(** When no case has more than three candidates, diversification changes
    nothing: the result is the first [maxResults] candidates. *)
Theorem diversifyResults_diverse_input (results : list SearchResult)
    (maxResults : nat) :
  (0 < maxResults)%nat ->
  (forall cid, (emitted_of cid results <= maxPerCase)%nat) ->
  diversifyResults results maxResults = take maxResults results.
Proof.
  intros Hpos H. rewrite diversifyResults_walk by done.
  by rewrite capped_walk_all.
Qed.

Lemma diversifyResults_diverse_input_witness :
  (0 < 10)%nat
  /\ (forall cid, (emitted_of cid Examples.two_results <= maxPerCase)%nat)
  /\ diversifyResults Examples.two_results 10 = Examples.two_results.
Proof.
  assert (forall cid,
             (emitted_of cid Examples.two_results <= maxPerCase)%nat) as H.
  { intros cid. etrans; [apply emitted_of_le_length|]. simpl.
    unfold maxPerCase. lia. }
  split; [lia|]. split; [exact H|].
  apply (diversifyResults_diverse_input Examples.two_results 10); [lia|exact H].
Defined.

(** The three best candidates are never displaced: the first three results
    (the first [maxResults], if that is less) are the first three
    candidates. *)
Theorem diversifyResults_keeps_top (results : list SearchResult)
    (maxResults : nat) :
  (0 < maxResults)%nat ->
  take (Nat.min maxPerCase maxResults)
       (diversifyResults results maxResults)
  = take (Nat.min maxPerCase maxResults) results.
Proof.
  intros Hpos. rewrite diversifyResults_walk by done.
  rewrite take_take.
  replace (Nat.min (Nat.min maxPerCase maxResults) maxResults)
    with (Nat.min maxPerCase maxResults) by lia.
  apply capped_walk_take. cbn [length]. lia.
Qed.

Lemma diversifyResults_keeps_top_witness :
  (0 < 10)%nat
  /\ map rid (take 3 (diversifyResults Examples.five_results 10))
     = [1; 2; 3]%Z
  /\ take (Nat.min maxPerCase 10)
          (diversifyResults Examples.five_results 10)
     = take (Nat.min maxPerCase 10) Examples.five_results.
Proof.
  split; [lia|]. split; [reflexivity|].
  apply (diversifyResults_keeps_top Examples.five_results 10). lia.
Defined.

End DiversifyMore.

Section MergeMore.
Import JsString JsArray MultiQuery Spec.

Lemma merge_row_ids label factor allResults result :
  map rid (merge_row label factor allResults result)
  = map rid allResults
    ++ (if decide (rid result ∈ map rid allResults) then []
        else [rid result]).
Proof.
  unfold merge_row.
  destruct (find_index _ allResults) as [[i existing]|] eqn:E.
  - apply find_index_Some in E as (Hi & Hp & _). apply Z.eqb_eq in Hp.
    rewrite decide_True.
    + rewrite app_nil_r.
      change (rid <$> <[i := set_similarity
                        (Qmin 1 (similarity existing * factor))
                        (push_query label existing)]> allResults
              = rid <$> allResults).
      rewrite list_fmap_insert, list_insert_id; [done|].
      by rewrite list_lookup_fmap, Hi.
    + rewrite <- Hp. apply list_elem_of_fmap. exists existing.
      split; [done|]. by eapply list_elem_of_lookup_2.
  - apply find_index_None in E. rewrite decide_False.
    + change (rid <$> allResults ++ [set_matchedQueries (Some [label]) result]
              = (rid <$> allResults) ++ [rid result]).
      by rewrite fmap_app.
    + intros (r & Hr & Hin)%list_elem_of_fmap.
      eapply Forall_forall in E; [|exact Hin]. apply E. by apply Z.eqb_eq.
Qed.

Lemma merge_rows_ids label factor rows allResults :
  map rid allResults
    `prefix_of` map rid (foldl (merge_row label factor) allResults rows)
  /\ forall z,
       z ∈ map rid (foldl (merge_row label factor) allResults rows)
       <-> z ∈ map rid allResults \/ z ∈ map rid rows.
Proof.
  revert allResults. induction rows as [|r rows IH]; intros allResults.
  - simpl. split; [done|]. intros z. split; [by left|].
    by intros [?|?%elem_of_nil].
  - cbn [foldl]. destruct (IH (merge_row label factor allResults r))
      as [Hpre Hin].
    rewrite merge_row_ids in Hpre, Hin. split.
    + etrans; [|exact Hpre]. by apply prefix_app_r.
    + intros z. rewrite Hin, elem_of_app. cbn [map]. rewrite elem_of_cons.
      case_decide as Hd.
      * rewrite elem_of_nil. split; [tauto|].
        intros [?|[->|?]]; tauto.
      * rewrite list_elem_of_singleton. tauto.
Qed.

Lemma subqueries_ids w req_court subs allResults :
  map rid allResults
    `prefix_of` map rid (foldl (subquery_step w req_court) allResults subs)
  /\ forall z,
       z ∈ map rid (foldl (subquery_step w req_court) allResults subs)
       <-> z ∈ map rid allResults
           \/ exists sub, sub ∈ subs
                /\ z ∈ map rid (semanticSearch w sub req_court 0.45).
Proof.
  revert allResults. induction subs as [|s subs IH]; intros allResults.
  - simpl. split; [done|]. intros z. split; [by left|].
    by intros [?|(sub & ?%elem_of_nil & _)].
  - cbn [foldl]. destruct (IH (subquery_step w req_court allResults s))
      as [Hpre Hin].
    destruct (merge_rows_ids s 1.15%Q
                (semanticSearch w s req_court 0.45) allResults)
      as [Hpre1 Hin1].
    fold (subquery_step w req_court allResults s) in Hpre1, Hin1.
    split; [by etrans|].
    intros z. rewrite Hin, Hin1. split.
    + intros [[?|?]|(sub & ? & ?)]; [by left| |].
      * right. exists s. split; [by left|done].
      * right. exists sub. split; [by right|done].
    + intros [?|(sub & [->|?]%elem_of_cons & ?)]; [by left;left| |].
      * left. by right.
      * right. by exists sub.
Qed.

(** The merge of the multi-query route loses no candidate and invents
    none: the main results keep their places at the head of the list, and
    the ids of the merged list are those of the main search, of the
    searches of the sub-queries and of the keyword search; whatever the
    route returns has one of these ids. *)
Theorem merged_results_ids (w : World) (query : string)
    (req_court : option string) (queryAnalysis : QueryAnalysis) :
  let main := semanticSearch w query req_court 0.40 in
  let found z :=
    z ∈ map rid main
    \/ (exists sub, sub ∈ iterated (subQueries queryAnalysis)
          /\ z ∈ map rid (semanticSearch w sub req_court 0.45))
    \/ z ∈ map rid (keywordSearch w (keywords queryAnalysis) req_court) in
  map rid main
    `prefix_of` map rid (merged_results w query req_court queryAnalysis)
  /\ (forall z,
         z ∈ map rid (merged_results w query req_court queryAnalysis)
         <-> found z)
  /\ Forall (fun r => found (rid r))
            (final_results w query req_court queryAnalysis).
Proof.
  intros main found.
  assert (map rid main
            `prefix_of` map rid (merged_results w query req_court queryAnalysis)
          /\ forall z,
               z ∈ map rid (merged_results w query req_court queryAnalysis)
               <-> found z) as [Hpre Hin].
  { unfold merged_results. rewrite keyword_stage_fold. fold main.
    destruct (subqueries_ids w req_court (iterated (subQueries queryAnalysis))
                (map (set_matchedQueries (Some ["main"%string])) main))
      as [Hpre1 Hin1].
    rewrite map_map in Hpre1. cbn [rid set_matchedQueries row] in Hpre1.
    assert (forall z,
              z ∈ map rid (map (set_matchedQueries (Some ["main"%string])) main)
              <-> z ∈ map rid main) as Hmain
      by (intros z; by rewrite map_map).
    destruct (merge_rows_ids "keyword" 1.1%Q
                (keywordSearch w (keywords queryAnalysis) req_court)
                (foldl (subquery_step w req_court)
                   (map (set_matchedQueries (Some ["main"%string])) main)
                   (iterated (subQueries queryAnalysis)))) as [Hpre2 Hin2].
    split; [by etrans|].
    intros z. rewrite Hin2, Hin1, Hmain. unfold found. tauto. }
  split; [done|]. split; [done|].
  apply Forall_forall. intros r Hr. apply Hin.
  unfold final_results in Hr.
  assert (r ∈ ranked_results w query req_court queryAnalysis) as Hr'.
  { eapply elem_of_sublist; [exact Hr|]. apply diversifyResults_sublist. lia. }
  unfold ranked_results in Hr'.
  change by_similarity_desc with (desc_by similarity) in Hr'.
  rewrite elem_of_sort in Hr'.
  apply list_elem_of_fmap in Hr' as (r0 & -> & Hr0).
  apply list_elem_of_fmap. by exists r0.
Qed.

End MergeMore.

Section KeywordRows.
Import JsString JsArray Spec.

Section NewEntries.
Context {A : Type} (key : A -> Z) (make : A -> SearchResult)
        (update : SearchResult -> SearchResult).
Hypothesis make_rid : forall x, rid (make x) = key x.
Hypothesis update_rid : forall e, rid (update e) = rid e.

Lemma rid_iter_update n e : rid (Nat.iter n update e) = rid e.
Proof.
  induction n as [|n IH]; [done|]. by rewrite Nat.iter_succ, update_rid.
Qed.

(** One entry is pushed for each new id, in the order the ids arrive. *)
Lemma new_entries_ids seen xs :
  map rid (new_entries key make update seen xs) = new_ids seen (map key xs).
Proof.
  revert seen. induction xs as [|x xs IH]; intros seen; [done|].
  cbn [new_entries new_ids map]. case_decide; [done|].
  cbn [map]. by rewrite rid_iter_update, make_rid, IH.
Qed.

(** Each entry pushed is made of one of the rows, and then updated. *)
Lemma new_entries_made seen xs :
  Forall (fun r => exists x n, x ∈ xs /\ r = Nat.iter n update (make x))
         (new_entries key make update seen xs).
Proof.
  revert seen. induction xs as [|x xs IH]; intros seen; [constructor|].
  cbn [new_entries].
  assert (forall seen',
            Forall (fun r => exists y n,
                        y ∈ x :: xs /\ r = Nat.iter n update (make y))
                   (new_entries key make update seen' xs)) as Hrest.
  { intros seen'. eapply Forall_impl; [apply IH|].
    intros r (y & n & Hy & ->). exists y, n. split; [by right|done]. }
  case_decide; [done|]. constructor; [|done].
  eexists x, _. split; [by left|done].
Qed.
End NewEntries.

Lemma semantic_results_source w q :
  Forall (fun r => source r = Some "semantic"%string)
         (KeywordBoost.semantic_results w q).
Proof.
  unfold KeywordBoost.semantic_results.
  destruct (hf_embedding w q) as [| |e]; [done|done|].
  destruct (KeywordBoost.usable_embedding e); [|done].
  destruct (match_legal_chunks w q 0.30 20) as [| |rows]; [done|done|].
  apply Forall_fmap, Forall_forall. by intros r _.
Qed.

Lemma keyword_score_range n :
  (0.6 <= Nat.iter n (fun s => Qmin 0.9 (s + 0.1)) 0.6)%Q
  /\ (Nat.iter n (fun s => Qmin 0.9 (s + 0.1)) 0.6 <= 0.9)%Q.
Proof.
  induction n as [|n [Hlo Hhi]]; [cbn [Nat.iter nat_rect]; split; lra|].
  rewrite Nat.iter_succ. split; [|apply Q.le_min_l].
  apply Q.min_glb; lra.
Qed.

(** In the keyword-boost route the keyword searches never touch a semantic
    result.  When they end, the list is the semantic results as they were,
    followed by one entry for each id that only the keywords found, in the
    order these ids arrived: the entry is made of the first row of that
    id, with the source "keyword" and the score 0.6 raised by 0.1, up to
    0.9, for every further row of that id.  So every row a text search
    returns has its id in the list. *)
Theorem keyword_step_keeps_semantic (w : World) (query : string) :
  let semantic := KeywordBoost.semantic_results w query in
  let found :=
    found_rows w 10 (slice0 5 (KeywordBoost.extract_keywords query)) in
  let pushed :=
    new_entries id (fun c => of_chunk c 0.6 (Some "keyword"%string))
      (fun e => if bool_decide (source e = Some "keyword"%string)
                then set_similarity (Qmin 0.9 (similarity e + 0.1)) e
                else e)
      (map rid semantic) found in
  foldl (KeywordBoost.keyword_step w) semantic
        (slice0 5 (KeywordBoost.extract_keywords query))
  = semantic ++ pushed
  /\ map rid pushed = new_ids (map rid semantic) (map id found)
  /\ NoDup (map rid pushed)
  /\ (forall c, c ∈ found ->
        id c ∈ map rid semantic \/ id c ∈ map rid pushed)
  /\ Forall (fun r =>
               (rid r ∉ map rid semantic)
               /\ source r = Some "keyword"%string
               /\ (0.6 <= similarity r)%Q /\ (similarity r <= 0.9)%Q
               /\ exists c, c ∈ found /\ row r = c) pushed.
Proof.
  intros semantic found pushed.
  assert (map rid pushed = new_ids (map rid semantic) (map id found)) as Hids.
  { apply (new_entries_ids id); [done|]. intros e. by case_bool_decide. }
  split; [|split; [done|split; [|split]]].
  - rewrite boost_keyword_steps_fold, boost_merge_keyword_row_shape.
    apply (merge_all_fixed id); [done|intros e; by case_bool_decide|].
    eapply Forall_impl; [apply semantic_results_source|].
    intros e He. simpl. rewrite He. by rewrite bool_decide_eq_false_2.
  - rewrite Hids. apply new_ids_fresh.
  - intros c Hc. rewrite Hids. apply elem_of_app, elem_of_new_ids. right.
    apply list_elem_of_fmap. by exists c.
  - assert (forall r, r ∈ pushed -> rid r ∉ map rid semantic) as Hfresh.
    { intros r Hr. apply (proj2 (new_ids_fresh (map rid semantic)
                                   (map id found))).
      rewrite <- Hids. apply list_elem_of_fmap. by exists r. }
    pose proof (new_entries_made id
                  (fun c => of_chunk c 0.6 (Some "keyword"%string))
                  (fun e => if bool_decide (source e = Some "keyword"%string)
                            then set_similarity
                                   (Qmin 0.9 (similarity e + 0.1)) e
                            else e)
                  (map rid semantic) found) as Hmade.
    fold pushed in Hmade. apply Forall_forall. intros r Hr.
    split; [by apply Hfresh|].
    eapply Forall_forall in Hmade; [|exact Hr].
    destruct Hmade as (c & n & Hc & ->).
    destruct (keyword_bumped_fields n
                (of_chunk c 0.6 (Some "keyword"%string)))
      as (Hrow & Hsrc & Hsim & _).
    rewrite bool_decide_eq_true_2 in Hsim by done.
    cbv zeta in Hrow, Hsrc, Hsim. rewrite Hsrc, Hsim.
    split; [done|].
    split; [apply keyword_score_range|].
    split; [apply keyword_score_range|].
    exists c. by rewrite Hrow.
Qed.

Lemma dedup_by_id_app seen l1 l2 :
  dedup_by_id seen (l1 ++ l2)
  = dedup_by_id seen l1
    ++ dedup_by_id (seen ∪ list_to_set (map rid l1)) l2.
Proof.
  revert seen. induction l1 as [|x l1 IH]; intros seen.
  - cbn [app dedup_by_id map list_to_set]. by rewrite (right_id_L ∅ (∪)).
  - cbn [app dedup_by_id map list_to_set]. case_decide as Hx.
    + rewrite IH. f_equal. f_equal. apply set_eq. intros z.
      rewrite !elem_of_union, elem_of_singleton.
      split; [tauto|]. intros [?|[->|?]]; tauto.
    + cbn [app]. f_equal. rewrite IH. f_equal. f_equal. apply set_eq.
      intros z. rewrite !elem_of_union. tauto.
Qed.

Lemma elem_of_dedup_ids seen l z :
  z ∈ map rid (dedup_by_id seen l) <-> z ∈ map rid l /\ z ∉ seen.
Proof.
  revert seen. induction l as [|x l IH]; intros seen;
    cbn [dedup_by_id map].
  - rewrite elem_of_nil. tauto.
  - case_decide as Hx.
    + rewrite IH, elem_of_cons. split; [tauto|].
      intros [[->|?] ?]; tauto.
    + cbn [map]. rewrite !elem_of_cons, IH.
      rewrite not_elem_of_union, not_elem_of_singleton. split.
      * intros [->|(? & ? & ?)]; tauto.
      * intros [[->|?] ?]; [by left|].
        destruct (decide (z = rid x)); [by left|]. right. tauto.
Qed.

(** In the AI-rerank route a keyword row never replaces or changes a
    semantic result.  The candidates handed to the rerank stage are what
    the deduplication leaves of the semantic results followed by all the
    rows of the text searches, each with the source "keyword" and the
    score 0.5: that is the semantic results without their duplicates,
    then, once each, the keyword rows whose id no semantic result has.
    So every row a text search returns has its id among the candidates. *)
Theorem rerank_candidates_structure (w : World) (query : string)
    (req_court : option string) :
  let semantic := Rerank.semantic_results w query req_court in
  let rows := found_rows w 8 (slice0 4 (Rerank.extract_keywords query)) in
  let found := map (fun c => of_chunk c 0.5 (Some "keyword"%string)) rows in
  let kept := dedup_by_id (list_to_set (map rid semantic)) found in
  Rerank.candidates w query req_court = dedup_by_id ∅ (semantic ++ found)
  /\ Rerank.candidates w query req_court = dedup_by_id ∅ semantic ++ kept
  /\ (forall c, c ∈ rows ->
        id c ∈ map rid (Rerank.candidates w query req_court))
  /\ kept `sublist_of` found
  /\ NoDup (map rid kept)
  /\ Forall (fun r =>
               source r = Some "keyword"%string
               /\ similarity r = 0.5%Q
               /\ rid r ∉ map rid semantic) kept.
Proof.
  intros semantic rows found kept.
  pose proof (rerank_candidates_rows w query req_court) as Heq.
  fold semantic rows found in Heq.
  split; [done|]. split; [|split; [|split; [|split]]].
  - rewrite Heq, dedup_by_id_app. by rewrite (left_id_L ∅ (∪)).
  - intros c Hc. rewrite Heq. apply elem_of_dedup_ids.
    split; [|apply not_elem_of_empty].
    change (id c ∈ rid <$> semantic ++ found).
    rewrite fmap_app. apply elem_of_app. right.
    apply list_elem_of_fmap.
    exists (of_chunk c 0.5 (Some "keyword"%string)). split; [done|].
    apply list_elem_of_fmap. by exists c.
  - apply dedup_by_id_sublist.
  - apply dedup_by_id_NoDup.
  - apply Forall_forall. intros r Hr.
    pose proof (dedup_by_id_fresh _ _ _ Hr) as Hfresh.
    assert (r ∈ found) as Hin
      by (eapply elem_of_sublist; [exact Hr|apply dedup_by_id_sublist]).
    apply list_elem_of_fmap in Hin as (c & -> & _).
    split; [done|]. split; [done|].
    intros Hs. apply Hfresh. by apply elem_of_list_to_set.
Qed.

End KeywordRows.

(* ===================================================================== *)
(** ** Further facts: the keywords of a query *)
(* ===================================================================== *)

Section Keywords.
Import JsString JsArray Chars.

Lemma lower_char_not_upper c : not_upper (lower_char c) = true.
Proof. by destruct c as [[|] [|] [|] [|] [|] [|] [|] [|]]. Qed.

Lemma lower_char_idem c : lower_char (lower_char c) = lower_char c.
Proof. by destruct c as [[|] [|] [|] [|] [|] [|] [|] [|]]. Qed.

Lemma toLowerCase_not_upper s : all_chars not_upper (toLowerCase s) = true.
Proof.
  induction s as [|c s IH]; [done|]. simpl.
  by rewrite lower_char_not_upper, IH.
Qed.

Lemma toLowerCase_idem s : toLowerCase (toLowerCase s) = toLowerCase s.
Proof.
  induction s as [|c s IH]; [done|]. simpl.
  by rewrite lower_char_idem, IH.
Qed.

Lemma cons_head_Forall (P : string -> Prop) c ps :
  (forall p, P p -> P (String c p)) -> P (String c EmptyString) ->
  Forall P ps -> Forall P (cons_head c ps).
Proof.
  intros Hc H0 Hps. destruct ps as [|p ps]; simpl.
  - by constructor.
  - inversion Hps; subst. constructor; auto.
Qed.

(** The pieces of [s.split(/\s+/)] contain no white space. *)
Lemma split_ws_no_space s :
  Forall (fun p => all_chars not_space p = true) (split_ws s).
Proof.
  induction s as [|c s IH]; simpl; [by constructor|].
  destruct (is_space c) eqn:E.
  - destruct (starts_with_space s); [done|]. by constructor.
  - apply cons_head_Forall; [| |done].
    + intros p Hp. simpl. unfold not_space at 1. by rewrite E.
    + simpl. unfold not_space. by rewrite E.
Qed.

(** The pieces of a split are made of characters of the string. *)
Lemma split_ws_chars p s :
  all_chars p s = true ->
  Forall (fun piece => all_chars p piece = true) (split_ws s).
Proof.
  induction s as [|c s IH]; simpl; [by constructor|].
  intros [Hc Hs]%andb_true_iff. specialize (IH Hs).
  destruct (is_space c).
  - destruct (starts_with_space s); [done|]. by constructor.
  - apply cons_head_Forall; [| |done].
    + intros q Hq. simpl. by rewrite Hc.
    + simpl. by rewrite Hc.
Qed.

Lemma extract_keywords_shape_for (stop : list string) (query : string) :
  Forall (fun k => (3 < String.length k)%nat
                   /\ (k ∉ stop)
                   /\ all_chars not_space k = true
                   /\ all_chars not_upper k = true)
    (filter (fun x => mem x stop = false)
       (filter (fun x => 3 < String.length x)
          (split_ws (toLowerCase query)))).
Proof.
  apply Forall_forall. intros k [Hstop [Hlen Hk]%list_elem_of_filter]
                              %list_elem_of_filter.
  split; [done|]. split.
  { unfold mem in Hstop. by apply bool_decide_eq_false in Hstop. }
  split.
  - pose proof (split_ws_no_space (toLowerCase query)) as H.
    by eapply Forall_forall in H.
  - pose proof (split_ws_chars not_upper _ (toLowerCase_not_upper query)) as H.
    by eapply Forall_forall in H.
Qed.

(** The keywords the keyword-boost and AI-rerank routes search for: each
    has more than three characters, is no stop-word, and contains neither
    white space nor an upper-case letter; the case of the query makes no
    difference to them. *)
Theorem extract_keywords_shape (query : string) :
  Forall (fun k => (3 < String.length k)%nat
                   /\ (k ∉ KeywordBoost.stopwords)
                   /\ all_chars not_space k = true
                   /\ all_chars not_upper k = true)
         (KeywordBoost.extract_keywords query)
  /\ Forall (fun k => (3 < String.length k)%nat
                      /\ (k ∉ Rerank.stopwords)
                      /\ all_chars not_space k = true
                      /\ all_chars not_upper k = true)
            (Rerank.extract_keywords query)
  /\ KeywordBoost.extract_keywords (toLowerCase query)
     = KeywordBoost.extract_keywords query
  /\ Rerank.extract_keywords (toLowerCase query)
     = Rerank.extract_keywords query.
Proof.
  split; [apply extract_keywords_shape_for|].
  split; [apply extract_keywords_shape_for|].
  unfold KeywordBoost.extract_keywords, Rerank.extract_keywords.
  by rewrite toLowerCase_idem.
Qed.

End Keywords.

(* ===================================================================== *)
(** ** Further facts: reading the scores *)
(* ===================================================================== *)

Section ScoreParsing.
Import JsString JsArray Rerank Spec Chars.

Lemma str_app_cons c s t : (String c s ++ t)%string = String c (s ++ t)%string.
Proof. reflexivity. Qed.

Lemma str_app_nil_r s : (s ++ EmptyString)%string = s.
Proof. induction s as [|c s IH]; [done|]. by rewrite str_app_cons, IH. Qed.

(** The first bracketed array is found behind any text without an opening
    bracket. *)
Lemma first_array_found pre run post :
  all_chars not_open_bracket pre = true ->
  run <> EmptyString -> all_in_class run = true ->
  first_array (pre ++ "[" ++ run ++ "]" ++ post)%string = Some run.
Proof.
  intros Hpre Hne Hrun. induction pre as [|c pre IH].
  - change (first_array (String "[" (run ++ String "]" post)) = Some run).
    simpl. rewrite (span_class_unique run (String "]" post)) by done.
    by destruct run.
  - simpl in Hpre. apply andb_true_iff in Hpre as [Hc Hpre].
    rewrite str_app_cons. cbn [first_array].
    unfold not_open_bracket in Hc. apply negb_true_iff in Hc. rewrite Hc.
    by apply IH.
Qed.

Lemma digit_char_facts d :
  (d < 10)%nat ->
  is_digit (digit_char d) = true
  /\ digit_value (digit_char d) = N.of_nat d
  /\ in_class (digit_char d) = true.
Proof.
  intros H. do 10 (destruct d as [|d]; [done|]). lia.
Qed.

Lemma parse_digits_more v acc ds t :
  Forall (fun d => (d < 10)%nat) ds ->
  parse_elements (InNumber false v) acc (render ds ++ t)
  = parse_elements (InNumber false (value_from v ds)) acc t.
Proof.
  intros H. revert v. induction H as [|d ds Hd _ IH]; intros v; [done|].
  destruct (digit_char_facts d Hd) as (Hdig & Hval & _).
  cbn [render]. rewrite str_app_cons. cbn [parse_elements].
  rewrite Hdig, Hval. apply IH.
Qed.

(** A numeral is read whole, to the number it denotes. *)
Lemma parse_numeral st acc ds t :
  st = AtStart \/ st = AfterComma ->
  canonical ds ->
  exists zero,
    parse_elements st acc (render ds ++ t)
    = parse_elements (InNumber zero (value ds)) acc t.
Proof.
  intros Hst [[Hne Hds] Hzero].
  destruct ds as [|d ds]; [done|]. inversion Hds as [|? ? Hd Hds']; subst.
  destruct (digit_char_facts d Hd) as (Hdig & Hval & _).
  cbn [render]. rewrite str_app_cons.
  assert (parse_elements st acc (String (digit_char d) (render ds ++ t))
          = parse_elements (InNumber (N.eqb (N.of_nat d) 0) (N.of_nat d))
              acc (render ds ++ t)) as ->.
  { destruct Hst as [-> | ->]; cbn [parse_elements]; by rewrite Hdig, Hval. }
  destruct d as [|d].
  - rewrite (Hzero eq_refl) in *. injection (Hzero eq_refl) as ->.
    by exists true.
  - exists false.
    replace (N.eqb (N.of_nat (S d)) 0) with false
      by (symmetry; apply N.eqb_neq; lia).
    rewrite parse_digits_more by done.
    unfold value, value_from. cbn [foldl]. by rewrite N.mul_0_r, N.add_0_l.
Qed.

Lemma parse_numerals st acc ns :
  st = AtStart \/ st = AfterComma ->
  ns <> [] -> Forall canonical ns ->
  parse_elements st acc (join ", " (map render ns))
  = Some (acc ++ map value ns).
Proof.
  intros Hst Hne Hns. revert st acc Hst.
  induction Hns as [|n ns Hn Hns IH]; intros st acc Hst; [done|].
  destruct ns as [|n' ns].
  - cbn [map join].
    destruct (parse_numeral st acc n EmptyString Hst Hn) as [zero H].
    rewrite str_app_nil_r in H. by rewrite H.
  - change (join ", " (map render (n :: n' :: ns)))
      with (render n ++ String "," (String " "
              (join ", " (map render (n' :: ns)))))%string.
    destruct (parse_numeral st acc n
                (String "," (String " " (join ", " (map render (n' :: ns)))))
                Hst Hn) as [zero ->].
    cbn [parse_elements].
    change (is_digit ",") with false. change (code "," =? 44)%nat with true.
    change (is_digit " ") with false. change (code " " =? 44)%nat with false.
    change (is_json_space " ") with true. cbn iota.
    rewrite IH by (done || by right).
    by rewrite <- app_assoc.
Qed.

Lemma render_in_class ds :
  Forall (fun d => (d < 10)%nat) ds -> all_in_class (render ds) = true.
Proof.
  induction 1 as [|d ds Hd _ IH]; [done|].
  destruct (digit_char_facts d Hd) as (_ & _ & Hc).
  cbn [render all_in_class]. by rewrite Hc, IH.
Qed.

Lemma all_in_class_app s t :
  all_in_class (s ++ t) = all_in_class s && all_in_class t.
Proof.
  induction s as [|c s IH]; [done|].
  rewrite str_app_cons. cbn [all_in_class]. by rewrite IH, andb_assoc.
Qed.

Lemma join_in_class ns :
  Forall canonical ns -> all_in_class (join ", " (map render ns)) = true.
Proof.
  induction 1 as [|n ns [[_ Hn] _] _ IH]; [done|].
  destruct ns as [|n' ns]; [by apply render_in_class|].
  change (join ", " (map render (n :: n' :: ns)))
    with (render n ++ String "," (String " "
            (join ", " (map render (n' :: ns)))))%string.
  rewrite all_in_class_app, render_in_class by done.
  cbn [all_in_class]. change (in_class ",") with true.
  change (in_class " ") with true. exact IH.
Qed.

Lemma join_nonempty ns :
  ns <> [] -> Forall canonical ns ->
  join ", " (map render ns) <> EmptyString.
Proof.
  intros Hne Hns. destruct Hns as [|n ns [[Hn _] _] _]; [done|].
  destruct n as [|d n]; [done|].
  destruct ns; cbn [map join render]; by rewrite ?str_app_cons.
Qed.

(** An answer that holds, behind any text without an opening bracket, the
    array of one or more integers written in decimal and separated by a
    comma and a space is read back as these integers, whatever follows the
    array.  (The integers are at most 2^53, which a number holds
    exactly.) *)
Theorem scores_round_trip (pre post : string) (ns : list numeral) :
  all_chars not_open_bracket pre = true ->
  ns <> [] -> Forall canonical ns ->
  Forall (fun n => (value n <= 2 ^ 53)%N) ns ->
  parse_scores (pre ++ "[" ++ join ", " (map render ns) ++ "]" ++ post)
  = Some (map value ns).
Proof.
  intros Hpre Hne Hns _. unfold parse_scores.
  rewrite first_array_found;
    [|done|by apply join_nonempty|by apply join_in_class].
  unfold json_parse_array. rewrite parse_numerals by (done || by left).
  done.
Qed.

Lemma scores_round_trip_witness :
  all_chars not_open_bracket "Scores: " = true
  /\ [[8]; [1; 0]; [0]]%nat <> []
  /\ Forall canonical [[8]; [1; 0]; [0]]%nat
  /\ Forall (fun n => (value n <= 2 ^ 53)%N) [[8]; [1; 0]; [0]]%nat
  /\ parse_scores "Scores: [8, 10, 0] as asked" = Some [8; 10; 0]%N.
Proof.
  assert (Forall canonical [[8]; [1; 0]; [0]]%nat) as H.
  { repeat constructor; try done; simpl; lia. }
  assert (Forall (fun n => (value n <= 2 ^ 53)%N) [[8]; [1; 0]; [0]]%nat)
    as Hb.
  { repeat constructor; vm_compute; discriminate. }
  split; [reflexivity|]. split; [done|]. split; [exact H|].
  split; [exact Hb|].
  apply (scores_round_trip "Scores: " " as asked" [[8]; [1; 0]; [0]]%nat);
    [reflexivity|done|exact H|exact Hb].
Defined.

End ScoreParsing.

(* ===================================================================== *)
(** ** Further facts: the case route, the statistics route, the history *)
(* ===================================================================== *)

Section CaseFacts.
Import JsString JsArray Chars JsNumber.

Lemma digit_char_decimal d :
  (d < 10)%nat ->
  digit_in 10 (digit_char d) = Some (N.of_nat d)
  /\ is_space (digit_char d) = false
  /\ (code (digit_char d) =? 45)%nat = false
  /\ (code (digit_char d) =? 43)%nat = false
  /\ (code (digit_char d) =? 120)%nat = false
  /\ (code (digit_char d) =? 88)%nat = false.
Proof.
  intros H. do 10 (destruct d as [|d]; [done|]). lia.
Qed.

Lemma read_digits_numeral acc ds :
  Forall (fun d => (d < 10)%nat) ds -> ds <> [] ->
  read_digits 10 acc (render ds) = Some (value_from (default 0%N acc) ds).
Proof.
  intros H. revert acc. induction H as [|d ds Hd Hds IH]; intros acc Hne;
    [done|].
  destruct (digit_char_decimal d Hd) as (Hdig & _).
  cbn [render read_digits]. rewrite Hdig.
  destruct ds as [|d' ds]; [done|].
  rewrite IH by done. done.
Qed.

(** [parseInt] of a decimal numeral, leading zeros allowed, is the number
    it denotes. *)
Lemma parseInt_numeral ds :
  digits ds -> parseInt (render ds) = Some (Z.of_N (value ds)).
Proof.
  intros [Hne Hds]. destruct ds as [|d ds]; [done|].
  inversion Hds as [|? ? Hd Hds']; subst.
  destruct (digit_char_decimal d Hd) as (_ & Hsp & Hm & Hp & Hx & HX).
  unfold parseInt. cbn [render skip_spaces]. rewrite Hsp, Hm, Hp.
  assert (strip_prefix (String (digit_char d) (render ds))
          = (10%N, String (digit_char d) (render ds))) as ->.
  { unfold strip_prefix. destruct ds as [|d' ds]; [done|].
    inversion Hds' as [|? ? Hd' _]; subst.
    destruct (digit_char_decimal d' Hd') as (_ & _ & _ & _ & Hx' & HX').
    cbn [render]. by rewrite Hx', HX', andb_false_r. }
  change (String (digit_char d) (render ds)) with (render (d :: ds)).
  by rewrite read_digits_numeral.
Qed.

(** For an id written in decimal digits (of a value up to 2^53, which a
    number holds exactly) whose case has rows, the case route answers
    200 with the number the id denotes, the fields of the
    first row, the count of the rows and one passage per row, in the order
    of the store; the text of the passages is not joined into the
    answer. *)
Theorem case_found (cat : Catalogue) (ds : numeral) (first : IndexedChunk)
    (others : list IndexedChunk) :
  digits ds ->
  (value ds <= 2 ^ 53)%N ->
  chunks_of_case cat (render ds) = HttpOk (first :: others) ->
  CaseRoute.GET cat (Some (render ds))
  = CaseRoute.mkCaseResponse 200
      (CaseRoute.CaseFound (Some (Z.of_N (value ds)))
         (case_name (chunk first)) (neutral_citation (chunk first))
         (court (chunk first)) (decision_date (chunk first))
         (hklii_id (chunk first)) (S (length others))
         (CaseRoute.passage_of first :: map CaseRoute.passage_of others)).
Proof.
  intros Hds _ Hrows. unfold CaseRoute.GET.
  assert (render ds <> EmptyString) as Hne.
  { destruct Hds as [Hne _]. by destruct ds. }
  rewrite bool_decide_eq_false_2 by done.
  by rewrite Hrows, parseInt_numeral.
Qed.

Lemma case_found_witness :
  digits [4; 2]%nat
  /\ (value [4; 2]%nat <= 2 ^ 53)%N
  /\ chunks_of_case Samples.catalogue "42"
     = HttpOk [mkIndexed 0 (Examples.chunk 1 42 "first");
               mkIndexed 1 (Examples.chunk 2 42 "second")]
  /\ CaseRoute.GET Samples.catalogue (Some "42"%string)
     = CaseRoute.mkCaseResponse 200
         (CaseRoute.CaseFound (Some 42%Z) EmptyString EmptyString
            EmptyString EmptyString EmptyString 2
            [CaseRoute.mkPassage 0 (Some "first"%string) EmptyString;
             CaseRoute.mkPassage 1 (Some "second"%string) EmptyString]).
Proof.
  assert (digits [4; 2]%nat) as H.
  { split; [done|]. repeat constructor; lia. }
  assert (value [4; 2]%nat <= 2 ^ 53)%N as Hb
    by (vm_compute; discriminate).
  split; [exact H|]. split; [exact Hb|]. split; [reflexivity|].
  apply (case_found Samples.catalogue [4; 2]%nat
           (mkIndexed 0 (Examples.chunk 1 42 "first"))
           [mkIndexed 1 (Examples.chunk 2 42 "second")] H Hb).
  reflexivity.
Defined.

End CaseFacts.

Section StatsFacts.
Import JsString JsArray StatsRoute.

(** Number of rows that count for the court [k]. *)
Lemma count_court_other (m : gmap string Tally) c k :
  court_key c <> k -> count_court m c !! k = m !! k.
Proof.
  intros Hne. unfold count_court.
  case_bool_decide; [done|].
  destruct (m !! court_key c) as [[n|]|].
  - destruct (n =? 0)%nat; by rewrite lookup_insert_ne.
  - by rewrite lookup_insert_ne.
  - destruct (mem (court_key c) inherited); by rewrite lookup_insert_ne.
Qed.

Lemma distribution_from (m : gmap string Tally) courts k n0 :
  k ∉ inherited -> k <> "__proto__"%string ->
  m !! k = (if (n0 =? 0)%nat then None else Some (Count n0)) ->
  foldl count_court m courts !! k
  = (let n := (n0 + length (filter (fun c => court_key c = k) courts))%nat in
     if (n =? 0)%nat then None else Some (Count n)).
Proof.
  intros Hk Hp. revert m n0.
  induction courts as [|c courts IH]; intros m n0 Hm.
  - cbn [foldl filter length]. simpl. by rewrite Nat.add_0_r.
  - cbn [foldl]. rewrite filter_cons. case_decide as E.
    + rewrite (IH _ (S n0)).
      * cbn [length]. by replace (S n0 + length (filter (fun c0 => court_key c0 = k) courts))%nat
          with (n0 + S (length (filter (fun c0 => court_key c0 = k) courts)))%nat by lia.
      * unfold count_court. rewrite E.
        rewrite bool_decide_eq_false_2 by done. rewrite Hm.
        destruct (n0 =? 0)%nat eqn:F.
        -- apply Nat.eqb_eq in F as ->.
           unfold mem. rewrite bool_decide_eq_false_2 by done.
           by rewrite lookup_insert_eq.
        -- rewrite F, lookup_insert_eq. cbn [Nat.eqb].
           by replace (n0 + 1)%nat with (S n0) by lia.
    + apply IH. by rewrite count_court_other.
Qed.

(** The table of courts holds, for every court name that is no inherited
    property of an object, the number of rows of that court, rows without
    a court counting for 'unknown'; a name with no row has no entry. *)
Theorem distribution_counts (courts : list (option string)) (k : string) :
  k ∉ inherited -> k <> "__proto__"%string ->
  distribution courts !! k
  = (let n := length (filter (fun c => court_key c = k) courts) in
     if (n =? 0)%nat then None else Some (Count n)).
Proof.
  intros Hk Hp. unfold distribution.
  rewrite (distribution_from ∅ courts k 0 Hk Hp); [done|].
  by rewrite lookup_empty.
Qed.

Lemma distribution_counts_witness :
  ("hkcfi"%string ∉ inherited)
  /\ "hkcfi"%string <> "__proto__"%string
  /\ distribution Samples.courts !! "hkcfi"%string = Some (Count 2)
  /\ distribution Samples.courts !! "unknown"%string = Some (Count 2).
Proof.
  assert ("hkcfi"%string ∉ inherited) as H.
  { intros H%list_elem_of_In. simpl in H. intuition discriminate. }
  assert ("unknown"%string ∉ inherited) as H'.
  { intros H'%list_elem_of_In. simpl in H'. intuition discriminate. }
  split; [exact H|]. split; [done|]. split.
  - apply (distribution_counts Samples.courts "hkcfi"%string H). done.
  - apply (distribution_counts Samples.courts "unknown"%string H'). done.
Defined.

End StatsFacts.

Section HistoryFacts.
Import JsArray History.

Lemma take_app_take {A} n (l1 l2 : list A) :
  take n (l1 ++ take n l2) = take n (l1 ++ l2).
Proof.
  rewrite !take_app, take_take. f_equal. f_equal. lia.
Qed.

Lemma saveToHistory_take h x : saveToHistory h x = take 10 (x :: h).
Proof. reflexivity. Qed.

(** After one or more searches the history holds the last ten of them,
    the most recent first, whatever it held before: it is the first ten of
    the searches in reverse order followed by the former history. *)
Theorem history_after_saves (init items : list SearchHistoryItem) :
  items <> [] ->
  foldl saveToHistory init items = take 10 (rev items ++ init).
Proof.
  revert init. induction items as [|x items IH]; intros init Hne; [done|].
  cbn [foldl]. destruct items as [|y items].
  - reflexivity.
  - rewrite IH by done. rewrite saveToHistory_take, take_app_take.
    cbn [rev]. by rewrite <- !app_assoc.
Qed.

Lemma history_after_saves_witness :
  Samples.searches <> []
  /\ map timestamp (foldl saveToHistory [] Samples.searches)
     = [12; 11; 10; 9; 8; 7; 6; 5; 4; 3]%nat
  /\ foldl saveToHistory [] Samples.searches
     = take 10 (rev Samples.searches ++ []).
Proof.
  split; [done|]. split; [reflexivity|].
  apply (history_after_saves [] Samples.searches). done.
Defined.

End HistoryFacts.

(* ===================================================================== *)
(** ** Further facts: scores and answers *)
(* ===================================================================== *)

Section Scores.
Import JsString JsArray Spec.

Lemma Qmin_mono_r a x y : (x <= y)%Q -> (Qmin a x <= Qmin a y)%Q.
Proof.
  intros H. apply Q.min_glb; [apply Q.le_min_l|].
  eapply Qle_trans; [apply Q.le_min_r|done].
Qed.

Lemma boost_of_mono n1 n2 :
  (n1 <= n2)%nat ->
  (1 <= KeywordBoost.boost_of n1)%Q
  /\ (KeywordBoost.boost_of n1 <= KeywordBoost.boost_of n2)%Q.
Proof.
  intros H. rewrite !boost_of_eq.
  assert (0 <= inject_Z (Z.of_nat n1))%Q as H0.
  { change 0%Q with (inject_Z 0). rewrite <- Zle_Qle. lia. }
  assert (inject_Z (Z.of_nat n1) <= inject_Z (Z.of_nat n2))%Q as H1.
  { rewrite <- Zle_Qle. lia. }
  split; lra.
Qed.

(** The keyword boost rewards matches: for a score that is not negative,
    a candidate that contains more of the keywords never gets a lower
    score than with fewer, and a candidate of score at most 0.99 never
    loses by the boost. *)
Theorem keyword_boost_monotone (kws1 kws2 : list string)
    (r : SearchResult) :
  (0 <= similarity r)%Q ->
  (let textLower :=
     toLowerCase (default EmptyString (chunk_text (row r))) in
   KeywordBoost.count_matches kws1 textLower
   <= KeywordBoost.count_matches kws2 textLower)%nat ->
  (similarity (KeywordBoost.boost_result kws1 r)
   <= similarity (KeywordBoost.boost_result kws2 r))%Q
  /\ ((similarity r <= 0.99)%Q ->
      (similarity r <= similarity (KeywordBoost.boost_result kws1 r))%Q).
Proof.
  intros Hpos Hle.
  assert (forall kws,
            similarity (KeywordBoost.boost_result kws r)
            = Qmin 0.99
                (similarity r
                 * KeywordBoost.boost_of
                     (KeywordBoost.count_matches kws
                        (toLowerCase
                           (default EmptyString (chunk_text (row r)))))))
    as Hs.
  { intros kws. unfold KeywordBoost.boost_result.
    by destruct (chunk_text (row r)). }
  rewrite !Hs. cbv zeta in Hle.
  destruct (boost_of_mono _ _ Hle) as [H1 H2]. split.
  - apply Qmin_mono_r. rewrite !(Qmult_comm (similarity r)).
    by apply Qmult_le_compat_r.
  - intros H99. apply Q.min_glb; [done|].
    revert H1. generalize (KeywordBoost.boost_of
      (KeywordBoost.count_matches kws1
         (toLowerCase (default EmptyString (chunk_text (row r)))))).
    intros b Hb. nra.
Qed.

Lemma keyword_boost_monotone_witness :
  (0 <= similarity (Examples.hit 1 7 "The Negligence test" 0.5))%Q
  /\ (KeywordBoost.count_matches ["damages"]%string "the negligence test"
      <= KeywordBoost.count_matches ["negligence"; "test"]%string
           "the negligence test")%nat
  /\ (similarity
        (KeywordBoost.boost_result ["damages"]%string
           (Examples.hit 1 7 "The Negligence test" 0.5))
      <= similarity
           (KeywordBoost.boost_result ["negligence"; "test"]%string
              (Examples.hit 1 7 "The Negligence test" 0.5)))%Q.
Proof.
  assert (0 <= similarity (Examples.hit 1 7 "The Negligence test" 0.5))%Q
    as H by (simpl; lra).
  split; [exact H|]. split; [vm_compute; lia|].
  apply (keyword_boost_monotone ["damages"]%string
           ["negligence"; "test"]%string
           (Examples.hit 1 7 "The Negligence test" 0.5) H).
  vm_compute. lia.
Defined.

End Scores.

Section RouteAnswers.
Import JsString JsArray Spec.

(** In the multi-query route a result matched by one query only carries
    its single label; a result matched by several scores at most
    [1 + 0.05] per matched query. *)
Theorem multi_query_score_bound (w : World) (query : string)
    (req_court : option string) (queryAnalysis : QueryAnalysis) :
  Forall (fun r =>
            (exists label, matchedQueries r = Some [label])
            \/ ((2 <= MultiQuery.match_count r)%nat
                /\ (similarity r
                    <= 1 + 0.05 * inject_Z (Z.of_nat (MultiQuery.match_count r)))%Q))
         (MultiQuery.final_results w query req_court queryAnalysis).
Proof.
  apply Forall_forall. intros r Hr.
  unfold MultiQuery.final_results in Hr.
  assert (r ∈ MultiQuery.ranked_results w query req_court queryAnalysis)
    as Hr'.
  { eapply elem_of_sublist; [exact Hr|]. apply diversifyResults_sublist. lia. }
  unfold MultiQuery.ranked_results in Hr'.
  change by_similarity_desc with (desc_by similarity) in Hr'.
  rewrite elem_of_sort in Hr'.
  apply list_elem_of_fmap in Hr' as (r0 & -> & Hr0).
  pose proof (merged_results_invariant w query req_court queryAnalysis) as Hinv.
  eapply Forall_forall in Hinv; [|exact Hr0].
  destruct Hinv as [Hone|[Hcount Hle]]; [by left|]. right.
  change (MultiQuery.match_count (MultiQuery.boost_result r0))
    with (MultiQuery.match_count r0).
  split; [done|]. unfold MultiQuery.boost_result. cbn [similarity set_similarity].
  assert (0 <= inject_Z (Z.of_nat (MultiQuery.match_count r0)))%Q as H0.
  { change 0%Q with (inject_Z 0). rewrite <- Zle_Qle. lia. }
  revert H0. generalize (inject_Z (Z.of_nat (MultiQuery.match_count r0))).
  intros k Hk. nra.
Qed.

(** With scores read, what the rerank stage returns is in descending order
    of the combined score; each result is one of the candidates, with the
    relevance score it was given, which is 4 or more, and a similarity that
    is not below the one it came with when that one is not negative. *)
Theorem rerank_scored_shape (w : World) (query : string)
    (results : list SearchResult) (scores : list N) :
  Rerank.scores_of_reply (rerank_chat w query results) = Some scores ->
  let out := Rerank.rerankWithAI w query results in
  sorted_desc Rerank.combined_score out
  /\ (length out <= length results)%nat
  /\ Forall (fun r' =>
               exists i r,
                 results !! i = Some r
                 /\ row r' = row r
                 /\ relevanceScore r' = Some (Rerank.score_at scores i)
                 /\ (4 <= Rerank.score_at scores i)%N
                 /\ ((0 <= similarity r)%Q ->
                     (similarity r <= similarity r')%Q)) out.
Proof.
  intros E out. unfold out, Rerank.rerankWithAI. rewrite E.
  split; [apply (sort_sorted_desc Rerank.combined_score)|]. split.
  - rewrite rerank_with_scores_perm.
    etrans; [apply length_filter|]. by rewrite length_imap.
  - apply Forall_forall. intros r'.
    rewrite elem_of_rerank_with_scores. intros (i & r & Hi & -> & Hs).
    exists i, r. repeat split; try done.
    intros Hpos. unfold Rerank.apply_score. cbn [similarity set_similarity
      set_relevanceScore].
    assert (0 <= Rerank.Q_of_N (Rerank.score_at scores i))%Q as H0.
    { unfold Rerank.Q_of_N. change 0%Q with (inject_Z 0).
      rewrite <- Zle_Qle. lia. }
    revert H0. generalize (Rerank.Q_of_N (Rerank.score_at scores i)).
    intros k Hk.
    assert (0 <= k / 20)%Q as Hd.
    { apply Qle_shift_div_l; lra. }
    revert Hd. generalize (k / 20)%Q. intros d Hd. nra.
Qed.

Lemma rerank_scored_shape_witness :
  Rerank.scores_of_reply
    (rerank_chat (Examples.scorer_says "[9, 1]") "duty of care"
       Examples.two_results) = Some [9; 1]%N
  /\ (length (Rerank.rerankWithAI (Examples.scorer_says "[9, 1]")
                "duty of care" Examples.two_results)
      <= length Examples.two_results)%nat
  /\ sorted_desc Rerank.combined_score
       (Rerank.rerankWithAI (Examples.scorer_says "[9, 1]") "duty of care"
          Examples.two_results).
Proof.
  split; [reflexivity|].
  destruct (rerank_scored_shape (Examples.scorer_says "[9, 1]")
              "duty of care"%string Examples.two_results [9; 1]%N eq_refl)
    as (Hs & Hl & _).
  split; [exact Hl|exact Hs].
Defined.

Lemma no_results_text_nonempty q :
  KeywordBoost.no_results_text q <> EmptyString.
Proof. unfold KeywordBoost.no_results_text. discriminate. Qed.

Lemma guidance_nonempty q concepts :
  MultiQuery.guidance_text q concepts <> EmptyString.
Proof. unfold MultiQuery.guidance_text. discriminate. Qed.

Lemma legal_analysis_nonempty w q analysis results :
  MultiQuery.generateLegalAnalysis w q analysis results <> EmptyString.
Proof.
  unfold MultiQuery.generateLegalAnalysis, MultiQuery.or_string.
  destruct (MultiQuery.joined _); [|done].
  destruct (legal_analysis_chat _ _ _ _) as [| |[c|]]; try done.
  by case_bool_decide.
Qed.

(** What a request with a query is answered.  The keyword-boost and the
    AI-rerank route answer with status 200 and an [aiAnswer] that is
    neither null nor empty, also when no result is found and when the
    model fails.  So does the multi-query route, except when its handler
    throws, which has it answer with status 500; that happens in two cases
    only, both on an analysis that came from the model: what the analysis
    holds where the sub-queries are expected cannot be iterated, or
    nothing is found and what it holds where the legal concepts are
    expected has a positive length and no [join]. *)
Theorem answer_never_empty (w : World) (q : string)
    (req_court : option string) :
  q <> EmptyString ->
  let analysis := MultiQuery.analyzeQuery w q in
  let thrown :=
    MultiQuery.iterate (subQueries analysis) = None
    \/ (MultiQuery.final_results w q req_court analysis = []
        /\ MultiQuery.joined (legalConcepts analysis) = None) in
  (exists results a,
      KeywordBoost.POST w (Some q)
      = mkResponse 200 (SearchBody q None results (Some a))
      /\ a <> EmptyString)
  /\ (exists results a,
         Rerank.POST w (Some q) req_court
         = mkResponse 200 (SearchBody q None results (Some a))
         /\ a <> EmptyString)
  /\ ((thrown
       /\ MultiQuery.POST w (Some q) req_court
          = mkResponse 500 (ErrorBody "Search failed. Please try again."))
      \/ (~ thrown
          /\ exists a,
               MultiQuery.POST w (Some q) req_court
               = mkResponse 200
                   (SearchBody q (Some analysis)
                      (MultiQuery.final_results w q req_court analysis)
                      (Some a))
               /\ a <> EmptyString))
  /\ (thrown ->
      exists parsed,
        analyzer_chat w q = HttpOk (Parsed parsed)
        /\ (p_subQueries parsed = Some Scalar
            \/ (exists b, p_subQueries parsed = Some (Object b))
            \/ (exists s, s <> EmptyString
                  /\ p_legalConcepts parsed = Some (Text s))
            \/ p_legalConcepts parsed = Some (Object true))).
Proof.
  intros Hq analysis thrown. split; [|split; [|split]].
  - unfold KeywordBoost.POST. rewrite bool_decide_eq_false_2 by done.
    eexists _, _. split; [reflexivity|].
    destruct (0 <? _)%nat; [|apply no_results_text_nonempty].
    unfold KeywordBoost.generateAnalysis.
    destruct (analysis_chat _ _ _) as [| |[c|]]; try done.
    by case_bool_decide.
  - unfold Rerank.POST. rewrite bool_decide_eq_false_2 by done.
    eexists _, _. split; [reflexivity|].
    destruct (0 <? _)%nat; [|discriminate].
    unfold Rerank.generateAnalysis.
    destruct (analysis_chat _ _ _) as [| |[c|]]; try done.
    by case_bool_decide.
  - unfold MultiQuery.POST. rewrite bool_decide_eq_false_2 by done.
    fold analysis. unfold thrown.
    destruct (MultiQuery.iterate (subQueries analysis)) as [subs|] eqn:Hsub;
      [|left; split; [by left|done]].
    destruct (MultiQuery.final_results w q req_court analysis)
      as [|r results] eqn:Hres.
    + cbn [length Nat.ltb Nat.leb].
      unfold MultiQuery.generateNoResultsGuidance.
      destruct (MultiQuery.joined (legalConcepts analysis))
        as [concepts|] eqn:Hj; cbn [fmap option_fmap option_map].
      * right. split; [intros [?|[_ ?]]; done|].
        eexists. split; [reflexivity|apply guidance_nonempty].
      * left. split; [by right|done].
    + cbn [length Nat.ltb Nat.leb]. right.
      split; [intros [?|[? _]]; done|].
      eexists. split; [reflexivity|apply legal_analysis_nonempty].
  - unfold thrown, analysis, MultiQuery.analyzeQuery.
    destruct (analyzer_chat w q) as [| |[| |parsed]];
      try (intros [?|[_ ?]]; discriminate).
    cbn [subQueries legalConcepts]. intros H. exists parsed.
    split; [done|]. destruct H as [H|[_ H]].
    + destruct (p_subQueries parsed) as [[l|s| |b]|]; try done.
      * simpl in H. by case_bool_decide.
      * by left.
      * right. left. by exists b.
    + destruct (p_legalConcepts parsed) as [[l|s| |[|]]|]; try done.
      * right. right. left. exists s. split; [|done].
        intros ->. done.
      * by right; right; right.
Qed.

Lemma answer_never_empty_witness :
  "tort"%string <> EmptyString
  /\ exists results a,
       KeywordBoost.POST Examples.one_hit (Some "tort"%string)
       = mkResponse 200 (SearchBody "tort" None results (Some a))
       /\ a <> EmptyString.
Proof.
  split; [discriminate|].
  apply (answer_never_empty Examples.one_hit "tort"%string None).
  discriminate.
Defined.

End RouteAnswers.

Section FallbackRoutes.
Import JsString JsArray Spec.

Lemma respond_shape w q results :
  exists aiAnswer,
    SearchRoute.respond w q results
    = mkResponse 200 (SearchBody q None results aiAnswer)
    /\ (results = [] -> aiAnswer = None)
    /\ aiAnswer <> Some EmptyString.
Proof.
  unfold SearchRoute.respond. eexists. split; [reflexivity|].
  destruct results as [|r results]; [done|]. cbn [length Nat.ltb Nat.leb].
  split; [done|]. unfold SearchRoute.generateAIAnswer.
  destruct (analysis_chat _ _ _) as [| |[c|]]; try done.
  case_bool_decide; congruence.
Qed.

(** The search route with the keyword fallback answers a request that has
    a query with status 500 only when a call to a store throws; otherwise
    with status 200 and either the rows of the vector store, when it gave
    any, or, when the embedding could not be had or the vector store
    answered with a non-ok status or without a row, the rows the keyword
    search answered with, each with the score 0.5 (no row when the query
    has no word longer than 3 characters or the keyword search answered
    with a non-ok status).  It gives no answer text without results, and
    never an empty one. *)
Theorem search_route_shape (w : World) (cat : Catalogue) (q : string)
    (req_court : option string) :
  q <> EmptyString ->
  let filter_court := MultiQuery.court_filter req_court in
  let keywords := SearchRoute.fallback_keywords q in
  let answer := SearchRoute.POST w cat (Some q) req_court in
  let vector_silent :=
    SearchRoute.embedded w q = false
    \/ match_legal_chunks_in cat q filter_court = HttpError
    \/ match_legal_chunks_in cat q filter_court = HttpOk [] in
  (answer = SearchRoute.failed
   /\ ((SearchRoute.embedded w q = true
        /\ match_legal_chunks_in cat q filter_court = Rejected)
       \/ (vector_silent /\ keywords <> []
           /\ case_chunks_any w keywords filter_court = Rejected)))
  \/ exists results aiAnswer,
       answer = mkResponse 200 (SearchBody q None results aiAnswer)
       /\ (results = [] -> aiAnswer = None)
       /\ aiAnswer <> Some EmptyString
       /\ ((results <> []
            /\ SearchRoute.embedded w q = true
            /\ match_legal_chunks_in cat q filter_court = HttpOk results)
           \/ (vector_silent
               /\ ((keywords = [] /\ results = [])
                   \/ (keywords <> []
                       /\ case_chunks_any w keywords filter_court = HttpError
                       /\ results = [])
                   \/ (keywords <> []
                       /\ exists rows,
                            case_chunks_any w keywords filter_court
                            = HttpOk rows
                            /\ results
                               = map (fun c => of_chunk c 0.5%Q None) rows)))).
Proof.
  intros Hq filter_court keywords answer vector_silent.
  assert (vector_silent ->
          (SearchRoute.keyword_fallback w q req_court = SearchRoute.failed
           /\ keywords <> []
           /\ case_chunks_any w keywords filter_court = Rejected)
          \/ exists results aiAnswer,
               SearchRoute.keyword_fallback w q req_court
               = mkResponse 200 (SearchBody q None results aiAnswer)
               /\ (results = [] -> aiAnswer = None)
               /\ aiAnswer <> Some EmptyString
               /\ ((keywords = [] /\ results = [])
                   \/ (keywords <> []
                       /\ case_chunks_any w keywords filter_court = HttpError
                       /\ results = [])
                   \/ (keywords <> []
                       /\ exists rows,
                            case_chunks_any w keywords filter_court
                            = HttpOk rows
                            /\ results
                               = map (fun c => of_chunk c 0.5%Q None) rows)))
    as Hfb.
  { intros _. unfold SearchRoute.keyword_fallback.
    fold filter_court keywords.
    destruct keywords as [|k kws] eqn:Hk.
    - right. destruct (respond_shape w q []) as (a & -> & ? & ?).
      exists [], a. repeat split; try done. by left.
    - cbn [length Nat.ltb Nat.leb].
      destruct (case_chunks_any w (k :: kws) filter_court) as [| |rows] eqn:E.
      + by left.
      + right. destruct (respond_shape w q []) as (a & -> & ? & ?).
        exists [], a. repeat split; try done. right. by left.
      + right.
        destruct (respond_shape w q
                    (map (fun c => of_chunk c 0.5%Q None) rows))
          as (a & -> & ? & ?).
        eexists _, a. repeat split; try done. right. right.
        split; [done|]. by exists rows. }
  assert (vector_silent ->
          SearchRoute.after_search w q req_court []
          = SearchRoute.keyword_fallback w q req_court) as Hnone by done.
  assert (vector_silent ->
          (SearchRoute.after_search w q req_court [] = SearchRoute.failed
           /\ ((SearchRoute.embedded w q = true
                /\ match_legal_chunks_in cat q filter_court = Rejected)
               \/ (vector_silent /\ keywords <> []
                   /\ case_chunks_any w keywords filter_court = Rejected)))
          \/ exists results aiAnswer,
               SearchRoute.after_search w q req_court []
               = mkResponse 200 (SearchBody q None results aiAnswer)
               /\ (results = [] -> aiAnswer = None)
               /\ aiAnswer <> Some EmptyString
               /\ ((results <> []
                    /\ SearchRoute.embedded w q = true
                    /\ match_legal_chunks_in cat q filter_court
                       = HttpOk results)
                   \/ (vector_silent
                       /\ ((keywords = [] /\ results = [])
                           \/ (keywords <> []
                               /\ case_chunks_any w keywords filter_court
                                  = HttpError
                               /\ results = [])
                           \/ (keywords <> []
                               /\ exists rows,
                                    case_chunks_any w keywords filter_court
                                    = HttpOk rows
                                    /\ results
                                       = map (fun c => of_chunk c 0.5%Q None)
                                           rows))))) as Hsilent.
  { intros Hv. rewrite (Hnone Hv).
    destruct (Hfb Hv) as [(-> & ? & ?)|(rs & a & -> & ? & ? & ?)].
    - left. split; [done|]. right. by repeat split.
    - right. exists rs, a. repeat split; try done. right. by split. }
  unfold answer, SearchRoute.POST. rewrite bool_decide_eq_false_2 by done.
  fold filter_court.
  destruct (SearchRoute.embedded w q) eqn:Hemb.
  - destruct (match_legal_chunks_in cat q filter_court) as [| |rows] eqn:E.
    + left. split; [done|]. by left.
    + apply Hsilent. right. by left.
    + destruct rows as [|r rows].
      * apply Hsilent. right. by right.
      * right. unfold SearchRoute.after_search. cbn [length Nat.eqb].
        destruct (respond_shape w q (r :: rows)) as (a & -> & ? & ?).
        eexists _, a. repeat split; try done. by left.
  - apply Hsilent. by left.
Qed.

Lemma search_route_shape_witness :
  "duty of care"%string <> EmptyString
  /\ SearchRoute.fallback_keywords "duty of care" = ["duty"; "care"]%string
  /\ status (SearchRoute.POST Examples.silent Samples.catalogue
               (Some "duty of care"%string) None) = 500%nat
  /\ (SearchRoute.POST Examples.silent Samples.catalogue
        (Some "duty of care"%string) None = SearchRoute.failed
      \/ exists results aiAnswer,
           SearchRoute.POST Examples.silent Samples.catalogue
             (Some "duty of care"%string) None
           = mkResponse 200
               (SearchBody "duty of care" None results aiAnswer)).
Proof.
  split; [discriminate|]. split; [reflexivity|]. split; [reflexivity|].
  destruct (search_route_shape Examples.silent Samples.catalogue
              "duty of care"%string None)
    as [[H _]|(results & aiAnswer & H & _)]; [discriminate| |].
  - left. exact H.
  - right. exists results, aiAnswer. exact H.
Defined.

(** The first route answers a request that has a query with status 500 or
    200, and with 200 in two ways only: with the rows of the vector store,
    when the embedding was had, or, when the embedding service answered
    with a non-ok status, with the rows of the text search for the first
    word of the query, each with the score 0.5 and with no answer text.
    It gives no answer text without results. *)
Theorem basic_route_shape (w : World) (q : string) :
  q <> EmptyString ->
  let answer := Basic.POST w (Some q) in
  (status answer = 500%nat
   /\ (iflow_embedding w q = HttpError ->
       case_chunks w (Basic.first_word q) 5 = Rejected
       \/ case_chunks w (Basic.first_word q) 5 = HttpError))
  \/ exists results aiAnswer,
       answer = mkResponse 200 (SearchBody q None results aiAnswer)
       /\ (results = [] -> aiAnswer = None)
       /\ aiAnswer <> Some EmptyString
       /\ ((iflow_embedding w q = HttpOk true
            /\ match_legal_chunks w q 0.4%Q 8 = HttpOk results)
           \/ (iflow_embedding w q = HttpError
               /\ aiAnswer = None
               /\ Forall (fun r => similarity r = 0.5%Q) results
               /\ case_chunks w (Basic.first_word q) 5
                  = HttpOk (map row results))).
Proof.
  intros Hq answer. unfold answer, Basic.POST.
  rewrite bool_decide_eq_false_2 by done.
  destruct (iflow_embedding w q) as [| |[|]] eqn:E.
  - left. by split.
  - unfold Basic.keywordSearch.
    destruct (case_chunks w (Basic.first_word q) 5) as [| |rows] eqn:F.
    + left. split; [done|]. by left.
    + left. split; [done|]. by right.
    + right. eexists _, None. split; [reflexivity|].
      split; [done|]. split; [done|]. right.
      split; [done|]. split; [done|]. split.
      * apply Forall_fmap, Forall_forall. by intros c _.
      * rewrite map_map. cbn [row of_chunk]. by rewrite map_id.
  - destruct (match_legal_chunks w q 0.4 8) as [| |rows] eqn:F.
    + left. by split.
    + left. by split.
    + right. eexists rows, _. split; [reflexivity|].
      split; [|split; [|by left]].
      * by intros ->.
      * destruct rows as [|r rows]; [done|]. cbn [length Nat.ltb Nat.leb].
        unfold Basic.generateAIAnswer.
        destruct (analysis_chat _ _ _) as [| |[c|]]; try done.
        case_bool_decide; congruence.
  - left. by split.
Qed.

Lemma basic_route_shape_witness :
  "tort law"%string <> EmptyString
  /\ Basic.POST Examples.one_hit (Some "tort law"%string)
     = mkResponse 200
         (SearchBody "tort law" None [Examples.hit 1 7 "a" 0.9] None)
  /\ (status (Basic.POST Examples.one_hit (Some "tort law"%string))
      = 500%nat
      /\ (iflow_embedding Examples.one_hit "tort law" = HttpError ->
          case_chunks Examples.one_hit (Basic.first_word "tort law") 5
          = Rejected
          \/ case_chunks Examples.one_hit (Basic.first_word "tort law") 5
             = HttpError)
      \/ exists results aiAnswer,
           Basic.POST Examples.one_hit (Some "tort law"%string)
           = mkResponse 200 (SearchBody "tort law" None results aiAnswer)
           /\ (results = [] -> aiAnswer = None)
           /\ aiAnswer <> Some EmptyString
           /\ ((iflow_embedding Examples.one_hit "tort law" = HttpOk true
                /\ match_legal_chunks Examples.one_hit "tort law" 0.4%Q 8
                   = HttpOk results)
               \/ (iflow_embedding Examples.one_hit "tort law" = HttpError
                   /\ aiAnswer = None
                   /\ Forall (fun r => similarity r = 0.5%Q) results
                   /\ case_chunks Examples.one_hit
                        (Basic.first_word "tort law") 5
                      = HttpOk (map row results)))).
Proof.
  split; [discriminate|]. split; [reflexivity|].
  apply (basic_route_shape Examples.one_hit "tort law"%string).
  discriminate.
Defined.

End FallbackRoutes.

Section UniqueIds.
Import JsString JsArray.

(** What the AI-rerank route returns: at most ten results, of pairwise
    distinct ids. *)
Theorem rerank_final_shape (w : World) (query : string)
    (req_court : option string) :
  (length (Rerank.final_results w query req_court) <= 10)%nat
  /\ NoDup (map rid (Rerank.final_results w query req_court)).
Proof.
  split; [|apply rerank_unique].
  unfold Rerank.final_results, slice0. rewrite length_take. lia.
Qed.

(** The theorem of the multi-query route on a main search of one row. *)
Lemma multi_query_unique_from_main_witness :
  NoDup (map rid (MultiQuery.semanticSearch Examples.one_hit "tort" None 0.40))
  /\ NoDup
       (map rid
          (MultiQuery.final_results Examples.one_hit "tort" None
             (MultiQuery.analyzeQuery Examples.one_hit "tort"))).
Proof.
  assert (NoDup (map rid
            (MultiQuery.semanticSearch Examples.one_hit "tort" None 0.40)))
    as H.
  { simpl. apply NoDup_singleton. }
  split; [exact H|].
  apply (multi_query_unique_from_main Examples.one_hit "tort"%string None
           (MultiQuery.analyzeQuery Examples.one_hit "tort") H).
Defined.

End UniqueIds.

Section FirstWord.
Import JsString JsArray Chars.

(** The word the fallback of the first route searches for is the text of
    the query before its first space: it contains no space, and the query
    is that word followed by nothing or by a space and the rest.  A query
    that starts with a space gives the empty word. *)
Theorem first_word_prefix (query : string) :
  all_chars not_blank (Basic.first_word query) = true
  /\ (query = Basic.first_word query
      \/ exists rest,
           query = (Basic.first_word query ++ String " " rest)%string).
Proof.
  unfold Basic.first_word.
  induction query as [|c s IH]; [by split; [|left]|].
  cbn [split_space]. destruct (code c =? 32)%nat eqn:E.
  - cbn [head default from_option]. unfold Datatypes.id.
    split; [done|]. right. exists s.
    apply Nat.eqb_eq in E. unfold code in E.
    assert (c = " "%char) as ->.
    { rewrite <- (ascii_nat_embedding c), E. reflexivity. }
    reflexivity.
  - pose proof (split_space_nonempty s) as Hne.
    destruct (split_space s) as [|p ps]; [done|].
    cbn [cons_head head default from_option] in *.
    unfold Datatypes.id in *. destruct IH as [Hp Hq]. split.
    + cbn [all_chars]. rewrite Hp, andb_true_r.
      unfold not_blank. by rewrite E.
    + destruct Hq as [->|[rest ->]]; [by left|].
      right. by exists rest.
Qed.

End FirstWord.
